(** * Chat-summary analytics: validators, response recovery, statistics, scheduler

    A shallow embedding of the analytic core of the chat-summary plugin
    ([core/analysis_utils.py], class [ChatAnalysisUtils], and
    [plugin.py], class [SummaryScheduler]) together with the properties
    its specification states about it.

    Python values are modelled structurally; exceptions are explicit
    ([result]); the pieces of the interpreter that depend on Unicode
    tables or on the host (case mapping, [repr], [int] of text, the local
    time zone), and [json.loads], are gathered in the interface
    [PyRuntime]; every theorem holds for all of its implementations. *)

From Stdlib Require Import ZArith Bool Lia String Ascii DecimalString.
From stdpp Require Import base decidable option list sorting gmap.

Set Warnings "-register-all".
Local Open Scope Z_scope.

(** ** Python values *)

Module Py.

(** A [str] is a sequence of Unicode code points. *)
Abbreviation pystr := (list Z).

(** ASCII literals of the source, as code points. *)
Definition lit (s : string) : pystr :=
  map (fun a => Z.of_N (N_of_ascii a)) (list_ascii_of_string s).

(** The exception classes that occur; all derive from [Exception]. *)
Inductive exn : Set :=
| ValueError
| TypeError
| OverflowError
| RecursionError
| KeyError
| JSONDecodeError.

#[global] Instance exn_eq_dec : EqDecision exn.
Proof. solve_decision. Defined.

(** The outcome of a call: a value or a raised exception. *)
Inductive result (A : Type) : Type :=
| Ok (a : A)
| Raise (e : exn).
Arguments Ok {A} a.
Arguments Raise {A} e.

#[global] Instance result_ret : MRet result := fun _ a => Ok a.
#[global] Instance result_bind : MBind result := fun _ _ f m =>
  match m with Ok a => f a | Raise e => Raise e end.

(** [try: m except (e1, e2, ...): h] *)
Definition try_except {A} (m : result A) (caught : exn -> bool) (h : exn -> result A)
  : result A :=
  match m with
  | Ok a => Ok a
  | Raise e => if caught e then h e else Raise e
  end.

(** A binary64 float: not-a-number, an infinity, or the dyadic [m * 2^e]. *)
Inductive pyfloat : Set :=
| FNan
| FInf (negative : bool)
| FFin (m e : Z).

Inductive value : Type :=
| VNone
| VBool (b : bool)
| VInt (n : Z)
| VFloat (f : pyfloat)
| VStr (s : pystr)
| VList (l : list value)
| VDict (d : list (pystr * value)).

(** A [dict] keeps insertion order; keys are text. *)
Abbreviation pydict := (list (pystr * value)).

Fixpoint assoc_get {V} (k : pystr) (d : list (pystr * V)) : option V :=
  match d with
  | [] => None
  | (k', v) :: d' => if decide (k' = k) then Some v else assoc_get k d'
  end.

(** [d[k] = v]: overwrite in place, or append a new key. *)
Fixpoint assoc_set {V} (k : pystr) (v : V) (d : list (pystr * V)) : list (pystr * V) :=
  match d with
  | [] => [(k, v)]
  | (k', v') :: d' =>
      if decide (k' = k) then (k', v) :: d' else (k', v') :: assoc_set k v d'
  end.

(** [key in d] *)
Definition has_key {V} (k : pystr) (d : list (pystr * V)) : bool :=
  bool_decide (is_Some (assoc_get k d)).

(** [d[k]] *)
Definition getitem (d : pydict) (k : pystr) : result value :=
  match assoc_get k d with Some v => Ok v | None => Raise KeyError end.

(** [d.get(k, default)] *)
Definition dict_get (d : pydict) (k : pystr) (default : value) : value :=
  match assoc_get k d with Some v => v | None => default end.

End Py.

Import Py.

(** ** Text operations of [str] *)

Module Str.

Definition in_range (lo hi c : Z) : bool := (lo <=? c) && (c <=? hi).

(** [str.isspace] per code point; also the class [\s] of [re] on text. *)
Definition is_space (c : Z) : bool :=
  in_range 0x09 0x0D c || in_range 0x1C 0x20 c || (c =? 0x85) || (c =? 0xA0)
  || (c =? 0x1680) || in_range 0x2000 0x200A c || (c =? 0x2028) || (c =? 0x2029)
  || (c =? 0x202F) || (c =? 0x205F) || (c =? 0x3000).

Fixpoint lstrip (s : pystr) : pystr :=
  match s with
  | c :: s' => if is_space c then lstrip s' else s
  | [] => []
  end.

Definition rstrip (s : pystr) : pystr := rev (lstrip (rev s)).

(** [s.strip()] *)
Definition strip (s : pystr) : pystr := rstrip (lstrip s).

(** [s[:n]], for a bound [n] of either sign. *)
Definition slice_to (s : pystr) (n : Z) : pystr :=
  if 0 <=? n then take (Z.to_nat n) s
  else take (Z.to_nat (Z.of_nat (length s) + n)) s.

(** [s[n:]] for [0 <= n]. *)
Definition slice_from (s : pystr) (n : Z) : pystr := drop (Z.to_nat n) s.

(** [s[a:b]] for [0 <= a <= b]. *)
Definition slice (s : pystr) (a b : Z) : pystr :=
  take (Z.to_nat (b - a)) (drop (Z.to_nat a) s).

Fixpoint find_from (c : Z) (s : pystr) (i : Z) : Z :=
  match s with
  | [] => -1
  | x :: s' => if x =? c then i else find_from c s' (i + 1)
  end.

(** [s.find(c)] for a one-character [c]: first index, or [-1]. *)
Definition find (s : pystr) (c : Z) : Z := find_from c s 0.

Fixpoint rfind_from (c : Z) (s : pystr) (i last : Z) : Z :=
  match s with
  | [] => last
  | x :: s' => rfind_from c s' (i + 1) (if x =? c then i else last)
  end.

(** [s.rfind(c)]: last index, or [-1]. *)
Definition rfind (s : pystr) (c : Z) : Z := rfind_from c s 0 (-1).

Fixpoint startswith (s p : pystr) : bool :=
  match p with
  | [] => true
  | c :: p' =>
      match s with
      | x :: s' => (x =? c) && startswith s' p'
      | [] => false
      end
  end.

(** [s.split(sep)] for a non-empty [sep]: occurrences are taken from the
    left and do not overlap. [skip] counts the characters of the current
    occurrence still to be passed over, [cur] is the part being read
    (reversed). *)
Fixpoint split_go (sep s : pystr) (skip : nat) (cur : pystr) : list pystr :=
  match s with
  | [] => [rev cur]
  | c :: s' =>
      match skip with
      | S k => split_go sep s' k cur
      | O =>
          if startswith s sep
          then rev cur :: split_go sep s' (Nat.pred (length sep)) []
          else split_go sep s' O (c :: cur)
      end
  end.

Definition split (s sep : pystr) : list pystr := split_go sep s O [].

End Str.

(** ** The interpreter's services *)

(** What the analysis needs from CPython and from the host, and what
    cannot be written down without the Unicode character database or the
    zone database. Any implementation is admissible. *)
Class PyRuntime : Type := {
  (** [str.upper] (full Unicode case mapping). *)
  py_upper : pystr -> pystr;
  (** [repr] of a value; [str] falls back to it for floats, lists and dicts. *)
  py_repr : value -> pystr;
  (** [int(s)] for text [s]; [None] when it raises [ValueError]. *)
  int_of_text : pystr -> option Z;
  (** class [\d] of [re] on text (Unicode decimal digits). *)
  re_digit : Z -> bool;
  (** offset of local time from UTC, in seconds, at a POSIX time. *)
  utcoffset : Z -> Z;
  (** [json.loads] on text. *)
  json_loads : pystr -> result value
}.

(** [core/constants.py] ([AnalysisConfig]) is not among the sources; the
    two bounds used by the validators are parameters. *)
Class AnalysisConfig : Type := {
  MAX_TITLE_LENGTH : Z;
  MAX_REASON_LENGTH : Z
}.

Module Builtins.
Section WithRuntime.
Context {RT : PyRuntime}.

(** [int(x)] on a float truncates toward zero. *)
Definition float_trunc (m e : Z) : Z :=
  if 0 <=? e then m * 2 ^ e else Z.quot m (2 ^ (- e)).

(** [int(x)] *)
Definition py_int (x : value) : result Z :=
  match x with
  | VNone => Raise TypeError
  | VBool b => Ok (if b then 1 else 0)
  | VInt n => Ok n
  | VFloat FNan => Raise ValueError
  | VFloat (FInf _) => Raise OverflowError
  | VFloat (FFin m e) => Ok (float_trunc m e)
  | VStr s => match int_of_text s with Some n => Ok n | None => Raise ValueError end
  | VList _ => Raise TypeError
  | VDict _ => Raise TypeError
  end.

(** [str(x)] *)
Definition py_str (x : value) : pystr :=
  match x with
  | VStr s => s
  | VNone => lit "None"
  | VBool true => lit "True"
  | VBool false => lit "False"
  | VInt n => lit (NilZero.string_of_int (Z.to_int n))
  | _ => py_repr x
  end.

(** Truth value of [x] ([bool(x)]). *)
Definition truthy (x : value) : bool :=
  match x with
  | VNone => false
  | VBool b => b
  | VInt n => negb (n =? 0)
  | VFloat (FFin m _) => negb (m =? 0)
  | VFloat _ => true
  | VStr s => negb (bool_decide (s = []))
  | VList l => negb (bool_decide (length l = 0%nat))
  | VDict d => negb (bool_decide (length d = 0%nat))
  end.

End WithRuntime.
End Builtins.

Import Str Builtins.

(** ** Records built by the analysis *)

(** One entry of the mapping returned by [analyze_user_stats]. *)
Module UserStats.
Record t : Type := make {
  user_id : pystr;
  nickname : value;
  message_count : nat;
  char_count : nat;
  emoji_count : nat;
  hours : gmap Z nat          (* a [Counter]: absent keys count 0 *)
}.
End UserStats.

(** The mapping returned by [analyze_single_user_stats]. *)
Module SingleUserStats.
Record t : Type := make {
  message_count : nat;
  char_count : nat;
  emoji_count : nat;
  hours : gmap Z nat;
  hourly_distribution : list (Z * nat)
}.
End SingleUserStats.

(** One entry of the list returned by [_validate_depression_index]. *)
Module RankEntry.
Record t : Type := make {
  name : pystr;
  rank : pystr;
  score : Z;
  comment : pystr;
  user_id : pystr
}.
End RankEntry.

(** One entry of the list returned by [_validate_titles]. *)
Module TitledProfile.
Record t : Type := make {
  name : pystr;
  title : pystr;
  mbti : pystr;
  reason : pystr;
  user_id : pystr
}.
End TitledProfile.

(** One entry of the list returned by [_validate_topics]. *)
Module Topic.
Record t : Type := make {
  topic : pystr;
  contributors : list pystr;
  detail : pystr
}.
End Topic.

(** One entry of the list returned by [_validate_quotes]. *)
Module Quote.
Record t : Type := make {
  content : pystr;
  sender : pystr;
  reason : pystr
}.
End Quote.

(** The mapping returned by [_validate_user_profile]. *)
Module Profile.
Record t : Type := make {
  tags : list pystr;
  active_time : pystr;
  fun_score : Z;
  fun_comment : pystr;
  topic_leadership : Z;
  topic_comment : pystr;
  rank_title : pystr;
  rank_desc : pystr;
  mood : pystr;
  mood_score : Z;
  mood_reason : pystr
}.
End Profile.

(** [Counter] lookup and increment. *)
Definition counter_get (c : gmap Z nat) (k : Z) : nat := default 0%nat (c !! k).
Definition counter_incr (c : gmap Z nat) (k : Z) : gmap Z nat :=
  <[k := S (counter_get c k)]> c.

(** ** [ChatAnalysisUtils] *)

Module ChatAnalysisUtils.
Section WithRuntime.
Context {RT : PyRuntime} {CFG : AnalysisConfig}.

(** The character class of [EMOJI_PATTERN]; the pattern is this class
    repeated one or more times. *)
Definition EMOJI_CLASS (c : Z) : bool :=
  in_range 0x1F600 0x1F64F c
  || in_range 0x1F300 0x1F5FF c
  || in_range 0x1F680 0x1F6FF c
  || in_range 0x1F1E0 0x1F1FF c
  || in_range 0x2702 0x27B0 c
  || in_range 0x24C2 0x1F251 c
  || in_range 0x1F900 0x1F9FF c.

(** [EMOJI_PATTERN.findall(text)]: the matches of [[class]+] from the left,
    each as long as possible. [run] is the match being read (reversed). *)
Fixpoint EMOJI_PATTERN_findall_go (text run : pystr) : list pystr :=
  match text with
  | [] => match run with [] => [] | _ => [rev run] end
  | c :: text' =>
      if EMOJI_CLASS c then EMOJI_PATTERN_findall_go text' (c :: run)
      else match run with
           | [] => EMOJI_PATTERN_findall_go text' []
           | _ => rev run :: EMOJI_PATTERN_findall_go text' []
           end
  end.

Definition EMOJI_PATTERN_findall (text : pystr) : list pystr :=
  EMOJI_PATTERN_findall_go text [].

(** [EMOJI_PATTERN.sub('', text)]: every match is deleted. *)
Fixpoint EMOJI_PATTERN_sub_empty (text : pystr) : pystr :=
  match text with
  | [] => []
  | c :: text' =>
      if EMOJI_CLASS c then EMOJI_PATTERN_sub_empty text'
      else c :: EMOJI_PATTERN_sub_empty text'
  end.

Definition count_emojis (text : pystr) : nat :=
  let matches := EMOJI_PATTERN_findall text in
  length matches.

(** [x or <empty text>] *)
Definition or_empty (x : value) : value := if truthy x then x else VStr [].

(** [len(text)] followed by [findall(text)] need text: anything else that
    is true raises [TypeError] in one of the two. *)
Definition as_text (x : value) : result pystr :=
  match x with
  | VStr s => Ok s
  | _ => Raise TypeError
  end.

Definition round_half_even (num den : Z) : Z :=
  let q := num / den in
  let r := num mod den in
  if 2 * r <? den then q
  else if den <? 2 * r then q + 1
  else if Z.even q then q else q + 1.

(** A timestamp as whole seconds: floats are rounded half-to-even to
    microseconds, then floored. *)
Definition timestamp_seconds (ts : value) : result Z :=
  match ts with
  | VInt n => Ok n
  | VBool b => Ok (if b then 1 else 0)
  | VFloat (FFin m e) =>
      let us := if 0 <=? e then m * 2 ^ e * 1000000
                else round_half_even (m * 1000000) (2 ^ (- e)) in
      Ok (us / 1000000)
  | VFloat FNan => Raise ValueError
  | VFloat (FInf _) => Raise OverflowError
  | _ => Raise TypeError
  end.

(** [datetime.fromtimestamp(ts).hour]: the hour of the local wall clock.
    Instants outside years 1..9999 are refused (with an error whose class
    depends on the platform; [ValueError] stands for it). *)
Definition fromtimestamp_hour (ts : value) : result Z :=
  t ← timestamp_seconds ts;
  let wall := t + utcoffset t in
  if (wall <? -62135596800) || (253402300799 <? wall) then Raise ValueError
  else Ok ((wall mod 86400) / 3600).

(** The default nickname, "unknown user" (未知用户). *)
Definition UNKNOWN_USER : pystr := [0x672A; 0x77E5; 0x7528; 0x6237].

(** [str(msg.get("user_id", <empty text>))] *)
Definition msg_user_id (msg : pydict) : pystr :=
  py_str (dict_get msg (lit "user_id") (VStr [])).

(** The body of the loop of [analyze_user_stats] for one message. *)
Definition analyze_user_stats_step (user_stats : list (pystr * UserStats.t))
    (msg : pydict) : result (list (pystr * UserStats.t)) :=
  let user_id := msg_user_id msg in
  if bool_decide (user_id = []) then Ok user_stats
  else
    let nickname := dict_get msg (lit "user_nickname") (VStr UNKNOWN_USER) in
    let text := or_empty (dict_get msg (lit "processed_plain_text") VNone) in
    let stats :=
      match assoc_get user_id user_stats with
      | Some st => st
      | None => UserStats.make user_id nickname 0 0 0 ∅
      end in
    text ← as_text text;
    let timestamp := dict_get msg (lit "time") (VInt 0) in
    hour ← fromtimestamp_hour timestamp;
    Ok (assoc_set user_id
          (UserStats.make
             (UserStats.user_id stats)
             (UserStats.nickname stats)
             (UserStats.message_count stats + 1)
             (UserStats.char_count stats + length text)
             (UserStats.emoji_count stats + count_emojis text)
             (counter_incr (UserStats.hours stats) hour))
          user_stats).

Fixpoint analyze_user_stats_loop (user_stats : list (pystr * UserStats.t))
    (messages : list pydict) : result (list (pystr * UserStats.t)) :=
  match messages with
  | [] => Ok user_stats
  | msg :: rest =>
      user_stats' ← analyze_user_stats_step user_stats msg;
      analyze_user_stats_loop user_stats' rest
  end.

Definition analyze_user_stats (messages : list pydict)
  : result (list (pystr * UserStats.t)) :=
  analyze_user_stats_loop [] messages.

(** The body of the loop of [analyze_single_user_stats]: the four running
    values are the message, character and emoji counts and the hours. *)
Definition analyze_single_user_stats_step (acc : nat * nat * nat * gmap Z nat)
    (msg : pydict) : result (nat * nat * nat * gmap Z nat) :=
  let '(message_count, char_count, emoji_count, hours) := acc in
  let text := or_empty (dict_get msg (lit "processed_plain_text") VNone) in
  text ← as_text text;
  let timestamp := dict_get msg (lit "time") (VInt 0) in
  hour ← fromtimestamp_hour timestamp;
  Ok ((message_count + 1)%nat, (char_count + length text)%nat,
      (emoji_count + count_emojis text)%nat, counter_incr hours hour).

Fixpoint analyze_single_user_stats_loop (acc : nat * nat * nat * gmap Z nat)
    (messages : list pydict) : result (nat * nat * nat * gmap Z nat) :=
  match messages with
  | [] => Ok acc
  | msg :: rest =>
      acc' ← analyze_single_user_stats_step acc msg;
      analyze_single_user_stats_loop acc' rest
  end.

Definition analyze_single_user_stats (messages : list pydict)
  : result SingleUserStats.t :=
  match messages with
  | [] => Ok (SingleUserStats.make 0 0 0 ∅ [])
  | _ =>
      '(message_count, char_count, emoji_count, hours) ←
        analyze_single_user_stats_loop (0%nat, 0%nat, 0%nat, ∅) messages;
      let hourly_distribution := map (fun h => (h, counter_get hours h)) (seqZ 0 24) in
      Ok (SingleUserStats.make message_count char_count emoji_count hours
            hourly_distribution)
  end.

(** *** Record validators *)

(** [all(key in item for key in keys)] *)
Definition has_keys (item : pydict) (keys : list pystr) : bool :=
  forallb (fun key => has_key key item) keys.

(** [stats.get("nickname") == name], [name] being text. *)
Definition nickname_is (st : UserStats.t) (name : pystr) : bool :=
  match UserStats.nickname st with
  | VStr n => bool_decide (n = name)
  | _ => false
  end.

(** The loop over [user_stats.items()] that stops at the first entry whose
    nickname is [name]. *)
Fixpoint find_user_id (items : list (pystr * UserStats.t)) (name : pystr) : pystr :=
  match items with
  | [] => []
  | (uid, stats) :: items' =>
      if nickname_is stats name then uid else find_user_id items' name
  end.

(** [user_id] starts empty; the search runs when [user_stats] is given
    and not empty. *)
Definition match_user_id (user_stats : option (list (pystr * UserStats.t)))
    (name : pystr) : pystr :=
  match user_stats with
  | Some items => find_user_id items name
  | None => []
  end.

Definition VALID_RANKS : list pystr := [lit "S"; lit "A"; lit "B"; lit "C"; lit "D"].

(** [rank_default_scores.get(rank, 75)] *)
Definition rank_default_scores_get (rank : pystr) : Z :=
  if decide (rank = lit "S") then 135
  else if decide (rank = lit "A") then 105
  else if decide (rank = lit "B") then 75
  else if decide (rank = lit "C") then 45
  else if decide (rank = lit "D") then 15
  else 75.

(** The [try] block that extracts the score of an item already known to
    carry the rank [rank]. *)
Definition extract_score (item : pydict) (rank : pystr) : result Z :=
  try_except
    (score ← py_int (dict_get item (lit "score") (VInt 0));
     Ok (Z.max 0 (Z.min 150 score)))
    (fun e => bool_decide (e = ValueError) || bool_decide (e = TypeError))
    (fun _ => Ok (rank_default_scores_get rank)).

(** The body of the loop of [_validate_depression_index] for one element:
    [Ok None] stands for [continue], [Ok (Some r)] for [validated.append(r)]. *)
Definition validate_depression_item
    (user_stats : option (list (pystr * UserStats.t))) (item : value)
  : result (option RankEntry.t) :=
  match item with
  | VDict item =>
      if negb (has_keys item [lit "name"; lit "rank"; lit "comment"]) then Ok None
      else
        name_v ← getitem item (lit "name");
        rank_v ← getitem item (lit "rank");
        comment_v ← getitem item (lit "comment");
        let name := slice_to (py_str name_v) 50 in
        let rank := strip (py_upper (py_str rank_v)) in
        let comment := slice_to (py_str comment_v) 60 in
        if negb (bool_decide (rank ∈ VALID_RANKS)) then Ok None
        else if bool_decide (name = []) || bool_decide (rank = [])
                || bool_decide (comment = []) then Ok None
        else
          score ← extract_score item rank;
          let user_id := match_user_id user_stats name in
          Ok (Some (RankEntry.make name rank score comment user_id))
  | _ => Ok None
  end.

Fixpoint validate_depression_loop
    (user_stats : option (list (pystr * UserStats.t))) (data : list value)
  : result (list RankEntry.t) :=
  match data with
  | [] => Ok []
  | item :: rest =>
      r ← validate_depression_item user_stats item;
      validated ← validate_depression_loop user_stats rest;
      Ok (match r with Some e => e :: validated | None => validated end)
  end.

(** [l.sort(key=key, reverse=True)]: descending by key, and stable: among
    equal keys the earlier element stays first. *)
Fixpoint insert_desc {A} (key : A -> Z) (x : A) (l : list A) : list A :=
  match l with
  | [] => [x]
  | y :: l' => if key y <=? key x then x :: l else y :: insert_desc key x l'
  end.

Fixpoint sort_desc {A} (key : A -> Z) (l : list A) : list A :=
  match l with
  | [] => []
  | x :: l' => insert_desc key x (sort_desc key l')
  end.

Definition _validate_depression_index (data : list value)
    (user_stats : option (list (pystr * UserStats.t)))
  : result (list RankEntry.t) :=
  validated ← validate_depression_loop user_stats data;
  Ok (sort_desc RankEntry.score validated).

Definition valid_mbti_types : list pystr :=
  [ lit "INTJ"; lit "INTP"; lit "ENTJ"; lit "ENTP";
    lit "INFJ"; lit "INFP"; lit "ENFJ"; lit "ENFP";
    lit "ISTJ"; lit "ISFJ"; lit "ESTJ"; lit "ESFJ";
    lit "ISTP"; lit "ISFP"; lit "ESTP"; lit "ESFP" ].

(** The body of the loop of [_validate_titles] for one element. *)
Definition validate_title_item
    (user_stats : option (list (pystr * UserStats.t))) (item : value)
  : result (option TitledProfile.t) :=
  match item with
  | VDict item =>
      if negb (has_keys item [lit "name"; lit "title"; lit "mbti"; lit "reason"])
      then Ok None
      else
        name_v ← getitem item (lit "name");
        title_v ← getitem item (lit "title");
        mbti_v ← getitem item (lit "mbti");
        reason_v ← getitem item (lit "reason");
        let name := slice_to (py_str name_v) 50 in
        let title := slice_to (py_str title_v) MAX_TITLE_LENGTH in
        let mbti := strip (py_upper (py_str mbti_v)) in
        let reason := slice_to (py_str reason_v) MAX_REASON_LENGTH in
        let mbti :=
          if negb (bool_decide (mbti ∈ valid_mbti_types)) then lit "ENFP" else mbti in
        if bool_decide (name = []) || bool_decide (title = [])
           || bool_decide (reason = []) then Ok None
        else
          let user_id := match_user_id user_stats name in
          Ok (Some (TitledProfile.make name title mbti reason user_id))
  | _ => Ok None
  end.

Fixpoint _validate_titles (data : list value)
    (user_stats : option (list (pystr * UserStats.t)))
  : result (list TitledProfile.t) :=
  match data with
  | [] => Ok []
  | item :: rest =>
      r ← validate_title_item user_stats item;
      validated ← _validate_titles rest user_stats;
      Ok (match r with Some e => e :: validated | None => validated end)
  end.

(** *** Response recovery *)

(** The removal of a Markdown code fence that opens both parsers. *)
Definition strip_fence (result : pystr) : pystr :=
  let result := strip result in
  let result :=
    if startswith result (lit "```") then
      let parts := split result (lit "```") in
      if (2 <=? length parts)%nat then
        let result := nth 1 parts [] in
        if startswith result (lit "json") then slice_from result 4 else result
      else result
    else result in
  strip result.

(** From the first [open] to the last [close], when both exist in that order. *)
Definition extract_span (open close : Z) (result : pystr) : pystr :=
  let start_idx := find result open in
  let end_idx := rfind result close in
  if negb (start_idx =? -1) && negb (end_idx =? -1) && (start_idx <? end_idx)
  then slice result start_idx (end_idx + 1)
  else result.

Definition LBRACKET : Z := 0x5B.
Definition RBRACKET : Z := 0x5D.
Definition LBRACE : Z := 0x7B.
Definition RBRACE : Z := 0x7D.

(** The class [[\u4e00-\u9fff]]. *)
Definition is_ideograph (c : Z) : bool := in_range 0x4E00 0x9FFF c.

(** For a text that starts right after a character matched by the first
    group of [(A)\s+(B)]: the number of blanks of the match, the longest
    first, if there is one. *)
Fixpoint blanks_then (B : Z -> bool) (t : pystr) : option nat :=
  match t with
  | w :: t' =>
      if is_space w then
        match blanks_then B t' with
        | Some k => Some (S k)
        | None =>
            match t' with
            | d :: _ => if B d then Some 1%nat else None
            | [] => None
            end
        end
      else None
  | [] => None
  end.

(** [re.sub(r'(A)\s+(B)', r'\1\2', s)] for one-character classes [A] and
    [B]: matches are found from the left and do not overlap. [drop] counts
    the blanks of the current match still to delete; [second] says that
    the next character kept is the second group of the match, which
    cannot open another match. *)
Fixpoint re_sub_collapse_go (A B : Z -> bool) (s : pystr) (drop : nat) (second : bool)
  : pystr :=
  match s with
  | [] => []
  | c :: t =>
      match drop with
      | S k => re_sub_collapse_go A B t k second
      | O =>
          if second then c :: re_sub_collapse_go A B t O false
          else if A c then
            match blanks_then B t with
            | Some k => c :: re_sub_collapse_go A B t k true
            | None => c :: re_sub_collapse_go A B t O false
            end
          else c :: re_sub_collapse_go A B t O false
      end
  end.

Definition re_sub_collapse (A B : Z -> bool) (s : pystr) : pystr :=
  re_sub_collapse_go A B s O false.

(** The text that the second [json.loads] of [_parse_llm_json] receives,
    from the text on which the first one failed. *)
Definition repair_array (result : pystr) : pystr :=
  let result_cleaned := EMOJI_PATTERN_sub_empty result in
  let result_cleaned := extract_span LBRACKET RBRACKET result_cleaned in
  let result_cleaned := re_sub_collapse is_ideograph is_ideograph result_cleaned in
  let result_cleaned := re_sub_collapse is_ideograph re_digit result_cleaned in
  let result_cleaned := re_sub_collapse re_digit is_ideograph result_cleaned in
  result_cleaned.

(** The same for [_parse_llm_json_object]. *)
Definition repair_object (result : pystr) : pystr :=
  let result_cleaned := EMOJI_PATTERN_sub_empty result in
  let result_cleaned := extract_span LBRACE RBRACE result_cleaned in
  let result_cleaned := re_sub_collapse is_ideograph is_ideograph result_cleaned in
  result_cleaned.

Definition is_dict (v : value) : bool :=
  match v with VDict _ => true | _ => false end.

(** The type checks on a parsed array: a list, all of whose elements are
    dicts, is returned; anything else gives the empty list. *)
Definition accept_list (data : value) : list value :=
  match data with
  | VList l => if negb (bool_decide (l = [])) && negb (forallb is_dict l) then [] else l
  | _ => []
  end.

(** The type check on a parsed object. *)
Definition accept_dict (data : value) : option pydict :=
  match data with
  | VDict d => Some d
  | _ => None
  end.

Definition is_JSONDecodeError (e : exn) : bool := bool_decide (e = JSONDecodeError).

Definition _parse_llm_json (result : pystr) : Py.result (list value) :=
  let result := strip_fence result in
  let result := extract_span LBRACKET RBRACKET result in
  try_except
    (data ← json_loads result; Ok (accept_list data))
    (fun _ => true)
    (fun e =>
       if is_JSONDecodeError e then
         try_except
           (data ← json_loads (repair_array result); Ok (accept_list data))
           (fun _ => true)
           (fun _ => Ok [])
       else Ok []).

Definition _parse_llm_json_object (result : pystr) : Py.result (option pydict) :=
  let result := strip_fence result in
  let result := extract_span LBRACE RBRACE result in
  try_except
    (data ← json_loads result; Ok (accept_dict data))
    (fun _ => true)
    (fun e =>
       if is_JSONDecodeError e then
         try_except
           (data ← json_loads (repair_object result); Ok (accept_dict data))
           (fun _ => true)
           (fun _ => Ok None)
       else Ok None).

(** *** Topics, quotes and the single profile *)

(** [[str(c).strip()[:20] for c in contributors if c and str(c).strip()][:5]] *)
Definition clean_contributors (contributors : list value) : list pystr :=
  take 5
    (map (fun c => slice_to (strip (py_str c)) 20)
       (List.filter
          (fun c => truthy c && negb (bool_decide (strip (py_str c) = [])))
          contributors)).

(** The body of the loop of [_validate_topics] for one element. *)
Definition validate_topic_item (item : value) : result (option Topic.t) :=
  match item with
  | VDict item =>
      if negb (has_keys item [lit "topic"; lit "contributors"; lit "detail"])
      then Ok None
      else
        topic_v ← getitem item (lit "topic");
        detail_v ← getitem item (lit "detail");
        let topic := slice_to (py_str topic_v) 30 in
        let detail := slice_to (py_str detail_v) 200 in
        let contributors :=
          match dict_get item (lit "contributors") (VList []) with
          | VList l => l
          | _ => []
          end in
        let contributors := clean_contributors contributors in
        if bool_decide (topic = []) || bool_decide (detail = [])
           || bool_decide (contributors = []) then Ok None
        else Ok (Some (Topic.make topic contributors detail))
  | _ => Ok None
  end.

Fixpoint validate_topics_loop (data : list value) : result (list Topic.t) :=
  match data with
  | [] => Ok []
  | item :: rest =>
      r ← validate_topic_item item;
      validated ← validate_topics_loop rest;
      Ok (match r with Some e => e :: validated | None => validated end)
  end.

Definition _validate_topics (data : list value) : result (list Topic.t) :=
  validated ← validate_topics_loop data;
  Ok (take 5 validated).

(** For [C+] followed by a rest [k] of the pattern, at the head of [t]:
    the number of characters of the match, the run of [C] being taken as
    long as the rest allows ([k] gives the length the rest consumes). *)
Fixpoint plus_then (C : Z -> bool) (k : pystr -> option nat) (t : pystr) : option nat :=
  match t with
  | c :: t' =>
      if C c then
        match plus_then C k t' with
        | Some n => Some (S n)
        | None => S <$> k t'
        end
      else None
  | [] => None
  end.

Fixpoint leading_blanks (t : pystr) : nat :=
  match t with
  | c :: t' => if is_space c then S (leading_blanks t') else O
  | [] => O
  end.

(** The pattern [@[^<\s]+<\d+>\s*] after its first character: the
    length of the match from there, if any. *)
Definition mention_length (t : pystr) : option nat :=
  plus_then (fun c => negb (c =? 0x3C) && negb (is_space c))
    (fun t1 =>
       match t1 with
       | lt :: t2 =>
           if lt =? 0x3C then
             S <$> plus_then re_digit
                     (fun t3 =>
                        match t3 with
                        | gt :: t4 =>
                            if gt =? 0x3E then Some (S (leading_blanks t4)) else None
                        | [] => None
                        end)
                     t2
           else None
       | [] => None
       end)
    t.

(** [re.sub(r'@[^<\s]+<\d+>\s*', '', s)]: matches are found from the left
    and deleted. [skip] counts the characters of the current match still
    to delete. *)
Fixpoint MENTION_sub_empty_go (s : pystr) (skip : nat) : pystr :=
  match s with
  | [] => []
  | c :: t =>
      match skip with
      | S k => MENTION_sub_empty_go t k
      | O =>
          if c =? 0x40 then
            match mention_length t with
            | Some n => MENTION_sub_empty_go t n
            | None => c :: MENTION_sub_empty_go t O
            end
          else c :: MENTION_sub_empty_go t O
      end
  end.

Definition MENTION_sub_empty (s : pystr) : pystr := MENTION_sub_empty_go s O.

(** The body of the loop of [_validate_quotes] for one element. *)
Definition validate_quote_item (item : value) : result (option Quote.t) :=
  match item with
  | VDict item =>
      if negb (has_keys item [lit "content"; lit "sender"; lit "reason"])
      then Ok None
      else
        content_v ← getitem item (lit "content");
        sender_v ← getitem item (lit "sender");
        reason_v ← getitem item (lit "reason");
        let content := slice_to (py_str content_v) 200 in
        let sender := slice_to (py_str sender_v) 50 in
        let reason := slice_to (py_str reason_v) MAX_REASON_LENGTH in
        let content := MENTION_sub_empty content in
        let content := strip content in
        if bool_decide (content = []) || bool_decide (sender = [])
           || bool_decide (reason = []) then Ok None
        else Ok (Some (Quote.make content sender reason))
  | _ => Ok None
  end.

Fixpoint _validate_quotes (data : list value) : result (list Quote.t) :=
  match data with
  | [] => Ok []
  | item :: rest =>
      r ← validate_quote_item item;
      validated ← _validate_quotes rest;
      Ok (match r with Some e => e :: validated | None => validated end)
  end.

(** The three moods: positive (积极), neutral (中性), negative (消极). *)
Definition MOOD_POSITIVE : pystr := [0x79EF; 0x6781].
Definition MOOD_NEUTRAL : pystr := [0x4E2D; 0x6027].
Definition MOOD_NEGATIVE : pystr := [0x6D88; 0x6781].

(** A score field of the profile: the integer clamped to [0,100], or 50
    when [int] raises [ValueError] or [TypeError]. *)
Definition profile_score (data : pydict) (key : pystr) : result Z :=
  try_except
    (score ← py_int (dict_get data key (VInt 50));
     Ok (Z.max 0 (Z.min 100 score)))
    (fun e => bool_decide (e = ValueError) || bool_decide (e = TypeError))
    (fun _ => Ok 50).

(** [[str(tag)[:18] for tag in tags[:3] if len(str(tag).strip()) >= 3]] *)
Definition clean_tags (tags : list value) : list pystr :=
  map (fun tag => slice_to (py_str tag) 18)
    (List.filter (fun tag => (3 <=? length (strip (py_str tag)))%nat) (take 3 tags)).

(** The body of the [try] of [_validate_user_profile]. *)
Definition validate_user_profile_body (data : value) : result (option Profile.t) :=
  match data with
  | VDict data =>
      if negb (has_keys data
                 [lit "tags"; lit "active_time"; lit "fun_score"; lit "fun_comment";
                  lit "topic_leadership"; lit "topic_comment"; lit "rank_title";
                  lit "rank_desc"; lit "mood"; lit "mood_score"; lit "mood_reason"])
      then Ok None
      else
        let tags :=
          match dict_get data (lit "tags") (VList []) with
          | VList l => l
          | _ => []
          end in
        let tags := clean_tags tags in
        let active_time := slice_to (py_str (dict_get data (lit "active_time") (VStr []))) 30 in
        fun_score ← profile_score data (lit "fun_score");
        let fun_comment := slice_to (py_str (dict_get data (lit "fun_comment") (VStr []))) 60 in
        topic_leadership ← profile_score data (lit "topic_leadership");
        let topic_comment :=
          slice_to (py_str (dict_get data (lit "topic_comment") (VStr []))) 60 in
        let rank_title := slice_to (py_str (dict_get data (lit "rank_title") (VStr []))) 30 in
        let rank_desc := slice_to (py_str (dict_get data (lit "rank_desc") (VStr []))) 70 in
        let mood := py_str (dict_get data (lit "mood") (VStr MOOD_NEUTRAL)) in
        let mood :=
          if negb (bool_decide (mood ∈ [MOOD_POSITIVE; MOOD_NEUTRAL; MOOD_NEGATIVE]))
          then MOOD_NEUTRAL else mood in
        mood_score ← profile_score data (lit "mood_score");
        let mood_reason := slice_to (py_str (dict_get data (lit "mood_reason") (VStr []))) 50 in
        if bool_decide (tags = []) || bool_decide (active_time = [])
           || bool_decide (fun_comment = []) || bool_decide (topic_comment = [])
           || bool_decide (rank_title = []) || bool_decide (rank_desc = [])
           || bool_decide (mood_reason = []) then Ok None
        else
          Ok (Some (Profile.make tags active_time fun_score fun_comment
                      topic_leadership topic_comment rank_title rank_desc
                      mood mood_score mood_reason))
  | _ => Ok None
  end.

(** [_validate_user_profile]: any exception of the body gives [None]. *)
Definition _validate_user_profile (data : value) : result (option Profile.t) :=
  try_except (validate_user_profile_body data) (fun _ => true) (fun _ => Ok None).

(** *** Formatting a transcript *)

(** [datetime.fromtimestamp(ts)]: hour, minute and second of the local
    wall clock. *)
Definition fromtimestamp_hms (ts : value) : result (Z * Z * Z) :=
  t ← timestamp_seconds ts;
  let wall := t + utcoffset t in
  if (wall <? -62135596800) || (253402300799 <? wall) then Raise ValueError
  else Ok ((wall mod 86400) / 3600, (wall mod 3600) / 60, wall mod 60).

(** A number below 100 in two decimal digits ([%H], [%M], [%S]). *)
Definition two_digits (n : Z) : pystr := [0x30 + n / 10; 0x30 + n mod 10].

(** [strftime("%H:%M:%S")] *)
Definition strftime_HMS (hms : Z * Z * Z) : pystr :=
  let '(h, m, s) := hms in
  two_digits h ++ [0x3A] ++ two_digits m ++ [0x3A] ++ two_digits s.

(** [sep.join(parts)] *)
Fixpoint join (sep : pystr) (parts : list pystr) : pystr :=
  match parts with
  | [] => []
  | [p] => p
  | p :: rest => p ++ sep ++ join sep rest
  end.

(** The body of the loop of [format_messages] for one message: the line
    it appends, if any. *)
Definition format_message (msg : pydict) : result (option pystr) :=
  let timestamp := dict_get msg (lit "time") (VInt 0) in
  hms ← fromtimestamp_hms timestamp;
  let time_str := strftime_HMS hms in
  let nickname := dict_get msg (lit "user_nickname") (VStr UNKNOWN_USER) in
  let cardname := dict_get msg (lit "user_cardname") (VStr []) in
  let display_name := if truthy cardname then cardname else nickname in
  let text := or_empty (dict_get msg (lit "processed_plain_text") VNone) in
  if truthy text
  then Ok (Some (lit "[" ++ time_str ++ lit "] " ++ py_str display_name
                 ++ lit ": " ++ py_str text))
  else Ok None.

Fixpoint format_messages_loop (messages : list pydict) : result (list pystr) :=
  match messages with
  | [] => Ok []
  | msg :: rest =>
      r ← format_message msg;
      formatted ← format_messages_loop rest;
      Ok (match r with Some line => line :: formatted | None => formatted end)
  end.

Definition format_messages (messages : list pydict) : result pystr :=
  formatted ← format_messages_loop messages;
  Ok (join [0x0A] formatted).

End WithRuntime.
End ChatAnalysisUtils.

(** ** [SummaryScheduler] *)

Module SummaryScheduler.
Section WithRuntime.
Context {RT : PyRuntime}.

(** A wall-clock [datetime] of the configured zone: the day as a
    proleptic Gregorian ordinal ([date.toordinal]) and the time of day. *)
Record datetime : Type := mk_datetime {
  ordinal : Z;
  hour : Z;
  minute : Z;
  second : Z;
  microsecond : Z
}.

Definition valid_datetime (d : datetime) : Prop :=
  1 <= ordinal d <= 3652059 /\ 0 <= hour d <= 23 /\ 0 <= minute d <= 59
  /\ 0 <= second d <= 59 /\ 0 <= microsecond d <= 999999.

(** [d.date()] *)
Definition date (d : datetime) : Z := ordinal d.

(** The position of [d] on the microsecond line; order and difference of
    two [datetime]s of one zone are those of their positions. *)
Definition to_microseconds (d : datetime) : Z :=
  (((ordinal d * 24 + hour d) * 60 + minute d) * 60 + second d) * 1000000
  + microsecond d.

(** [now.replace(hour=h, minute=m, second=0, microsecond=0)] *)
Definition replace_time (now : datetime) (h m : Z) : result datetime :=
  if in_range 0 23 h && in_range 0 59 m
  then Ok (mk_datetime (ordinal now) h m 0 0)
  else Raise ValueError.

(** [d + timedelta(days=1)] *)
Definition add_one_day (d : datetime) : result datetime :=
  if ordinal d + 1 <=? 3652059
  then Ok (mk_datetime (ordinal d + 1) (hour d) (minute d) (second d) (microsecond d))
  else Raise OverflowError.

(** [hour, minute = map(int, s.split(":"))], with 23:00 when that raises
    [ValueError] (a part that is no integer, or not exactly two parts). *)
Definition parse_summary_time (summary_time_str : pystr) : Z * Z :=
  match split summary_time_str (lit ":") with
  | [a; b] =>
      match int_of_text a, int_of_text b with
      | Some h, Some m => (h, m)
      | _, _ => (23, 0)
      end
  | _ => (23, 0)
  end.

(** The fire instant for the parsed time, and the wait until it in
    microseconds ([wait_seconds] is this number over one million). *)
Definition next_fire_at (now : datetime) (h m : Z) : result (datetime * Z) :=
  today_schedule ← replace_time now h m;
  today_schedule ←
    (if to_microseconds today_schedule <=? to_microseconds now
     then add_one_day today_schedule
     else Ok today_schedule);
  Ok (today_schedule, to_microseconds today_schedule - to_microseconds now).

Definition next_fire (now : datetime) (summary_time_str : pystr)
  : result (datetime * Z) :=
  let '(h, m) := parse_summary_time summary_time_str in
  next_fire_at now h m.

(** The fields of the scheduler that the loop reads and writes. *)
Record scheduler : Type := mk_scheduler {
  is_running : bool;
  last_execution_date : option Z
}.

(** [__init__] followed by a successful [start]. *)
Definition started : scheduler := mk_scheduler true None.

(** How awaiting [summary_generator()] ends. *)
Inductive job_outcome : Set :=
| JobReturns
| JobRaises
| JobCancelled.

(** What one pass through the loop body observes of its surroundings. *)
Record cycle_env : Type := mk_env {
  now_start : datetime;         (* the first [_get_timezone_now()] *)
  summary_time_str : pystr;     (* [get_config("auto_summary.time", "23:00")] *)
  sleep_cancelled : bool;       (* the task is cancelled during the sleep *)
  running_after_sleep : bool;   (* [self.is_running] once the sleep returns *)
  now_wake : datetime;          (* the second [_get_timezone_now()] *)
  job : job_outcome;
  backoff_cancelled : bool      (* the task is cancelled during the 60 s sleep *)
}.

(** What one pass does that is visible from outside. *)
Inductive event : Set :=
| Sleep (microseconds : Z)      (* [await asyncio.sleep(wait_seconds)] *)
| Invoke (d : Z)                (* [await summary_generator()] is entered on date [d] *)
| Completed (d : Z)             (* it returned, and [d] became the last-fired date *)
| Backoff.                      (* [await asyncio.sleep(60)] after an error *)

(** One pass through the body of [while self.is_running]: the new state,
    the events, and whether the loop goes on ([false]: [break], or the
    cancellation leaves the coroutine). *)
Definition cycle (s : scheduler) (env : cycle_env) : scheduler * list event * bool :=
  match next_fire (now_start env) (summary_time_str env) with
  | Raise _ =>
      (s, [Backoff], negb (backoff_cancelled env))
  | Ok (_, wait) =>
      if sleep_cancelled env then (s, [Sleep wait], false)
      else
        let s := mk_scheduler (running_after_sleep env) (last_execution_date s) in
        if negb (is_running s) then (s, [Sleep wait], false)
        else
          let current_date := date (now_wake env) in
          if bool_decide (last_execution_date s = Some current_date)
          then (s, [Sleep wait], true)
          else
            match job env with
            | JobReturns =>
                (mk_scheduler (is_running s) (Some current_date),
                 [Sleep wait; Invoke current_date; Completed current_date], true)
            | JobCancelled =>
                (s, [Sleep wait; Invoke current_date], false)
            | JobRaises =>
                (s, [Sleep wait; Invoke current_date; Backoff],
                 negb (backoff_cancelled env))
            end
  end.

(** [_schedule_loop] along a sequence of observations. *)
Fixpoint _schedule_loop (s : scheduler) (envs : list cycle_env)
  : scheduler * list event :=
  match envs with
  | [] => (s, [])
  | env :: rest =>
      if is_running s then
        let '(s', evs, continue) := cycle s env in
        if continue then
          let '(s'', evs') := _schedule_loop s' rest in (s'', evs ++ evs')
        else (s', evs)
      else (s, [])
  end.

(** [start], given what [get_config] answers for [plugin.enabled] and
    [auto_summary.enabled]: nothing when already running or when either
    switch is off; otherwise the scheduler is marked running and a task
    running [_schedule_loop] is created ([true]). *)
Definition start (s : scheduler) (enabled auto_summary_enabled : value)
  : scheduler * bool :=
  if is_running s then (s, false)
  else if negb (truthy enabled) || negb (truthy auto_summary_enabled)
  then (s, false)
  else (mk_scheduler true (last_execution_date s), true).

(** [stop]: nothing when not running; otherwise the flag is cleared (and
    the task cancelled, which the loop observes at its next wait). *)
Definition stop (s : scheduler) : scheduler :=
  if negb (is_running s) then s
  else mk_scheduler false (last_execution_date s).

End WithRuntime.
End SummaryScheduler.

(** ** [SummaryImageGenerator]: the entries of the ranking module *)

Module SummaryImageGenerator.
Section WithRuntime.
Context {RT : PyRuntime}.

(** The [position] of a displayed entry: the integer [i], or the text
    [f"fall {k}"]. *)
Inductive position : Set :=
| Place (i : Z)
| Fall (k : Z).

Record ranking : Type := mk_ranking {
  name : value;
  rank : value;
  comment : value;
  pos : position
}.

Definition ranking_of (entry : pydict) (p : position) : ranking :=
  mk_ranking (dict_get entry (lit "name") (VStr []))
             (dict_get entry (lit "rank") (VStr []))
             (dict_get entry (lit "comment") (VStr []))
             p.

(** [enumerate(l, i)] *)
Fixpoint enumerate {A} (l : list A) (i : Z) : list (Z * A) :=
  match l with
  | [] => []
  | x :: l' => (i, x) :: enumerate l' (i + 1)
  end.

(** [l[:n]] and [l[n:]], for a bound [n] of either sign. *)
Definition list_to {A} (l : list A) (n : Z) : list A :=
  if 0 <=? n then take (Z.to_nat n) l
  else take (Z.to_nat (Z.of_nat (length l) + n)) l.

Definition list_from {A} (l : list A) (n : Z) : list A :=
  if 0 <=? n then drop (Z.to_nat n) l
  else drop (Z.to_nat (Z.of_nat (length l) + n)) l.

(** The list [depression_rankings] that [generate_summary_image] hands to
    the template of the ranking module. *)
Definition depression_rankings (depression_index : list pydict)
    (max_depression_display : Z) (depression_show_bottom : bool)
  : list ranking :=
  if bool_decide (length depression_index = 0%nat) then []
  else
    let total_count := Z.of_nat (length depression_index) in
    if total_count <=? max_depression_display then
      map (fun '(i, entry) => ranking_of entry (Place i))
          (enumerate depression_index 1)
    else if depression_show_bottom then
      let top_count := (max_depression_display + 1) / 2 in
      let bottom_count := max_depression_display - top_count in
      let bottom_entries := list_from depression_index (- bottom_count) in
      map (fun '(i, entry) => ranking_of entry (Place i))
          (enumerate (list_to depression_index top_count) 1)
      ++ map (fun '(i, entry) => ranking_of entry (Fall (bottom_count - i + 1)))
             (enumerate bottom_entries 1)
    else
      map (fun '(i, entry) => ranking_of entry (Place i))
          (enumerate (list_to depression_index max_depression_display) 1).

End WithRuntime.
End SummaryImageGenerator.

(** ** A runtime to run the model on examples

    It follows CPython on ASCII text: case mapping and digits are those of
    ASCII, and [repr] writes floats by their integer part; [json_loads]
    is a reader of JSON as [json.loads] accepts it. The theorems below do
    not depend on it. *)

Module Reference.

Definition upper (s : pystr) : pystr :=
  map (fun c => if in_range 0x61 0x7A c then c - 32 else c) s.

Definition is_digit (c : Z) : bool := in_range 0x30 0x39 c.

(** Digits, with single underscores allowed between them. [prev] says
    that the previous character was a digit. *)
Fixpoint digits_value (s : pystr) (acc : Z) (prev : bool) : option Z :=
  match s with
  | [] => if prev then Some acc else None
  | c :: s' =>
      if is_digit c then digits_value s' (acc * 10 + (c - 0x30)) true
      else if (c =? 0x5F) && prev then
        match s' with
        | d :: _ => if is_digit d then digits_value s' acc false else None
        | [] => None
        end
      else None
  end.

Definition parse_int (s : pystr) : option Z :=
  match strip s with
  | [] => None
  | c :: s' =>
      if c =? 0x2D then Z.opp <$> digits_value s' 0 false
      else if c =? 0x2B then digits_value s' 0 false
      else digits_value (c :: s') 0 false
  end.

Definition decimal (n : Z) : pystr := lit (NilZero.string_of_int (Z.to_int n)).

Definition join_with (sep : pystr) (parts : list pystr) : pystr :=
  match parts with
  | [] => []
  | p :: ps => p ++ concat (map (fun q => sep ++ q) ps)
  end.

Fixpoint repr (v : value) : pystr :=
  match v with
  | VNone => lit "None"
  | VBool true => lit "True"
  | VBool false => lit "False"
  | VInt n => decimal n
  | VFloat FNan => lit "nan"
  | VFloat (FInf true) => lit "-inf"
  | VFloat (FInf false) => lit "inf"
  | VFloat (FFin m e) => decimal (float_trunc m e) ++ lit ".0"
  | VStr s => lit "'" ++ s ++ lit "'"
  | VList l => lit "[" ++ join_with (lit ", ") (map repr l) ++ lit "]"
  | VDict d =>
      lit "{"
      ++ join_with (lit ", ")
           (map (fun kv => lit "'" ++ fst kv ++ lit "': " ++ repr (snd kv)) d)
      ++ lit "}"
  end.

(** *** Reading JSON *)

Definition is_json_ws (c : Z) : bool :=
  (c =? 0x20) || (c =? 0x09) || (c =? 0x0A) || (c =? 0x0D).

Fixpoint skip_ws (s : pystr) : pystr :=
  match s with
  | c :: s' => if is_json_ws c then skip_ws s' else s
  | [] => []
  end.

(** A run of ASCII digits: its value, its length, and the rest. *)
Fixpoint take_digits (s : pystr) (acc : Z) (n : Z) : Z * Z * pystr :=
  match s with
  | c :: s' => if is_digit c then take_digits s' (acc * 10 + (c - 0x30)) (n + 1)
               else (acc, n, s)
  | [] => (acc, n, [])
  end.

(** The binary64 nearest to [p / q] (ties to even), for [0 <= p], [0 < q]. *)
Definition b64_of_ratio (negative : bool) (p q : Z) : pyfloat :=
  if p =? 0 then FFin 0 0
  else
    let d := Z.log2 p - Z.log2 q in
    let k := if q * 2 ^ Z.max 0 d <=? p * 2 ^ Z.max 0 (- d) then d else d - 1 in
    let e := Z.max (k - 52) (-1074) in
    let m := ChatAnalysisUtils.round_half_even
               (p * 2 ^ Z.max 0 (- e)) (q * 2 ^ Z.max 0 e) in
    if (971 <? e) || ((e =? 971) && (m =? 2 ^ 53)) then FInf negative
    else FFin (if negative then - m else m) e.

(** A number at the head of [s]: an integer part, then an optional
    fraction and an optional exponent, each taken only when complete. *)
Definition scan_number (s : pystr) : option (value * pystr) :=
  let '(negative, s1) :=
    match s with
    | c :: t => if c =? 0x2D then (true, t) else (false, s)
    | [] => (false, s)
    end in
  let int_part :=
    match s1 with
    | c :: t =>
        if c =? 0x30 then Some (0, t)
        else if in_range 0x31 0x39 c then
          let '(v, _, rest) := take_digits s1 0 0 in Some (v, rest)
        else None
    | [] => None
    end in
  match int_part with
  | None => None
  | Some (ip, rest) =>
      let '(has_frac, mant, nfrac, rest) :=
        match rest with
        | dot :: d :: _ =>
            if (dot =? 0x2E) && is_digit d then
              let '(v, n, r) := take_digits (tail rest) ip 0 in (true, v, n, r)
            else (false, ip, 0, rest)
        | _ => (false, ip, 0, rest)
        end in
      let '(has_exp, ex, rest) :=
        match rest with
        | e :: t =>
            if (e =? 0x65) || (e =? 0x45) then
              let '(eneg, t') :=
                match t with
                | sg :: t1 =>
                    if sg =? 0x2D then (true, t1)
                    else if sg =? 0x2B then (false, t1) else (false, t)
                | [] => (false, t)
                end in
              let '(v, n, r) := take_digits t' 0 0 in
              if 0 <? n then (true, if eneg then - v else v, r) else (false, 0, rest)
            else (false, 0, rest)
        | [] => (false, 0, rest)
        end in
      if has_frac || has_exp then
        let e10 := ex - nfrac in
        Some (VFloat (b64_of_ratio negative (mant * 10 ^ Z.max 0 e10) (10 ^ Z.max 0 (- e10))),
              rest)
      else Some (VInt (if negative then - ip else ip), rest)
  end.

Definition hex_digit (c : Z) : option Z :=
  if in_range 0x30 0x39 c then Some (c - 0x30)
  else if in_range 0x61 0x66 c then Some (c - 0x61 + 10)
  else if in_range 0x41 0x46 c then Some (c - 0x41 + 10)
  else None.

Definition hex4 (a b c d : Z) : option Z :=
  a ← hex_digit a; b ← hex_digit b; c ← hex_digit c; d ← hex_digit d;
  Some (((a * 16 + b) * 16 + c) * 16 + d).

Definition simple_escape (c : Z) : option Z :=
  if c =? 0x22 then Some 0x22
  else if c =? 0x5C then Some 0x5C
  else if c =? 0x2F then Some 0x2F
  else if c =? 0x62 then Some 0x08
  else if c =? 0x66 then Some 0x0C
  else if c =? 0x6E then Some 0x0A
  else if c =? 0x72 then Some 0x0D
  else if c =? 0x74 then Some 0x09
  else None.

(** The text of a string literal, read from just after its opening quote
    (strict mode: raw control characters are refused). *)
Fixpoint scan_string (s acc : pystr) : option (pystr * pystr) :=
  match s with
  | [] => None
  | c :: t =>
      if c =? 0x22 then Some (rev acc, t)
      else if c =? 0x5C then
        match t with
        | [] => None
        | e :: t1 =>
            if e =? 0x75 then
              match t1 with
              | h1 :: h2 :: h3 :: h4 :: t2 =>
                  match hex4 h1 h2 h3 h4 with
                  | None => None
                  | Some u =>
                      match t2 with
                      | b :: u' :: l1 :: l2 :: l3 :: l4 :: t3 =>
                          if in_range 0xD800 0xDBFF u && (b =? 0x5C) && (u' =? 0x75) then
                            match hex4 l1 l2 l3 l4 with
                            | None => None
                            | Some lo =>
                                if in_range 0xDC00 0xDFFF lo
                                then scan_string t3
                                       (0x10000 + (u - 0xD800) * 0x400 + (lo - 0xDC00) :: acc)
                                else scan_string t2 (u :: acc)
                            end
                          else scan_string t2 (u :: acc)
                      | _ => scan_string t2 (u :: acc)
                      end
                  end
              | _ => None
              end
            else
              match simple_escape e with
              | Some x => scan_string t1 (x :: acc)
              | None => None
              end
        end
      else if c <=? 0x1F then None
      else scan_string t (c :: acc)
  end.

Definition expect_word (w : string) (v : value) (s : pystr) : option (value * pystr) :=
  if startswith s (lit w) then Some (v, drop (String.length w) s) else None.

Definition of_option {A} (o : option A) : result A :=
  match o with Some a => Ok a | None => Raise JSONDecodeError end.

(** One value at the head of [s]. [fuel] bounds the depth of the calls. *)
Fixpoint scan_once (fuel : nat) (s : pystr) : result (value * pystr) :=
  match fuel with
  | O => Raise RecursionError
  | S fuel =>
      match s with
      | [] => Raise JSONDecodeError
      | c :: t =>
          if c =? 0x22 then
            of_option ('(str, rest) ← scan_string t []; Some (VStr str, rest))
          else if c =? 0x7B then
            match skip_ws t with
            | c' :: t' =>
                if c' =? 0x7D then Ok (VDict [], t') else scan_members fuel (c' :: t') []
            | [] => Raise JSONDecodeError
            end
          else if c =? 0x5B then
            match skip_ws t with
            | c' :: t' =>
                if c' =? 0x5D then Ok (VList [], t') else scan_items fuel (c' :: t') []
            | [] => Raise JSONDecodeError
            end
          else if c =? 0x6E then of_option (expect_word "null" VNone s)
          else if c =? 0x74 then of_option (expect_word "true" (VBool true) s)
          else if c =? 0x66 then of_option (expect_word "false" (VBool false) s)
          else if c =? 0x4E then of_option (expect_word "NaN" (VFloat FNan) s)
          else if c =? 0x49 then of_option (expect_word "Infinity" (VFloat (FInf false)) s)
          else if startswith s (lit "-Infinity")
          then Ok (VFloat (FInf true), drop 9 s)
          else of_option (scan_number s)
      end
  end
with scan_items (fuel : nat) (s : pystr) (acc : list value) : result (value * pystr) :=
  match fuel with
  | O => Raise RecursionError
  | S fuel =>
      '(v, rest) ← scan_once fuel s;
      match skip_ws rest with
      | c :: t =>
          if c =? 0x5D then Ok (VList (rev (v :: acc)), t)
          else if c =? 0x2C then scan_items fuel (skip_ws t) (v :: acc)
          else Raise JSONDecodeError
      | [] => Raise JSONDecodeError
      end
  end
with scan_members (fuel : nat) (s : pystr) (acc : pydict) : result (value * pystr) :=
  match fuel with
  | O => Raise RecursionError
  | S fuel =>
      match s with
      | q :: t =>
          if q =? 0x22 then
            '(key, rest) ← of_option (scan_string t []);
            match skip_ws rest with
            | colon :: rest =>
                if colon =? 0x3A then
                  '(v, rest) ← scan_once fuel (skip_ws rest);
                  let acc := assoc_set key v acc in
                  match skip_ws rest with
                  | c :: t =>
                      if c =? 0x7D then Ok (VDict acc, t)
                      else if c =? 0x2C then scan_members fuel (skip_ws t) acc
                      else Raise JSONDecodeError
                  | [] => Raise JSONDecodeError
                  end
                else Raise JSONDecodeError
            | [] => Raise JSONDecodeError
            end
          else Raise JSONDecodeError
      | [] => Raise JSONDecodeError
      end
  end.

Definition loads (s : pystr) : result value :=
  if startswith s [0xFEFF] then Raise JSONDecodeError
  else
    '(obj, rest) ← scan_once (2 * length s + 2) (skip_ws s);
    match skip_ws rest with
    | [] => Ok obj
    | _ => Raise JSONDecodeError
    end.

#[export] Instance runtime : PyRuntime := {|
  py_upper := upper;
  py_repr := repr;
  int_of_text := parse_int;
  re_digit := is_digit;
  utcoffset := fun _ => 28800;
  json_loads := loads
|}.

(** Bounds for the examples. *)
#[export] Instance config : AnalysisConfig := {|
  MAX_TITLE_LENGTH := 10;
  MAX_REASON_LENGTH := 50
|}.

End Reference.

(** * Notions used to state the properties *)

Import ChatAnalysisUtils.

(** ** Statistics *)

Section StatsDefs.
Context {RT : PyRuntime} {CFG : AnalysisConfig}.
Import ChatAnalysisUtils.

(** A message is counted when the text of its [user_id] is not empty. *)
Definition has_user_id (msg : pydict) : bool :=
  negb (bool_decide (msg_user_id msg = [])).

(** The text of a message: [msg.get("processed_plain_text")], or the
    empty text when that is absent, [None] or empty. *)
Definition msg_text (msg : pydict) : pystr :=
  match or_empty (dict_get msg (lit "processed_plain_text") VNone) with
  | VStr s => s
  | _ => []
  end.

(** [filter_user_messages(messages, user_id)] *)
Definition filter_user_messages (messages : list pydict) (user_id : pystr)
  : list pydict :=
  filter (fun msg => msg_user_id msg = user_id) messages.

(** [sum(stats["message_count"] for stats in user_stats.values())] *)
Definition total_message_count (user_stats : list (pystr * UserStats.t)) : nat :=
  sum_list (map (fun kv => UserStats.message_count (snd kv)) user_stats).

(** [sum(stats["hours"][h] for h in range(24))] *)
Definition hourly_total (stats : UserStats.t) : nat :=
  sum_list (map (counter_get (UserStats.hours stats)) (seqZ 0 24)).

(** What one message adds to the entry of [user_id]. *)
Definition stats_after (stats : UserStats.t) (text : pystr) (hour : Z) : UserStats.t :=
  UserStats.make
    (UserStats.user_id stats) (UserStats.nickname stats)
    (UserStats.message_count stats + 1)
    (UserStats.char_count stats + length text)
    (UserStats.emoji_count stats + count_emojis text)
    (counter_incr (UserStats.hours stats) hour).

(** What the entries of a mapping built by the loop satisfy. *)
Definition entry_ok (kv : pystr * UserStats.t) : Prop :=
  hourly_total (snd kv) = UserStats.message_count (snd kv)
  /\ (forall h, ~ 0 <= h < 24 -> counter_get (UserStats.hours (snd kv)) h = 0%nat).

(** The number of maximal runs of class characters in [text]: the
    positions that hold a class character and do not follow one.
    [prev] says that the character just before [text] is of the class. *)
Fixpoint emoji_runs (prev : bool) (text : pystr) : nat :=
  match text with
  | [] => 0
  | c :: text' =>
      ((if EMOJI_CLASS c && negb prev then 1 else 0)
       + emoji_runs (EMOJI_CLASS c) text')%nat
  end.

(** [sum(count_emojis(text) for text in texts of messages)] *)
Definition emoji_sum (messages : list pydict) : nat :=
  sum_list (map (fun msg => count_emojis (msg_text msg)) messages).

Definition emoji_count_of (user_stats : list (pystr * UserStats.t)) (user_id : pystr)
  : nat :=
  match assoc_get user_id user_stats with
  | Some stats => UserStats.emoji_count stats
  | None => 0
  end.

End StatsDefs.


(** ** Order of a sorted list *)

(** [b] may follow [a] in a list sorted by [key], descending. *)
Definition desc {A} (key : A -> Z) (a b : A) : Prop := key b <= key a.

(** ** Response recovery, as the specification words it *)

Section RecoveryDefs.
Context {RT : PyRuntime}.

(** The text of the direct attempt: fence removed, then the span from the
    first opening bracket to the last closing one. *)
Definition sliced_text (open close : Z) (raw : pystr) : pystr :=
  extract_span open close (strip_fence raw).


(** The outcome of a parse under the type checks of each kind. *)
Definition checked_list (parsed : result value) : list value :=
  match parsed with Ok data => accept_list data | Raise _ => [] end.

Definition checked_dict (parsed : result value) : option pydict :=
  match parsed with Ok data => accept_dict data | Raise _ => None end.

End RecoveryDefs.

(** ** Runs of the scheduler *)

Section SchedulerDefs.
Context {RT : PyRuntime}.
Import SummaryScheduler.

(** The date read again on waking. *)
Definition wake_date (env : cycle_env) : Z := date (now_wake env).

(** The dates read on waking never go back. *)
Definition chronological (envs : list cycle_env) : Prop :=
  StronglySorted Z.le (map wake_date envs).

(** No date is fired again once the job has completed on it. *)
Fixpoint no_refire (evs : list event) : Prop :=
  match evs with
  | [] => True
  | Completed d :: rest => (Invoke d ∉ rest) /\ no_refire rest
  | _ :: rest => no_refire rest
  end.

(** The last-fired date, if any, is not after any of the waking dates. *)
Definition not_after (s : scheduler) (envs : list cycle_env) : Prop :=
  forall last, last_execution_date s = Some last ->
    Forall (fun env => last <= wake_date env) envs.

End SchedulerDefs.

(** ** Bounds of the validated records *)

Section BoundsDefs.
Context {RT : PyRuntime} {CFG : AnalysisConfig}.

(** A text of at least [lo] and at most [hi] characters. *)
Definition sized (lo hi : nat) (s : pystr) : Prop := (lo <= length s <= hi)%nat.

Definition topic_ok (t : Topic.t) : Prop :=
  sized 1 30 (Topic.topic t)
  /\ sized 1 200 (Topic.detail t)
  /\ (1 <= length (Topic.contributors t) <= 5)%nat
  /\ Forall (sized 1 20) (Topic.contributors t).

Definition quote_ok (q : Quote.t) : Prop :=
  sized 1 200 (Quote.content q)
  /\ strip (Quote.content q) = Quote.content q
  /\ sized 1 50 (Quote.sender q)
  /\ sized 1 (Z.to_nat MAX_REASON_LENGTH) (Quote.reason q).

Definition title_ok (p : TitledProfile.t) : Prop :=
  sized 1 50 (TitledProfile.name p)
  /\ sized 1 (Z.to_nat MAX_TITLE_LENGTH) (TitledProfile.title p)
  /\ TitledProfile.mbti p ∈ valid_mbti_types
  /\ sized 1 (Z.to_nat MAX_REASON_LENGTH) (TitledProfile.reason p).

Definition rank_entry_ok (e : RankEntry.t) : Prop :=
  sized 1 50 (RankEntry.name e)
  /\ RankEntry.rank e ∈ VALID_RANKS
  /\ 0 <= RankEntry.score e <= 150
  /\ sized 1 60 (RankEntry.comment e).

Definition profile_ok (p : Profile.t) : Prop :=
  (1 <= length (Profile.tags p) <= 3)%nat
  /\ Forall (sized 3 18) (Profile.tags p)
  /\ sized 1 30 (Profile.active_time p)
  /\ 0 <= Profile.fun_score p <= 100
  /\ sized 1 60 (Profile.fun_comment p)
  /\ 0 <= Profile.topic_leadership p <= 100
  /\ sized 1 60 (Profile.topic_comment p)
  /\ sized 1 30 (Profile.rank_title p)
  /\ sized 1 70 (Profile.rank_desc p)
  /\ Profile.mood p ∈ [MOOD_POSITIVE; MOOD_NEUTRAL; MOOD_NEGATIVE]
  /\ 0 <= Profile.mood_score p <= 100
  /\ sized 1 50 (Profile.mood_reason p).

(** The required keys of a profile. *)
Definition PROFILE_KEYS : list pystr :=
  [lit "tags"; lit "active_time"; lit "fun_score"; lit "fun_comment";
   lit "topic_leadership"; lit "topic_comment"; lit "rank_title";
   lit "rank_desc"; lit "mood"; lit "mood_score"; lit "mood_reason"].

End BoundsDefs.

(** ** The user id attached to a record *)

Section BackfillDefs.

(** No entry of [items] carries the nickname [name]. *)
Definition no_nickname (items : list (pystr * UserStats.t)) (name : pystr) : Prop :=
  Forall (fun kv => UserStats.nickname kv.2 ≠ VStr name) items.

(** [uid] is the key of the first entry of [items] whose nickname is [name]. *)
Definition first_with_nickname (items : list (pystr * UserStats.t))
    (name uid : pystr) : Prop :=
  exists before stats after,
    items = before ++ (uid, stats) :: after
    /\ UserStats.nickname stats = VStr name
    /\ no_nickname before name.

(** What the search of the validators attaches to a record called [name]. *)
Definition backfilled (user_stats : option (list (pystr * UserStats.t)))
    (name uid : pystr) : Prop :=
  match user_stats with
  | Some items =>
      first_with_nickname items name uid \/ (no_nickname items name /\ uid = [])
  | None => uid = []
  end.

End BackfillDefs.

(** ** Per-user statistics *)

Section PerUserDefs.
Context {RT : PyRuntime} {CFG : AnalysisConfig}.

(** The elements of a list in the order of their first occurrence. *)
Fixpoint first_seen (ids : list pystr) : list pystr :=
  match ids with
  | [] => []
  | k :: rest => k :: filter (fun k' => k' ≠ k) (first_seen rest)
  end.

(** The user ids of the counted messages, in the order of the messages. *)
Definition counted_ids (messages : list pydict) : list pystr :=
  filter (fun k => k ≠ []) (map msg_user_id messages).

(** [sum(len(text) for the texts of messages)] *)
Definition char_sum (messages : list pydict) : nat :=
  sum_list (map (fun msg => length (msg_text msg)) messages).

(** [msg.get("user_nickname", <unknown user>)] *)
Definition msg_nickname (msg : pydict) : value :=
  dict_get msg (lit "user_nickname") (VStr UNKNOWN_USER).

(** The four counters of the entry of [user_id], zero without entry. *)
Definition entry_counters (user_stats : list (pystr * UserStats.t)) (user_id : pystr)
  : nat * nat * nat * gmap Z nat :=
  match assoc_get user_id user_stats with
  | Some st =>
      (UserStats.message_count st, UserStats.char_count st,
       UserStats.emoji_count st, UserStats.hours st)
  | None => (0%nat, 0%nat, 0%nat, ∅)
  end.

End PerUserDefs.

(** ** Fences *)

(** The Markdown fence, three backticks (U+0060). *)
Definition FENCE : pystr := [96; 96; 96].

(** ** Runs of the scheduler, continued *)

Section SchedulerRunDefs.
Context {RT : PyRuntime}.
Import SummaryScheduler.

(** The configured time names an hour and a minute of the day. *)
Definition time_in_range (time_str : pystr) : Prop :=
  0 <= (parse_summary_time time_str).1 <= 23
  /\ 0 <= (parse_summary_time time_str).2 <= 59.

(** The date of the last completion among [evs], [last] when there is none. *)
Fixpoint last_completed (last : option Z) (evs : list event) : option Z :=
  match evs with
  | [] => last
  | Completed d :: rest => last_completed (Some d) rest
  | _ :: rest => last_completed last rest
  end.

End SchedulerRunDefs.

(** ** Concrete inputs, run on the reference runtime *)

Module Examples.
Import Reference SummaryScheduler.


Definition text (s : string) : value := VStr (lit s).

Definition ranked (name rank : string) (rest : pydict) : value :=
  VDict ([(lit "name", text name); (lit "rank", text rank);
          (lit "comment", text "fine")] ++ rest).

(** Rank S, no score. *)
Definition ann_item : pydict :=
  [(lit "name", text "Ann"); (lit "rank", text "S"); (lit "comment", text "fine")].

(** Rank S, a score that is no number. *)
Definition bea_item : pydict :=
  [(lit "name", text "Bea"); (lit "rank", text " s "); (lit "comment", text "fine");
   (lit "score", text "high")].

(** A rank outside S, A, B, C, D. *)
Definition xav_item : pydict :=
  [(lit "name", text "Xav"); (lit "rank", text "X"); (lit "comment", text "fine");
   (lit "score", VInt 150)].

Definition batch : list value :=
  [ ranked "Cy" "B" [(lit "score", VInt 80)];
    ranked "Di" "A" [(lit "score", VInt 120)];
    ranked "Ed" "C" [(lit "score", VInt 80)];
    ranked "Flo" "A" [(lit "score", VInt 500)] ].

(** A profile whose tag is none of the sixteen codes. *)
Definition odd_profile : pydict :=
  [(lit "name", text "Ann"); (lit "title", text "Night owl");
   (lit "mbti", text "xyz1"); (lit "reason", text "posts after midnight")].

Definition good_profile : value :=
  VDict [(lit "name", text "Bea"); (lit "title", text "Punster");
         (lit "mbti", text "intj"); (lit "reason", text "puns")].

Definition message (user_id : value) (body : pystr) (time : Z) : pydict :=
  [(lit "user_id", user_id); (lit "user_nickname", text "nick");
   (lit "processed_plain_text", VStr body); (lit "time", VInt time)].

(** Two messages of user 7, one of them with two separate emoji, and one
    message without user. *)
Definition transcript : list pydict :=
  [ message (VInt 7) [0x1F600; 0x1F601; 0x68; 0x69; 0x1F602] 3600;
    message (VStr []) (lit "nobody") 7200;
    message (VInt 7) (lit "plain") 90000 ].



Definition at_time (day h m : Z) : datetime := mk_datetime day h m 0 0.

(** A pass that starts at 22:00 of [day], sleeps, wakes on [day] again
    and runs the job to its end. *)
Definition pass_on (day : Z) : cycle_env :=
  mk_env (at_time day 22 0) (lit "23:00") false true (at_time day 23 0)
    JobReturns false.

End Examples.

(** ** Further concrete inputs *)

Module MoreExamples.
Import Reference Examples SummaryScheduler SummaryImageGenerator.

Definition lunch_item : value :=
  VDict [(lit "topic", text "Lunch");
         (lit "contributors", VList [text "Ann"; text " "; text "Bea"]);
         (lit "detail", text "where to eat")].

Definition lunch_topic : Topic.t :=
  Topic.make (lit "Lunch") [lit "Ann"; lit "Bea"] (lit "where to eat").

Definition quote_item : value :=
  VDict [(lit "content", text "@bob<42> hi there ");
         (lit "sender", text "Ann"); (lit "reason", text "short and sweet")].

Definition profile_with (fun_score : value) : pydict :=
  [(lit "tags", VList [text "night owl"; text "ok"; text "punster"]);
   (lit "active_time", text "after midnight");
   (lit "fun_score", fun_score); (lit "fun_comment", text "plenty of puns");
   (lit "topic_leadership", VInt 250); (lit "topic_comment", text "starts threads");
   (lit "rank_title", text "Captain"); (lit "rank_desc", text "always around");
   (lit "mood", text "sunny"); (lit "mood_score", VInt 70);
   (lit "mood_reason", text "cheerful replies")].

(** A message without text, at a time that converts. *)
Definition silent : pydict :=
  [(lit "user_id", VInt 7); (lit "user_nickname", text "nick");
   (lit "processed_plain_text", VStr []); (lit "time", VInt 60)].

Definition hello : pydict := message (VInt 7) (lit "hello") 3600.
Definition bye : pydict := message (VInt 8) (lit "bye") 3661.

(** A reply in a fence, with a tag, a blank before and prose after. *)
Definition fenced_inner : pystr := [0x0A] ++ lit "[{}]" ++ [0x0A].

Definition fenced_reply : pystr :=
  lit " " ++ FENCE ++ lit "json" ++ fenced_inner ++ FENCE ++ lit " hope it helps".

(** A pass whose configured time is 24:00. *)
Definition pass_at_24 (day : Z) : cycle_env :=
  mk_env (at_time day 22 0) (lit "24:00") false true (at_time day 23 0)
    JobReturns false.

Definition rank_row (n : string) : pydict :=
  [(lit "name", text n); (lit "rank", text "B"); (lit "comment", text "fine")].

Definition four_rows : list pydict :=
  [rank_row "Ann"; rank_row "Bea"; rank_row "Cy"; rank_row "Di"].

End MoreExamples.

(** * Properties *)

Import ChatAnalysisUtils.

(** ** Association lists *)

Section AssocFacts.
Context {V : Type}.
Implicit Types (d : list (pystr * V)) (k : pystr) (v : V).

Lemma assoc_get_set_eq d k v : assoc_get k (assoc_set k v d) = Some v.
Proof.
  induction d as [|[k' v'] d IH]; simpl.
  - by rewrite decide_True.
  - destruct (decide (k' = k)) as [->|Hne]; simpl.
    + by rewrite decide_True.
    + by rewrite decide_False.
Qed.

Lemma assoc_get_set_ne d k k' v :
  k ≠ k' -> assoc_get k' (assoc_set k v d) = assoc_get k' d.
Proof.
  intros Hne. induction d as [|[k0 v0] d IH]; simpl.
  - by rewrite decide_False.
  - destruct (decide (k0 = k)) as [->|Hne0]; simpl.
    + by rewrite !decide_False.
    + destruct (decide (k0 = k')); [done | apply IH].
Qed.

Lemma assoc_get_elem d k v : assoc_get k d = Some v -> (k, v) ∈ d.
Proof.
  induction d as [|[k' v'] d IH]; simpl; [done|].
  destruct (decide (k' = k)) as [->|Hne].
  - intros [= ->]. apply list_elem_of_here.
  - intros H. apply list_elem_of_further, IH, H.
Qed.

(** Writing a key changes a sum over the values by the difference between
    the new value and the one it replaces. *)
Lemma assoc_set_sum (f : V -> nat) d k v :
  (sum_list (map (fun kv => f (snd kv)) (assoc_set k v d))
   + match assoc_get k d with Some old => f old | None => 0 end
   = sum_list (map (fun kv => f (snd kv)) d) + f v)%nat.
Proof.
  induction d as [|[k' v'] d IH]; simpl; [lia|].
  destruct (decide (k' = k)) as [->|Hne]; simpl; lia.
Qed.

(** Every entry of the written mapping is the new one or an old one. *)
Lemma assoc_set_elem d k v kv :
  kv ∈ assoc_set k v d -> kv = (k, v) \/ kv ∈ d.
Proof.
  induction d as [|[k' v'] d IH]; simpl.
  - intros ->%list_elem_of_singleton. by left.
  - destruct (decide (k' = k)) as [->|Hne].
    + intros [->|H]%elem_of_cons; [by left | right; by apply list_elem_of_further].
    + intros [->|H]%elem_of_cons; [right; apply list_elem_of_here|].
      destruct (IH H) as [->|H']; [by left | right; by apply list_elem_of_further].
Qed.

End AssocFacts.

(** ** Statistics *)

Section StatsFacts.
Context {RT : PyRuntime} {CFG : AnalysisConfig}.
Import ChatAnalysisUtils.

Lemma counter_get_incr c h k :
  counter_get (counter_incr c h) k
  = if decide (h = k) then S (counter_get c h) else counter_get c k.
Proof.
  unfold counter_incr, counter_get at 1.
  rewrite lookup_insert. by destruct (decide (h = k)).
Qed.

Lemma counter_incr_sum c h (l : list Z) :
  NoDup l ->
  sum_list (map (counter_get (counter_incr c h)) l)
  = (sum_list (map (counter_get c) l) + if decide (h ∈ l) then 1 else 0)%nat.
Proof.
  induction 1 as [|x l Hx Hnd IH]; simpl; [done|].
  rewrite IH, counter_get_incr.
  destruct (decide (h = x)) as [->|Hne].
  - rewrite (decide_True (P := x ∈ x :: l)) by apply list_elem_of_here.
    rewrite decide_False by done. lia.
  - destruct (decide (h ∈ l)) as [Hin|Hnin].
    + rewrite decide_True by (by apply list_elem_of_further). lia.
    + rewrite decide_False; [lia|]. rewrite elem_of_cons. tauto.
Qed.

Lemma fromtimestamp_hour_range ts hour :
  fromtimestamp_hour ts = Ok hour -> 0 <= hour < 24.
Proof.
  unfold fromtimestamp_hour.
  destruct (timestamp_seconds ts) as [t|e]; simpl; [|done].
  destruct (_ || _); [done|]. intros [= <-].
  pose proof (Z.mod_pos_bound (t + utcoffset t) 86400 ltac:(lia)).
  split; [apply Z.div_pos; lia | apply Z.div_lt_upper_bound; lia].
Qed.

(** The two ways a step ends well: the message is skipped, or it is
    added to the entry of its user. *)
Lemma analyze_user_stats_step_ok acc msg acc' :
  analyze_user_stats_step acc msg = Ok acc' ->
  (has_user_id msg = false /\ acc' = acc)
  \/ (has_user_id msg = true /\
      exists hour,
        fromtimestamp_hour (dict_get msg (lit "time") (VInt 0)) = Ok hour /\
        acc' = assoc_set (msg_user_id msg)
                 (stats_after
                    (default
                       (UserStats.make (msg_user_id msg)
                          (dict_get msg (lit "user_nickname") (VStr UNKNOWN_USER))
                          0 0 0 ∅)
                       (assoc_get (msg_user_id msg) acc))
                    (msg_text msg) hour)
                 acc).
Proof.
  unfold analyze_user_stats_step, has_user_id.
  case_bool_decide as Hu; simpl.
  - intros [= <-]. by left.
  - intros H. right. split; [done|].
    unfold msg_text.
    destruct (or_empty _) as [| | | |text| |]; simpl in H; try done.
    destruct (fromtimestamp_hour _) as [hour|e]; simpl in H; [|done].
    exists hour. split; [done|]. injection H as <-.
    by destruct (assoc_get (msg_user_id msg) acc).
Qed.

(** When a step raises, it is the text or the time of a counted message. *)
Lemma analyze_user_stats_step_raise acc msg e :
  analyze_user_stats_step acc msg = Raise e ->
  has_user_id msg = true /\
  (as_text (or_empty (dict_get msg (lit "processed_plain_text") VNone)) = Raise e
   \/ fromtimestamp_hour (dict_get msg (lit "time") (VInt 0)) = Raise e).
Proof.
  unfold analyze_user_stats_step, has_user_id.
  case_bool_decide as Hu; simpl; [done|].
  intros H. split; [done|].
  destruct (as_text _) as [text|e']; simpl in H; [|left; congruence].
  destruct (fromtimestamp_hour _) as [hour|e']; simpl in H; [done|right; congruence].
Qed.

Lemma stats_after_ok k stats text hour :
  0 <= hour < 24 -> entry_ok (k, stats) -> entry_ok (k, stats_after stats text hour).
Proof.
  intros Hh [Hsum Hout].
  unfold entry_ok, hourly_total, stats_after in *.
  cbn [snd UserStats.hours UserStats.message_count] in *. split.
  - rewrite counter_incr_sum by apply NoDup_seqZ.
    rewrite decide_True by (apply elem_of_seqZ; lia). lia.
  - intros h Hh'. rewrite counter_get_incr.
    rewrite decide_False by lia. by apply Hout.
Qed.

Lemma fresh_entry_ok k uid nick : entry_ok (k, UserStats.make uid nick 0 0 0 ∅).
Proof. split; [done|]. intros h _. done. Qed.

Lemma analyze_user_stats_step_inv acc msg acc' :
  analyze_user_stats_step acc msg = Ok acc' ->
  Forall entry_ok acc ->
  Forall entry_ok acc'
  /\ total_message_count acc'
     = (total_message_count acc + if has_user_id msg then 1 else 0)%nat.
Proof.
  intros Hstep Hacc.
  destruct (analyze_user_stats_step_ok _ _ _ Hstep)
    as [[-> ->]|(-> & hour & Hhour & ->)].
  - split; [done | lia].
  - apply fromtimestamp_hour_range in Hhour. split.
    + apply Forall_forall. intros kv Hkv.
      apply assoc_set_elem in Hkv as [->|Hkv].
      * apply stats_after_ok; [done|].
        destruct (assoc_get _ acc) as [old|] eqn:Hold; simpl.
        -- apply assoc_get_elem in Hold.
           rewrite Forall_forall in Hacc. apply (Hacc _ Hold).
        -- apply fresh_entry_ok.
      * rewrite Forall_forall in Hacc. by apply Hacc.
    + unfold total_message_count.
      pose proof (assoc_set_sum UserStats.message_count acc (msg_user_id msg)
        (stats_after
           (default
              (UserStats.make (msg_user_id msg)
                 (dict_get msg (lit "user_nickname") (VStr UNKNOWN_USER)) 0 0 0 ∅)
              (assoc_get (msg_user_id msg) acc)) (msg_text msg) hour)) as Hsum.
      destruct (assoc_get (msg_user_id msg) acc); simpl in *; lia.
Qed.

Lemma analyze_user_stats_loop_inv messages : forall acc,
  Forall entry_ok acc ->
  match analyze_user_stats_loop acc messages with
  | Ok user_stats =>
      Forall entry_ok user_stats
      /\ total_message_count user_stats
         = (total_message_count acc + length (filter (fun m => has_user_id m = true) messages))%nat
  | Raise e =>
      exists msg, msg ∈ messages /\ has_user_id msg = true /\
        (as_text (or_empty (dict_get msg (lit "processed_plain_text") VNone)) = Raise e
         \/ fromtimestamp_hour (dict_get msg (lit "time") (VInt 0)) = Raise e)
  end.
Proof.
  induction messages as [|msg rest IH]; intros acc Hacc; simpl.
  - split; [done | lia].
  - destruct (analyze_user_stats_step acc msg) as [acc'|e] eqn:Hstep; simpl.
    + destruct (analyze_user_stats_step_inv _ _ _ Hstep Hacc) as [Hacc' Htot].
      specialize (IH acc' Hacc').
      destruct (analyze_user_stats_loop acc' rest) as [out|e].
      * destruct IH as [Hout Hsum]. split; [done|].
        rewrite Hsum, Htot. rewrite filter_cons.
        destruct (has_user_id msg); simpl; lia.
      * destruct IH as (m & Hm & H). exists m. split; [by apply list_elem_of_further | done].
    + apply analyze_user_stats_step_raise in Hstep.
      exists msg. split; [apply list_elem_of_here | done].
Qed.

(** C7. Conservation in [analyze_user_stats]: when it returns, the
    message counts of all users add up to the number of messages whose
    [user_id] is not empty, and for every user the counts of the hours
    0..23 add up to that user's message count (no other hour is counted);
    it returns unless the text or the time of a counted message is not of
    the expected type or range. *)
Theorem analyze_user_stats_conservation (messages : list pydict) :
  match analyze_user_stats messages with
  | Ok user_stats =>
      total_message_count user_stats
      = length (filter (fun msg => has_user_id msg = true) messages)
      /\ forall user_id stats,
           assoc_get user_id user_stats = Some stats ->
           hourly_total stats = UserStats.message_count stats
           /\ forall h, ~ 0 <= h < 24 -> counter_get (UserStats.hours stats) h = 0%nat
  | Raise e =>
      exists msg, msg ∈ messages /\ has_user_id msg = true /\
        (as_text (or_empty (dict_get msg (lit "processed_plain_text") VNone)) = Raise e
         \/ fromtimestamp_hour (dict_get msg (lit "time") (VInt 0)) = Raise e)
  end.
Proof.
  unfold analyze_user_stats.
  pose proof (analyze_user_stats_loop_inv messages [] ltac:(constructor)) as H.
  destruct (analyze_user_stats_loop [] messages) as [out|e]; [|done].
  destruct H as [Hall Hsum]. split; [by rewrite Hsum|].
  intros uid st Hget. apply assoc_get_elem in Hget.
  rewrite Forall_forall in Hall. apply (Hall _ Hget).
Qed.

(** *** The emoji counter *)

Lemma findall_go_length text : forall run,
  length (EMOJI_PATTERN_findall_go text run)
  = match run with
    | [] => emoji_runs false text
    | _ => S (emoji_runs true text)
    end.
Proof.
  induction text as [|c text IH]; intros run; simpl.
  - by destruct run.
  - destruct (EMOJI_CLASS c) eqn:Hc; simpl.
    + rewrite IH. destruct run; simpl; lia.
    + destruct run; simpl; rewrite IH; done.
Qed.

Lemma count_emojis_runs text : count_emojis text = emoji_runs false text.
Proof. unfold count_emojis, EMOJI_PATTERN_findall. by rewrite findall_go_length. Qed.

Lemma analyze_user_stats_step_emoji acc msg acc' uid :
  analyze_user_stats_step acc msg = Ok acc' -> uid ≠ [] ->
  emoji_count_of acc' uid
  = (emoji_count_of acc uid
     + if decide (msg_user_id msg = uid) then count_emojis (msg_text msg) else 0)%nat
  /\ (assoc_get [] acc = None -> assoc_get [] acc' = None).
Proof.
  intros Hstep Huid.
  destruct (analyze_user_stats_step_ok _ _ _ Hstep)
    as [[Hskip ->]|(Hhas & hour & _ & ->)].
  - unfold has_user_id in Hskip. apply negb_false_iff, bool_decide_eq_true in Hskip.
    rewrite decide_False by congruence. split; [lia | done].
  - unfold has_user_id in Hhas. apply negb_true_iff, bool_decide_eq_false in Hhas.
    split; [|intros Hnone; by rewrite assoc_get_set_ne].
    unfold emoji_count_of.
    destruct (decide (msg_user_id msg = uid)) as [->|Hne].
    + rewrite assoc_get_set_eq. by destruct (assoc_get uid acc).
    + rewrite assoc_get_set_ne by done. lia.
Qed.

Lemma analyze_user_stats_loop_emoji messages : forall acc out uid,
  analyze_user_stats_loop acc messages = Ok out -> uid ≠ [] ->
  emoji_count_of out uid
  = (emoji_count_of acc uid + emoji_sum (filter_user_messages messages uid))%nat
  /\ (assoc_get [] acc = None -> assoc_get [] out = None).
Proof.
  induction messages as [|msg rest IH]; intros acc out uid; simpl.
  - intros [= <-] _. split; [unfold emoji_sum; simpl; lia | done].
  - destruct (analyze_user_stats_step acc msg) as [acc'|e] eqn:Hstep; simpl; [|done].
    intros Hloop Huid.
    destruct (analyze_user_stats_step_emoji _ _ _ _ Hstep Huid) as [Hs Hn].
    destruct (IH _ _ _ Hloop Huid) as [Hl Hn'].
    split; [|auto].
    rewrite Hl, Hs. unfold filter_user_messages, emoji_sum.
    rewrite filter_cons.
    destruct (decide (msg_user_id msg = uid)); simpl; lia.
Qed.

Lemma as_text_msg_text msg text :
  as_text (or_empty (dict_get msg (lit "processed_plain_text") VNone)) = Ok text ->
  msg_text msg = text.
Proof.
  unfold msg_text. destruct (or_empty _); simpl; try done. by intros [= ->].
Qed.

Lemma analyze_single_user_stats_loop_emoji messages : forall acc out,
  analyze_single_user_stats_loop acc messages = Ok out ->
  out.1.2 = (acc.1.2 + emoji_sum messages)%nat.
Proof.
  induction messages as [|msg rest IH]; intros acc out; cbn [analyze_single_user_stats_loop].
  - intros [= <-]. unfold emoji_sum. simpl. lia.
  - destruct acc as [[[mc cc] ec] hours]. unfold analyze_single_user_stats_step.
    destruct (as_text _) as [text|e] eqn:Htext; simpl; [|done].
    destruct (fromtimestamp_hour _) as [hour|e]; simpl; [|done].
    intros Hloop. rewrite (IH _ _ Hloop). cbn [fst snd].
    unfold emoji_sum. cbn [map sum_list sum_list_with].
    rewrite (as_text_msg_text _ _ Htext). unfold id. lia.
Qed.

(** C9. [count_emojis] counts maximal runs of code points of the emoji
    class, not code points: two adjacent emoji count 1, the same two
    separated by another character count 2, and in general the count is
    the number of runs; the [emoji_count] of every user in the result of
    [analyze_user_stats], and the one of [analyze_single_user_stats], is
    the sum of this count over the messages concerned. *)
Theorem count_emojis_counts_runs :
  (forall e1 e2, EMOJI_CLASS e1 = true -> EMOJI_CLASS e2 = true ->
     count_emojis [e1; e2] = 1%nat)
  /\ (forall e1 c e2, EMOJI_CLASS e1 = true -> EMOJI_CLASS c = false ->
        EMOJI_CLASS e2 = true -> count_emojis [e1; c; e2] = 2%nat)
  /\ (forall text, count_emojis text = emoji_runs false text)
  /\ (forall messages user_stats user_id stats,
        analyze_user_stats messages = Ok user_stats ->
        assoc_get user_id user_stats = Some stats ->
        UserStats.emoji_count stats
        = emoji_sum (filter_user_messages messages user_id))
  /\ (forall messages stats,
        analyze_single_user_stats messages = Ok stats ->
        SingleUserStats.emoji_count stats = emoji_sum messages).
Proof.
  split; [|split; [|split; [|split]]].
  - intros e1 e2 H1 H2. rewrite count_emojis_runs. simpl. by rewrite H1, H2.
  - intros e1 c e2 H1 Hc H2. rewrite count_emojis_runs. simpl. by rewrite H1, Hc, H2.
  - apply count_emojis_runs.
  - intros messages user_stats uid st Hrun Hget.
    assert (uid ≠ []) as Huid.
    { intros ->.
      destruct (analyze_user_stats_loop_emoji messages [] user_stats [0] Hrun ltac:(done))
        as [_ Hnone].
      rewrite Hnone in Hget; done. }
    destruct (analyze_user_stats_loop_emoji messages [] user_stats uid Hrun Huid)
      as [Hsum _].
    unfold emoji_count_of in Hsum. rewrite Hget in Hsum. simpl in Hsum. done.
  - intros messages stats. unfold analyze_single_user_stats.
    destruct messages as [|msg rest]; [by intros [= <-]|].
    destruct (analyze_single_user_stats_loop _ _) as [[[[mc cc] ec] hours]|e] eqn:Hloop;
      simpl; [|done].
    intros [= <-]. cbn [SingleUserStats.emoji_count].
    by apply (analyze_single_user_stats_loop_emoji _ _ _ Hloop).
Qed.

End StatsFacts.

(** ** Sorting by a key, descending *)

Section SortFacts.
Context {A : Type} (key : A -> Z).
Local Abbreviation desc := (desc key).
Implicit Types (x : A) (l : list A).

Lemma insert_desc_perm x l : insert_desc key x l ≡ₚ x :: l.
Proof.
  induction l as [|y l IH]; simpl; [done|].
  destruct (key y <=? key x); [done|].
  rewrite IH. apply Permutation_swap.
Qed.

Lemma sort_desc_perm l : sort_desc key l ≡ₚ l.
Proof.
  induction l as [|x l IH]; simpl; [done|].
  by rewrite insert_desc_perm, IH.
Qed.

Lemma insert_desc_sorted x l :
  StronglySorted desc l -> StronglySorted desc (insert_desc key x l).
Proof.
  induction 1 as [|y l Hs IH Hy]; simpl.
  - repeat constructor.
  - destruct (key y <=? key x) eqn:Hle.
    + apply Z.leb_le in Hle. constructor; [by constructor|].
      constructor; [done|].
      eapply Forall_impl; [exact Hy|]. unfold desc. intros b Hb. simpl in Hb. lia.
    + apply Z.leb_gt in Hle. constructor; [done|].
      rewrite insert_desc_perm. constructor; [unfold desc; lia | done].
Qed.

Lemma sort_desc_sorted l : StronglySorted desc (sort_desc key l).
Proof.
  induction l as [|x l IH]; simpl; [constructor | by apply insert_desc_sorted].
Qed.

Lemma insert_desc_stable x l k :
  filter (fun y => key y = k) (insert_desc key x l)
  = filter (fun y => key y = k) (x :: l).
Proof.
  induction l as [|y l IH]; simpl; [done|].
  destruct (key y <=? key x) eqn:Hle; [done|].
  apply Z.leb_gt in Hle.
  rewrite (filter_cons _ y), IH, !filter_cons.
  destruct (decide (key y = k)), (decide (key x = k)); try done. lia.
Qed.

(** Stability: the elements of any one key keep their order. *)
Lemma sort_desc_stable l k :
  filter (fun y => key y = k) (sort_desc key l) = filter (fun y => key y = k) l.
Proof.
  induction l as [|x l IH]; simpl; [done|].
  by rewrite insert_desc_stable, !filter_cons, IH.
Qed.

End SortFacts.

(** ** Record validators *)

Section ValidatorFacts.
Context {RT : PyRuntime} {CFG : AnalysisConfig}.
Implicit Types (item : pydict) (user_stats : option (list (pystr * UserStats.t))).

Lemma has_key_getitem item k :
  has_key k item = true -> exists v, assoc_get k item = Some v /\ getitem item k = Ok v.
Proof.
  unfold has_key, getitem. intros [v Hv]%bool_decide_eq_true.
  exists v. by rewrite Hv.
Qed.

Lemma getitem_has_key item k v : assoc_get k item = Some v -> has_key k item = true.
Proof. intros H. unfold has_key. apply bool_decide_eq_true. by exists v. Qed.

Lemma py_int_raises x e :
  py_int x = Raise e -> e = TypeError \/ e = ValueError \/ e = OverflowError.
Proof.
  destruct x as [| | |[]|s| |]; simpl; try (intros [= <-]; tauto); try done.
  destruct (int_of_text s); [done | intros [= <-]; tauto].
Qed.

Lemma rank_default_scores_get_range rank : 0 <= rank_default_scores_get rank <= 150.
Proof. unfold rank_default_scores_get. repeat case_decide; lia. Qed.

(** The score of an item: the clamped integer, or the default of the rank
    when [int] raises [ValueError] or [TypeError]. *)
Lemma extract_score_cases item rank :
  match py_int (dict_get item (lit "score") (VInt 0)) with
  | Ok n => extract_score item rank = Ok (Z.max 0 (Z.min 150 n))
  | Raise OverflowError => extract_score item rank = Raise OverflowError
  | Raise _ => extract_score item rank = Ok (rank_default_scores_get rank)
  end.
Proof.
  unfold extract_score.
  destruct (py_int _) as [n|e] eqn:Hint; simpl; [done|].
  destruct (py_int_raises _ _ Hint) as [->| [->| ->]]; done.
Qed.

Lemma extract_score_ok item rank score :
  extract_score item rank = Ok score -> 0 <= score <= 150.
Proof.
  pose proof (extract_score_cases item rank) as H.
  destruct (py_int _) as [n|[]]; rewrite H; intros [= <-];
    first [lia | apply rank_default_scores_get_range].
Qed.

Lemma extract_score_raise item rank e :
  extract_score item rank = Raise e ->
  e = OverflowError
  /\ py_int (dict_get item (lit "score") (VInt 0)) = Raise OverflowError.
Proof.
  pose proof (extract_score_cases item rank) as H.
  destruct (py_int _) as [n|[]]; rewrite H; try done. by intros [= <-].
Qed.

(** An item without the key [score] gets the score 0, whatever its rank. *)
Lemma extract_score_absent item rank :
  assoc_get (lit "score") item = None -> extract_score item rank = Ok 0.
Proof. intros H. unfold extract_score, dict_get. by rewrite H. Qed.

(** An item whose score makes [int] raise [ValueError] or [TypeError]
    gets the default of its rank. *)
Lemma extract_score_non_numeric item rank e :
  py_int (dict_get item (lit "score") (VInt 0)) = Raise e ->
  e = ValueError \/ e = TypeError ->
  extract_score item rank = Ok (rank_default_scores_get rank).
Proof.
  intros H He. pose proof (extract_score_cases item rank) as Hc.
  rewrite H in Hc. by destruct He as [-> | ->].
Qed.

(** The entry that an item with the three required keys yields. *)
Lemma validate_depression_item_dict user_stats item name_v rank_v comment_v :
  assoc_get (lit "name") item = Some name_v ->
  assoc_get (lit "rank") item = Some rank_v ->
  assoc_get (lit "comment") item = Some comment_v ->
  let name := slice_to (py_str name_v) 50 in
  let rank := strip (py_upper (py_str rank_v)) in
  let comment := slice_to (py_str comment_v) 60 in
  validate_depression_item user_stats (VDict item)
  = if negb (bool_decide (rank ∈ VALID_RANKS)) then Ok None
    else if bool_decide (name = []) || bool_decide (rank = [])
            || bool_decide (comment = []) then Ok None
    else
      score ← extract_score item rank;
      Ok (Some (RankEntry.make name rank score comment (match_user_id user_stats name))).
Proof.
  intros Hn Hr Hc. simpl. unfold has_keys, getitem. simpl.
  rewrite !(getitem_has_key _ _ _ Hn), !(getitem_has_key _ _ _ Hr),
    !(getitem_has_key _ _ _ Hc). simpl.
  rewrite Hn, Hr, Hc. done.
Qed.

Lemma validate_depression_item_keys user_stats item :
  has_keys item [lit "name"; lit "rank"; lit "comment"] = true ->
  exists name_v rank_v comment_v,
    assoc_get (lit "name") item = Some name_v
    /\ assoc_get (lit "rank") item = Some rank_v
    /\ assoc_get (lit "comment") item = Some comment_v.
Proof.
  unfold has_keys. simpl. rewrite !andb_true_iff. intros (Hn & Hr & Hc & _).
  apply has_key_getitem in Hn as (n & Hn & _).
  apply has_key_getitem in Hr as (r & Hr & _).
  apply has_key_getitem in Hc as (c & Hc & _). eauto 6.
Qed.

(** One element: it is skipped, or yields an entry with a score within
    bounds, or its score makes [int] raise [OverflowError]. *)
Lemma validate_depression_item_cases user_stats (x : value) :
  match validate_depression_item user_stats x with
  | Ok None => True
  | Ok (Some entry) => 0 <= RankEntry.score entry <= 150
  | Raise e =>
      e = OverflowError
      /\ exists item, x = VDict item
         /\ py_int (dict_get item (lit "score") (VInt 0)) = Raise OverflowError
  end.
Proof.
  destruct x as [| | | | | |item]; try done.
  destruct (has_keys item [lit "name"; lit "rank"; lit "comment"]) eqn:Hk.
  - destruct (validate_depression_item_keys user_stats item Hk) as (n & r & c & Hn & Hr & Hc).
    rewrite (validate_depression_item_dict user_stats item n r c Hn Hr Hc). simpl.
    destruct (negb _); [done|].
    destruct (_ || _); [done|].
    destruct (extract_score _ _) as [score|e] eqn:Hs; simpl.
    + by apply extract_score_ok in Hs.
    + apply extract_score_raise in Hs as [-> Hs]. eauto.
  - unfold validate_depression_item. by rewrite Hk.
Qed.

Lemma validate_depression_loop_cases user_stats data :
  match validate_depression_loop user_stats data with
  | Ok validated => Forall (fun entry => 0 <= RankEntry.score entry <= 150) validated
  | Raise e =>
      e = OverflowError
      /\ exists item, VDict item ∈ data
         /\ py_int (dict_get item (lit "score") (VInt 0)) = Raise OverflowError
  end.
Proof.
  induction data as [|x data IH]; simpl; [constructor|].
  pose proof (validate_depression_item_cases user_stats x) as Hx.
  destruct (validate_depression_item user_stats x) as [r|e]; simpl.
  - destruct (validate_depression_loop user_stats data) as [validated|e]; simpl.
    + destruct r; [by constructor | done].
    + destruct IH as (-> & item & Hin & Hint). split; [done|].
      exists item. split; [by apply list_elem_of_further | done].
  - destruct Hx as (-> & item & -> & Hint). split; [done|].
    exists item. split; [apply list_elem_of_here | done].
Qed.

(** The loop reads its elements one by one, in order. *)
Lemma validate_depression_loop_app user_stats data1 data2 :
  validate_depression_loop user_stats (data1 ++ data2)
  = (v1 ← validate_depression_loop user_stats data1;
     v2 ← validate_depression_loop user_stats data2;
     Ok (v1 ++ v2)).
Proof.
  induction data1 as [|x data1 IH]; simpl.
  - by destruct (validate_depression_loop user_stats data2).
  - destruct (validate_depression_item user_stats x) as [r|e]; simpl; [|done].
    rewrite IH.
    destruct (validate_depression_loop user_stats data1) as [v1|e]; simpl; [|done].
    destruct (validate_depression_loop user_stats data2) as [v2|e]; simpl; [|done].
    by destruct r.
Qed.

(** The entries before sorting are those of the elements, in their order. *)
Lemma validate_depression_loop_order user_stats data validated :
  validate_depression_loop user_stats data = Ok validated ->
  exists entries : list (option RankEntry.t),
    Forall2 (fun x r => validate_depression_item user_stats x = Ok r) data entries
    /\ validated = omap id entries.
Proof.
  revert validated. induction data as [|x data IH]; simpl; intros validated.
  - intros [= <-]. exists []. split; [constructor | done].
  - destruct (validate_depression_item user_stats x) as [r|e] eqn:Hx; simpl; [|done].
    destruct (validate_depression_loop user_stats data) as [v|e]; simpl; [|done].
    intros [= <-]. destruct (IH v eq_refl) as (entries & Hall & ->).
    exists (r :: entries). split; [by constructor|]. by destruct r.
Qed.

(** C3. The list returned by [_validate_depression_index] has every score
    in [0,150], is sorted by score descending, and keeps, among entries of
    equal score, the order of the elements they come from; the function
    returns unless the score of an element makes [int] raise
    [OverflowError] (an infinite float). *)
Theorem validate_depression_index_sorted
    (data : list value) (user_stats : option (list (pystr * UserStats.t))) :
  match _validate_depression_index data user_stats with
  | Ok out =>
      Forall (fun entry => 0 <= RankEntry.score entry <= 150) out
      /\ StronglySorted (desc RankEntry.score) out
      /\ exists entries : list (option RankEntry.t),
           Forall2 (fun x r => validate_depression_item user_stats x = Ok r) data entries
           /\ out ≡ₚ omap id entries
           /\ forall k,
                filter (fun entry => RankEntry.score entry = k) out
                = filter (fun entry => RankEntry.score entry = k) (omap id entries)
  | Raise e =>
      e = OverflowError
      /\ exists item, VDict item ∈ data
         /\ py_int (dict_get item (lit "score") (VInt 0)) = Raise OverflowError
  end.
Proof.
  unfold _validate_depression_index.
  pose proof (validate_depression_loop_cases user_stats data) as Hc.
  destruct (validate_depression_loop user_stats data) as [validated|e] eqn:Hl; simpl;
    [|done].
  destruct (validate_depression_loop_order _ _ _ Hl) as (entries & Hall & ->).
  split; [by rewrite sort_desc_perm|].
  split; [apply sort_desc_sorted|].
  exists entries. split; [done|]. split; [apply sort_desc_perm|].
  intros k. apply sort_desc_stable.
Qed.

(** An item whose rank is no valid letter is skipped. *)
Lemma validate_depression_item_invalid_rank user_stats item rank_v :
  assoc_get (lit "rank") item = Some rank_v ->
  strip (py_upper (py_str rank_v)) ∉ VALID_RANKS ->
  validate_depression_item user_stats (VDict item) = Ok None.
Proof.
  intros Hr Hbad.
  destruct (has_keys item [lit "name"; lit "rank"; lit "comment"]) eqn:Hk.
  - destruct (validate_depression_item_keys user_stats item Hk)
      as (n & r & c & Hn & Hr' & Hc).
    rewrite (validate_depression_item_dict user_stats item n r c Hn Hr' Hc). simpl.
    assert (r = rank_v) as -> by congruence.
    by rewrite bool_decide_eq_false_2.
  - unfold validate_depression_item. by rewrite Hk.
Qed.

(** C4. An element of the batch whose rank, uppercased and trimmed, is
    none of S, A, B, C, D is dropped without a default: the result for the
    batch is the result for the batch without that element, so the other
    elements are treated as if it were not there. *)
Theorem invalid_rank_dropped
    (user_stats : option (list (pystr * UserStats.t)))
    (data1 data2 : list value) (item : pydict) (rank_v : value) :
  assoc_get (lit "rank") item = Some rank_v ->
  strip (py_upper (py_str rank_v)) ∉ VALID_RANKS ->
  validate_depression_item user_stats (VDict item) = Ok None
  /\ _validate_depression_index (data1 ++ VDict item :: data2) user_stats
     = _validate_depression_index (data1 ++ data2) user_stats.
Proof.
  intros Hr Hbad.
  pose proof (validate_depression_item_invalid_rank user_stats item rank_v Hr Hbad) as Hitem.
  split; [done|].
  unfold _validate_depression_index.
  rewrite !validate_depression_loop_app.
  cbn [validate_depression_loop]. rewrite Hitem. simpl.
  destruct (validate_depression_loop user_stats data1) as [v1|e]; simpl; [|done].
  by destruct (validate_depression_loop user_stats data2).
Qed.

(** C1, as the code behaves. For an element with name, comment and a valid
    rank: when the key [score] is absent the entry gets the score 0 (the
    lookup supplies 0 before [int] is called), and not the default of the
    rank; when the score is present and [int] raises [ValueError] or
    [TypeError] on it, the entry gets the default of the rank. *)
Theorem absent_score_yields_zero
    (user_stats : option (list (pystr * UserStats.t))) (item : pydict)
    (name_v rank_v comment_v : value) :
  assoc_get (lit "name") item = Some name_v ->
  assoc_get (lit "rank") item = Some rank_v ->
  assoc_get (lit "comment") item = Some comment_v ->
  let name := slice_to (py_str name_v) 50 in
  let rank := strip (py_upper (py_str rank_v)) in
  let comment := slice_to (py_str comment_v) 60 in
  rank ∈ VALID_RANKS -> name ≠ [] -> comment ≠ [] ->
  (assoc_get (lit "score") item = None ->
   _validate_depression_index [VDict item] user_stats
   = Ok [RankEntry.make name rank 0 comment (match_user_id user_stats name)])
  /\ (forall e, py_int (dict_get item (lit "score") (VInt 0)) = Raise e ->
        e = ValueError \/ e = TypeError ->
        _validate_depression_index [VDict item] user_stats
        = Ok [RankEntry.make name rank (rank_default_scores_get rank) comment
                (match_user_id user_stats name)]).
Proof.
  intros Hn Hr Hc name rank comment Hrank Hname Hcomment.
  assert (rank ≠ []) as Hrk.
  { intros Heq. rewrite Heq in Hrank. unfold VALID_RANKS in Hrank.
    repeat (apply elem_of_cons in Hrank as [Hrank|Hrank]; [done|]).
    by apply not_elem_of_nil in Hrank. }
  assert (forall score, extract_score item rank = Ok score ->
            _validate_depression_index [VDict item] user_stats
            = Ok [RankEntry.make name rank score comment (match_user_id user_stats name)])
    as Hgen.
  { intros score Hs. unfold _validate_depression_index. cbn [validate_depression_loop].
    rewrite (validate_depression_item_dict user_stats item _ _ _ Hn Hr Hc).
    fold name rank comment.
    rewrite (bool_decide_eq_true_2 _ Hrank).
    rewrite !bool_decide_eq_false_2 by done. simpl.
    rewrite Hs. done. }
  split.
  - intros Habs. apply Hgen. by apply extract_score_absent.
  - intros e He Hcls. apply Hgen. by eapply extract_score_non_numeric.
Qed.

(** *** Titles *)

Lemma slice_to_nonempty (s : pystr) (n : Z) : s ≠ [] -> 0 < n -> slice_to s n ≠ [].
Proof.
  intros Hs Hn. unfold slice_to. destruct (Z.leb_spec 0 n); [|lia].
  destruct s as [|c s]; [done|].
  destruct (Z.to_nat n) eqn:Hk; [lia | done].
Qed.

Lemma validate_title_item_dict user_stats item name_v title_v mbti_v reason_v :
  assoc_get (lit "name") item = Some name_v ->
  assoc_get (lit "title") item = Some title_v ->
  assoc_get (lit "mbti") item = Some mbti_v ->
  assoc_get (lit "reason") item = Some reason_v ->
  let name := slice_to (py_str name_v) 50 in
  let title := slice_to (py_str title_v) MAX_TITLE_LENGTH in
  let mbti := strip (py_upper (py_str mbti_v)) in
  let reason := slice_to (py_str reason_v) MAX_REASON_LENGTH in
  validate_title_item user_stats (VDict item)
  = if bool_decide (name = []) || bool_decide (title = [])
       || bool_decide (reason = []) then Ok None
    else Ok (Some (TitledProfile.make name title
                     (if negb (bool_decide (mbti ∈ valid_mbti_types))
                      then lit "ENFP" else mbti)
                     reason (match_user_id user_stats name))).
Proof.
  intros Hn Ht Hm Hr. simpl. unfold has_keys, getitem. simpl.
  rewrite !(getitem_has_key _ _ _ Hn), !(getitem_has_key _ _ _ Ht),
    !(getitem_has_key _ _ _ Hm), !(getitem_has_key _ _ _ Hr). simpl.
  rewrite Hn, Ht, Hm, Hr. done.
Qed.

(** [_validate_titles] handles every element without raising. *)
Lemma validate_title_item_total user_stats (x : value) :
  exists r, validate_title_item user_stats x = Ok r.
Proof.
  destruct x as [| | | | | |item]; try (by eexists).
  destruct (has_keys item [lit "name"; lit "title"; lit "mbti"; lit "reason"]) eqn:Hk.
  - pose proof Hk as Hk'. unfold has_keys in Hk'. simpl in Hk'.
    rewrite !andb_true_iff in Hk'. destruct Hk' as (Hn & Ht & Hm & Hr & _).
    apply has_key_getitem in Hn as (n & Hn & _).
    apply has_key_getitem in Ht as (t & Ht & _).
    apply has_key_getitem in Hm as (m & Hm & _).
    apply has_key_getitem in Hr as (r & Hr & _).
    rewrite (validate_title_item_dict user_stats item n t m r Hn Ht Hm Hr).
    destruct (_ || _); by eexists.
  - unfold validate_title_item. rewrite Hk. by eexists.
Qed.

Lemma validate_titles_total user_stats data :
  exists out, _validate_titles data user_stats = Ok out.
Proof.
  induction data as [|x data [out IH]]; simpl; [by eexists|].
  destruct (validate_title_item_total user_stats x) as [r ->]. simpl.
  rewrite IH. simpl. by eexists.
Qed.

Lemma validate_titles_app user_stats data1 data2 :
  _validate_titles (data1 ++ data2) user_stats
  = (v1 ← _validate_titles data1 user_stats;
     v2 ← _validate_titles data2 user_stats;
     Ok (v1 ++ v2)).
Proof.
  induction data1 as [|x data1 IH]; simpl.
  - by destruct (_validate_titles data2 user_stats).
  - destruct (validate_title_item user_stats x) as [r|e]; simpl; [|done].
    rewrite IH.
    destruct (_validate_titles data1 user_stats) as [v1|e]; simpl; [|done].
    destruct (_validate_titles data2 user_stats) as [v2|e]; simpl; [|done].
    by destruct r.
Qed.

(** C8. An element of the batch whose personality tag, uppercased and
    trimmed, is none of the sixteen codes is emitted with the tag ENFP,
    at its place among the entries of the other elements, provided its
    name, title and reason are present and not empty (the two configured
    bounds being positive). *)
Theorem invalid_mbti_defaults_to_ENFP
    (user_stats : option (list (pystr * UserStats.t)))
    (data1 data2 : list value) (item : pydict)
    (name_v title_v mbti_v reason_v : value) :
  0 < MAX_TITLE_LENGTH -> 0 < MAX_REASON_LENGTH ->
  assoc_get (lit "name") item = Some name_v ->
  assoc_get (lit "title") item = Some title_v ->
  assoc_get (lit "mbti") item = Some mbti_v ->
  assoc_get (lit "reason") item = Some reason_v ->
  py_str name_v ≠ [] -> py_str title_v ≠ [] -> py_str reason_v ≠ [] ->
  strip (py_upper (py_str mbti_v)) ∉ valid_mbti_types ->
  let name := slice_to (py_str name_v) 50 in
  let entry :=
    TitledProfile.make name
      (slice_to (py_str title_v) MAX_TITLE_LENGTH)
      (lit "ENFP")
      (slice_to (py_str reason_v) MAX_REASON_LENGTH)
      (match_user_id user_stats name) in
  exists out1 out2,
    _validate_titles data1 user_stats = Ok out1
    /\ _validate_titles data2 user_stats = Ok out2
    /\ _validate_titles (data1 ++ VDict item :: data2) user_stats
       = Ok (out1 ++ entry :: out2).
Proof.
  intros Ht0 Hr0 Hn Ht Hm Hr Hname Htitle Hreason Hbad name entry.
  destruct (validate_titles_total user_stats data1) as [out1 H1].
  destruct (validate_titles_total user_stats data2) as [out2 H2].
  exists out1, out2. split; [done|]. split; [done|].
  rewrite validate_titles_app. cbn [_validate_titles].
  rewrite (validate_title_item_dict user_stats item _ _ _ _ Hn Ht Hm Hr).
  rewrite (bool_decide_eq_false_2 _ Hbad).
  rewrite !bool_decide_eq_false_2 by (apply slice_to_nonempty; [done | lia]).
  rewrite H1, H2. simpl. done.
Qed.

End ValidatorFacts.

(** ** Response recovery *)

Section RecoveryFacts.
Context {RT : PyRuntime}.












(** [_parse_llm_json] by the outcome of its two parses. *)
Lemma parse_llm_json_unfold raw :
  _parse_llm_json raw
  = Ok match json_loads (sliced_text LBRACKET RBRACKET raw) with
       | Ok data => accept_list data
       | Raise e =>
           if is_JSONDecodeError e
           then checked_list (json_loads (repair_array (sliced_text LBRACKET RBRACKET raw)))
           else []
       end.
Proof.
  unfold _parse_llm_json, sliced_text, checked_list.
  destruct (json_loads (extract_span _ _ (strip_fence raw))) as [data|e]; simpl; [done|].
  destruct (is_JSONDecodeError e); [|done].
  by destruct (json_loads _).
Qed.

Lemma parse_llm_json_object_unfold raw :
  _parse_llm_json_object raw
  = Ok match json_loads (sliced_text LBRACE RBRACE raw) with
       | Ok data => accept_dict data
       | Raise e =>
           if is_JSONDecodeError e
           then checked_dict (json_loads (repair_object (sliced_text LBRACE RBRACE raw)))
           else None
       end.
Proof.
  unfold _parse_llm_json_object, sliced_text, checked_dict.
  destruct (json_loads (extract_span _ _ (strip_fence raw))) as [data|e]; simpl; [done|].
  destruct (is_JSONDecodeError e); [|done].
  by destruct (json_loads _).
Qed.

Lemma accept_list_dicts data : Forall (fun v => is_dict v = true) (accept_list data).
Proof.
  destruct data as [| | | | |l|]; simpl; try constructor.
  destruct (bool_decide (l = [])) eqn:Hl; simpl.
  - apply bool_decide_eq_true in Hl as ->. constructor.
  - destruct (forallb is_dict l) eqn:Hall; simpl; [|constructor].
    apply Forall_forall. intros v Hv%list_elem_of_In.
    rewrite forallb_forall in Hall. by apply Hall.
Qed.


(** C10. [_parse_llm_json] never raises and always returns a list of
    dicts; it returns the empty list both when the parsed array is empty
    and when the direct parse and the repair both fail, so the two cannot
    be told apart. [_parse_llm_json_object] never raises either, and
    returns [None] when both attempts fail, which differs from the empty
    dict it returns for a parsed empty object. *)
Theorem parse_llm_json_never_raises :
  (forall raw, exists data,
     _parse_llm_json raw = Ok data /\ Forall (fun v => is_dict v = true) data)
  /\ (forall raw,
        json_loads (sliced_text LBRACKET RBRACKET raw) = Ok (VList []) ->
        _parse_llm_json raw = Ok [])
  /\ (forall raw e1 e2,
        json_loads (sliced_text LBRACKET RBRACKET raw) = Raise e1 ->
        json_loads (repair_array (sliced_text LBRACKET RBRACKET raw)) = Raise e2 ->
        _parse_llm_json raw = Ok [])
  /\ (forall raw, exists r, _parse_llm_json_object raw = Ok r)
  /\ (forall raw,
        json_loads (sliced_text LBRACE RBRACE raw) = Ok (VDict []) ->
        _parse_llm_json_object raw = Ok (Some []))
  /\ (forall raw e1 e2,
        json_loads (sliced_text LBRACE RBRACE raw) = Raise e1 ->
        json_loads (repair_object (sliced_text LBRACE RBRACE raw)) = Raise e2 ->
        _parse_llm_json_object raw = Ok None).
Proof.
  repeat split.
  - intros raw. eexists. split; [apply parse_llm_json_unfold|].
    destruct (json_loads (sliced_text _ _ raw)) as [data|e];
      [apply accept_list_dicts|].
    destruct (is_JSONDecodeError e); [|constructor].
    unfold checked_list. destruct (json_loads _); [apply accept_list_dicts | constructor].
  - intros raw H. by rewrite parse_llm_json_unfold, H.
  - intros raw e1 e2 H1 H2. rewrite parse_llm_json_unfold, H1, H2.
    by destruct (is_JSONDecodeError e1).
  - intros raw. eexists. apply parse_llm_json_object_unfold.
  - intros raw H. by rewrite parse_llm_json_object_unfold, H.
  - intros raw e1 e2 H1 H2. rewrite parse_llm_json_object_unfold, H1, H2.
    by destruct (is_JSONDecodeError e1).
Qed.

End RecoveryFacts.

(** ** Scheduler *)

Section SchedulerFacts.
Context {RT : PyRuntime}.
Import SummaryScheduler.

Lemma replace_time_ok now h m :
  0 <= h <= 23 -> 0 <= m <= 59 ->
  replace_time now h m = Ok (mk_datetime (ordinal now) h m 0 0).
Proof.
  intros Hh Hm. unfold replace_time, in_range.
  by rewrite !(proj2 (Z.leb_le _ _)) by lia.
Qed.

Lemma next_fire_at_ok now h m :
  0 <= h <= 23 -> 0 <= m <= 59 -> ordinal now < 3652059 ->
  let today := mk_datetime (date now) h m 0 0 in
  let fire :=
    if to_microseconds now <? to_microseconds today then today
    else mk_datetime (date now + 1) h m 0 0 in
  next_fire_at now h m = Ok (fire, to_microseconds fire - to_microseconds now).
Proof.
  intros Hh Hm Hmax. unfold next_fire_at. rewrite replace_time_ok by done.
  cbn [mbind result_bind]. unfold date.
  destruct (Z.ltb_spec (to_microseconds now)
              (to_microseconds (mk_datetime (ordinal now) h m 0 0))) as [Hlt|Hge].
  - rewrite (proj2 (Z.leb_gt _ _)) by done. done.
  - rewrite (proj2 (Z.leb_le _ _)) by done. unfold add_one_day. cbn [ordinal].
    rewrite (proj2 (Z.leb_le _ _)) by lia. done.
Qed.

Lemma wait_positive now h m :
  0 <= h <= 23 -> 0 <= m <= 59 -> valid_datetime now ->
  let today := mk_datetime (date now) h m 0 0 in
  let fire :=
    if to_microseconds now <? to_microseconds today then today
    else mk_datetime (date now + 1) h m 0 0 in
  0 < to_microseconds fire - to_microseconds now <= 86400000000.
Proof.
  intros Hh Hm (Ho & Hnh & Hnm & Hns & Hnu). unfold date. cbv zeta.
  destruct (Z.ltb_spec (to_microseconds now)
              (to_microseconds (mk_datetime (ordinal now) h m 0 0))) as [Hlt|Hge];
    unfold to_microseconds in *; cbn [ordinal hour minute second microsecond] in *; lia.
Qed.

(** A pass whose fire instant is computed starts by sleeping until it. *)
Lemma cycle_sleeps s env fire wait :
  next_fire (now_start env) (summary_time_str env) = Ok (fire, wait) ->
  exists evs, (cycle s env).1.2 = Sleep wait :: evs.
Proof.
  intros H. unfold cycle. rewrite H.
  destruct (sleep_cancelled env); [by eexists|].
  destruct (running_after_sleep env); cbn [negb is_running]; [|by eexists].
  case_bool_decide; [by eexists|].
  destruct (job env); by eexists.
Qed.

(** C6. A cycle combines the current date with the configured hour and
    minute, and moves the instant to the next day exactly when it is not
    strictly after now; it then sleeps for the difference, which is
    positive and at most one day. With 23:00 configured, at 22:00 the
    instant is 23:00 of the same day, one hour away, and at 23:30 it is
    23:00 of the next day, 23.5 hours away. *)
Theorem next_fire_instant :
  (forall now time_str h m,
     parse_summary_time time_str = (h, m) ->
     0 <= h <= 23 -> 0 <= m <= 59 ->
     valid_datetime now -> ordinal now < 3652059 ->
     let today := mk_datetime (date now) h m 0 0 in
     let fire :=
       if to_microseconds now <? to_microseconds today then today
       else mk_datetime (date now + 1) h m 0 0 in
     let wait := to_microseconds fire - to_microseconds now in
     next_fire now time_str = Ok (fire, wait)
     /\ 0 < wait <= 86400000000
     /\ forall s env,
          now_start env = now -> summary_time_str env = time_str ->
          exists evs, (cycle s env).1.2 = Sleep wait :: evs)
  /\ (forall day time_str,
        parse_summary_time time_str = (23, 0) ->
        1 <= day < 3652059 ->
        next_fire (mk_datetime day 22 0 0 0) time_str
        = Ok (mk_datetime day 23 0 0 0, 3600 * 1000000)
        /\ next_fire (mk_datetime day 23 30 0 0) time_str
           = Ok (mk_datetime (day + 1) 23 0 0 0, 84600 * 1000000)).
Proof.
  split.
  - intros now time_str h m Hparse Hh Hm Hnow Hmax today fire wait.
    assert (next_fire now time_str = Ok (fire, wait)) as Hnf.
    { unfold next_fire. rewrite Hparse. by apply next_fire_at_ok. }
    split; [done|]. split; [by apply wait_positive|].
    intros s env <- <-. by eapply cycle_sleeps.
  - intros day time_str Hparse Hday. unfold next_fire. rewrite Hparse.
    split.
    + rewrite next_fire_at_ok by (cbn; lia).
      unfold date, to_microseconds. cbn [ordinal hour minute second microsecond].
      rewrite (proj2 (Z.ltb_lt _ _)) by lia.
      cbn [ordinal hour minute second microsecond]. do 2 f_equal. lia.
    + rewrite next_fire_at_ok by (cbn; lia).
      unfold date, to_microseconds. cbn [ordinal hour minute second microsecond].
      rewrite (proj2 (Z.ltb_ge _ _)) by lia.
      cbn [ordinal hour minute second microsecond]. do 2 f_equal. lia.
Qed.

(** *** The guard against firing twice *)

(** Membership of an event in an explicit list of events. *)
Ltac in_events H :=
  repeat match type of H with
         | _ ∈ [] => by apply not_elem_of_nil in H
         | _ ∈ _ :: _ =>
             apply elem_of_cons in H as [H|H];
             [first [discriminate H | injection H as ->] |]
         end.

(** What a pass can do: its events, and the last-fired date after it. *)
Lemma cycle_facts s env :
  let '(s', evs, _) := cycle s env in
  (forall d, Invoke d ∈ evs ->
     d = wake_date env /\ last_execution_date s ≠ Some d)
  /\ (forall d, Completed d ∈ evs ->
       d = wake_date env /\ last_execution_date s' = Some d)
  /\ (last_execution_date s' = last_execution_date s
       \/ last_execution_date s' = Some (wake_date env))
  /\ no_refire evs.
Proof.
  unfold cycle, wake_date.
  destruct (next_fire _ _) as [[fire wait]|e];
    [destruct (sleep_cancelled env);
     [|destruct (running_after_sleep env); cbn [negb is_running last_execution_date];
       [case_bool_decide as Hlast; [|destruct (job env)]|]]|];
    cbn [last_execution_date];
    (split; [intros d Hd; in_events Hd; done
            |split; [intros d Hd; in_events Hd; done
                    |split; [tauto | cbn; try tauto]]]).
  split; [apply not_elem_of_nil | done].
Qed.
Lemma cycle_skips s env d :
  last_execution_date s = Some d -> wake_date env = d ->
  (forall d', Invoke d' ∉ (cycle s env).1.2)
  /\ last_execution_date (cycle s env).1.1 = Some d.
Proof.
  intros Hlast Hwake. pose proof (cycle_facts s env) as H.
  destruct (cycle s env) as [[s' evs] c]. cbn [fst snd].
  destruct H as (Hinv & _ & Hs' & _). split.
  - intros d' Hin. destruct (Hinv d' Hin) as [-> Hne]. congruence.
  - destruct Hs' as [-> | ->]; congruence.
Qed.

Lemma schedule_loop_cons s env rest :
  _schedule_loop s (env :: rest)
  = if is_running s then
      if (cycle s env).2
      then ((_schedule_loop (cycle s env).1.1 rest).1,
            (cycle s env).1.2 ++ (_schedule_loop (cycle s env).1.1 rest).2)
      else (cycle s env).1
    else (s, []).
Proof.
  cbn [_schedule_loop]. destruct (is_running s); [|done].
  destruct (cycle s env) as [[s' evs] c]. cbn [fst snd].
  destruct c; [|done]. by destruct (_schedule_loop s' rest).
Qed.

Lemma schedule_loop_skips envs : forall s d,
  last_execution_date s = Some d ->
  Forall (fun env => wake_date env = d) envs ->
  (forall d', Invoke d' ∉ (_schedule_loop s envs).2)
  /\ last_execution_date (_schedule_loop s envs).1 = Some d.
Proof.
  induction envs as [|env rest IH]; intros s d Hlast Hall.
  - split; [intros d'; apply not_elem_of_nil | done].
  - apply Forall_cons in Hall as [Henv Hrest].
    destruct (cycle_skips s env d Hlast Henv) as [Hno Hlast'].
    rewrite schedule_loop_cons.
    destruct (is_running s); [|split; [intros d'; apply not_elem_of_nil | done]].
    destruct (cycle s env).2; [|done].
    destruct (IH _ _ Hlast' Hrest) as [Hno' Hlast'']. cbn [fst snd].
    split; [|done]. intros d' [Hin|Hin]%elem_of_app; [by eapply Hno | by eapply Hno'].
Qed.

Lemma no_refire_app evs1 evs2 :
  no_refire evs1 -> no_refire evs2 ->
  (forall d, Completed d ∈ evs1 -> Invoke d ∉ evs2) ->
  no_refire (evs1 ++ evs2).
Proof.
  induction evs1 as [|ev evs1 IH]; intros H1 H2 Hx; [done|].
  assert (no_refire (evs1 ++ evs2)) as Hrec.
  { apply IH; [by destruct ev as [| |d|]; [| |destruct H1|] | done |].
    intros d Hd. apply Hx. by apply list_elem_of_further. }
  destruct ev as [w|d|d|]; cbn [no_refire app]; try done.
  destruct H1 as [Hd _]. split; [|done].
  intros [Hin|Hin]%elem_of_app; [done|].
  by apply (Hx d); [apply list_elem_of_here|].
Qed.

Lemma no_refire_split evs : forall pre d post,
  no_refire evs -> evs = pre ++ Completed d :: post -> Invoke d ∉ post.
Proof.
  intros pre. revert evs. induction pre as [|ev pre IH]; intros evs d post H ->.
  - by destruct H.
  - apply (IH (pre ++ Completed d :: post)); [|done].
    by destruct ev as [| |d'|]; [| |destruct H|].
Qed.

Lemma not_after_step s env rest :
  chronological (env :: rest) -> not_after s (env :: rest) ->
  chronological rest /\ not_after (cycle s env).1.1 rest.
Proof.
  unfold chronological, not_after. cbn [map].
  intros Hsorted Hbound. apply StronglySorted_inv in Hsorted as [Hrest Henv].
  split; [done|].
  pose proof (cycle_facts s env) as H.
  destruct (cycle s env) as [[s' evs] c]. cbn [fst snd].
  destruct H as (_ & _ & Hs' & _). intros last Hlast.
  destruct Hs' as [Heq | Heq]; rewrite Heq in Hlast.
  - specialize (Hbound _ Hlast). by apply Forall_cons in Hbound as [_ ?].
  - injection Hlast as <-. by rewrite Forall_map in Henv.
Qed.

(** In a chronological run every firing is on a date after the one that
    was last-fired at its start. *)
Lemma schedule_loop_invokes_later envs : forall s d last,
  chronological envs -> not_after s envs ->
  Invoke d ∈ (_schedule_loop s envs).2 ->
  last_execution_date s = Some last -> last < d.
Proof.
  induction envs as [|env rest IH]; intros s d last Hsorted Hbound Hin Hlast.
  - by apply not_elem_of_nil in Hin.
  - destruct (not_after_step _ _ _ Hsorted Hbound) as [Hsorted' Hbound'].
    pose proof (Hbound _ Hlast) as [Hle _]%Forall_cons.
    rewrite schedule_loop_cons in Hin.
    pose proof (cycle_facts s env) as H.
    destruct (cycle s env) as [[s' evs] c]. cbn [fst snd] in *.
    destruct H as (Hinv & _ & Hs' & _).
    assert (Invoke d ∈ evs -> last < d) as Hhere.
    { intros Hd. destruct (Hinv _ Hd) as [-> Hne].
      assert (last ≠ wake_date env) by congruence. lia. }
    destruct (is_running s); [|by apply not_elem_of_nil in Hin].
    destruct c; [|by apply Hhere].
    cbn [snd] in Hin. apply elem_of_app in Hin as [Hd|Hd]; [by apply Hhere|].
    destruct Hs' as [Heq | Heq].
    + apply (IH s' d last); [done | done | done | congruence].
    + pose proof (IH s' d (wake_date env) Hsorted' Hbound' Hd Heq). lia.
Qed.

Lemma schedule_loop_no_refire envs : forall s,
  chronological envs -> not_after s envs ->
  no_refire (_schedule_loop s envs).2.
Proof.
  induction envs as [|env rest IH]; intros s Hsorted Hbound; [done|].
  destruct (not_after_step _ _ _ Hsorted Hbound) as [Hsorted' Hbound'].
  rewrite schedule_loop_cons.
  pose proof (cycle_facts s env) as H.
  specialize (IH (cycle s env).1.1 Hsorted' Hbound').
  pose proof (schedule_loop_invokes_later rest (cycle s env).1.1) as Hlater.
  destruct (cycle s env) as [[s' evs] c]. cbn [fst snd] in *.
  destruct H as (_ & Hcomp & _ & Hno).
  destruct (is_running s); [|done].
  destruct c; [|done]. cbn [snd].
  apply no_refire_app; [done | done |].
  intros d Hd Hin. destruct (Hcomp _ Hd) as [_ Hlast].
  pose proof (Hlater d d Hsorted' Hbound' Hin Hlast). lia.
Qed.

(** C5. Once the job has completed on a date, recorded as the last-fired
    date, a pass that wakes on that same date invokes nothing and keeps
    the record; when it reaches the check it only slept, and the loop
    goes on to compute the next instant. So no run of passes waking on
    that date invokes the job, and in a run of the scheduler whose waking
    dates never go back, the job is never invoked on a date after having
    completed on it. *)
Theorem duplicate_fire_guard :
  (forall s env d,
     last_execution_date s = Some d -> wake_date env = d ->
     (forall d', Invoke d' ∉ (cycle s env).1.2)
     /\ last_execution_date (cycle s env).1.1 = Some d
     /\ forall fire wait,
          next_fire (now_start env) (summary_time_str env) = Ok (fire, wait) ->
          sleep_cancelled env = false -> running_after_sleep env = true ->
          cycle s env = (mk_scheduler true (Some d), [Sleep wait], true))
  /\ (forall s envs d,
        last_execution_date s = Some d ->
        Forall (fun env => wake_date env = d) envs ->
        (forall d', Invoke d' ∉ (_schedule_loop s envs).2)
        /\ last_execution_date (_schedule_loop s envs).1 = Some d)
  /\ (forall envs pre d post,
        chronological envs ->
        (_schedule_loop started envs).2 = pre ++ Completed d :: post ->
        Invoke d ∉ post).
Proof.
  split; [|split].
  - intros s env d Hlast Hwake.
    destruct (cycle_skips s env d Hlast Hwake) as [Hno Hkeep].
    split; [done|]. split; [done|].
    intros fire wait Hfire Hsleep Hrun. unfold cycle.
    rewrite Hfire, Hsleep, Hrun. cbn [negb is_running last_execution_date].
    unfold wake_date in Hwake. rewrite Hlast, Hwake.
    by rewrite bool_decide_eq_true_2.
  - intros s envs d. apply schedule_loop_skips.
  - intros envs pre d post Hsorted Hevs.
    eapply no_refire_split; [|exact Hevs].
    apply schedule_loop_no_refire; [done|]. by intros last.
Qed.

End SchedulerFacts.

(** ** Slicing and stripping *)

Section StringFacts.
Implicit Types (s t : pystr).

Lemma slice_to_length s n : 0 <= n -> (length (slice_to s n) <= Z.to_nat n)%nat.
Proof.
  intros Hn. unfold slice_to. destruct (Z.leb_spec 0 n); [|lia].
  rewrite length_take. lia.
Qed.

Lemma slice_to_length_le s n : (length (slice_to s n) <= length s)%nat.
Proof. unfold slice_to. destruct (0 <=? n); rewrite length_take; lia. Qed.

Lemma slice_to_sized s (n : nat) :
  slice_to s (Z.of_nat n) ≠ [] -> sized 1 n (slice_to s (Z.of_nat n)).
Proof.
  intros Hne. pose proof (slice_to_length s (Z.of_nat n) ltac:(lia)) as Hle.
  unfold sized. destruct (slice_to s (Z.of_nat n)); [done|]. simpl in *. lia.
Qed.

Lemma slice_to_sized_Z s n :
  slice_to s n ≠ [] -> 0 <= n -> sized 1 (Z.to_nat n) (slice_to s n).
Proof.
  intros Hne Hn. pose proof (slice_to_length s n Hn) as Hle.
  unfold sized. destruct (slice_to s n); [done|]. simpl in *. lia.
Qed.

Lemma lstrip_length s : (length (lstrip s) <= length s)%nat.
Proof. induction s as [|c s IH]; simpl; [lia|]. destruct (is_space c); simpl; lia. Qed.

Lemma strip_length s : (length (strip s) <= length s)%nat.
Proof.
  unfold strip, rstrip. rewrite length_rev.
  etrans; [apply lstrip_length|]. rewrite length_rev. apply lstrip_length.
Qed.

Lemma lstrip_idemp s : lstrip (lstrip s) = lstrip s.
Proof.
  induction s as [|c s IH]; simpl; [done|].
  destruct (is_space c) eqn:Hc; [done|]. simpl. by rewrite Hc.
Qed.

Lemma lstrip_snoc s c : is_space c = false -> lstrip (s ++ [c]) = lstrip s ++ [c].
Proof.
  intros Hc. induction s as [|x s IH]; simpl; [by rewrite Hc|].
  by destruct (is_space x).
Qed.

Lemma rstrip_cons c s : is_space c = false -> rstrip (c :: s) = c :: rstrip s.
Proof.
  intros Hc. unfold rstrip. simpl. rewrite lstrip_snoc by done.
  by rewrite rev_app_distr.
Qed.

Lemma rstrip_idemp s : rstrip (rstrip s) = rstrip s.
Proof. unfold rstrip. by rewrite rev_involutive, lstrip_idemp. Qed.

Lemma lstrip_head s c t : lstrip s = c :: t -> is_space c = false.
Proof.
  induction s as [|x s IH]; simpl; [done|].
  destruct (is_space x) eqn:Hx; [done|]. by intros [= <- _].
Qed.

Lemma lstrip_rstrip s : lstrip (rstrip (lstrip s)) = rstrip (lstrip s).
Proof.
  destruct (lstrip s) as [|c t] eqn:Hl; [done|].
  pose proof (lstrip_head _ _ _ Hl) as Hc.
  rewrite rstrip_cons by done. simpl. by rewrite Hc.
Qed.

(** Stripping twice is stripping once. *)
Lemma strip_idemp s : strip (strip s) = strip s.
Proof. unfold strip. by rewrite lstrip_rstrip, rstrip_idemp. Qed.

End StringFacts.

(** ** Topics, quotes, profile: what the validators let through *)

Section MoreValidatorFacts.
Context {RT : PyRuntime} {CFG : AnalysisConfig}.

Lemma has_keys_lookup (item : pydict) (keys : list pystr) k :
  has_keys item keys = true -> k ∈ keys ->
  exists v, assoc_get k item = Some v /\ getitem item k = Ok v.
Proof.
  unfold has_keys. rewrite forallb_forall. intros Hall Hk.
  apply has_key_getitem, Hall. by apply list_elem_of_In.
Qed.

Lemma dict_get_present (item : pydict) k v d :
  assoc_get k item = Some v -> dict_get item k d = v.
Proof. intros H. unfold dict_get. by rewrite H. Qed.

Lemma sized_nonempty lo hi s : sized (S lo) hi s -> s ≠ [].
Proof. unfold sized. destruct s; simpl; [lia | done]. Qed.

(** *** Topics *)

Lemma clean_contributors_sized (l : list value) :
  (length (clean_contributors l) <= 5)%nat
  /\ Forall (sized 1 20) (clean_contributors l).
Proof.
  unfold clean_contributors. split; [rewrite length_take; lia|].
  apply Forall_take. induction l as [|c l IH]; simpl; [constructor|].
  destruct (truthy c && negb (bool_decide (strip (py_str c) = []))) eqn:Hc; [|done].
  simpl. constructor; [|done].
  apply andb_true_iff in Hc as [_ Hs]. apply negb_true_iff, bool_decide_eq_false in Hs.
  apply (slice_to_sized_Z _ 20); [|lia]. by apply slice_to_nonempty.
Qed.

(** One element of the topics: skipped, or a topic within bounds. *)
Lemma validate_topic_item_cases (x : value) :
  match validate_topic_item x with
  | Ok None => True
  | Ok (Some t) => topic_ok t
  | Raise _ => False
  end.
Proof.
  destruct x as [| | | | | |item]; try done.
  unfold validate_topic_item.
  destruct (has_keys item _) eqn:Hk; [|done]. cbn [negb].
  destruct (has_keys_lookup _ _ (lit "topic") Hk) as (tv & _ & ->);
    [set_solver|].
  destruct (has_keys_lookup _ _ (lit "detail") Hk) as (dv & _ & ->);
    [set_solver|].
  cbn [mbind result_bind].
  destruct (bool_decide (slice_to (py_str tv) 30 = [])) eqn:Ht; [done|].
  destruct (bool_decide (slice_to (py_str dv) 200 = [])) eqn:Hd; [done|].
  destruct (bool_decide (clean_contributors _ = [])) eqn:Hc; [done|].
  cbn [orb]. apply bool_decide_eq_false in Ht, Hd, Hc.
  destruct (clean_contributors_sized
              match dict_get item (lit "contributors") (VList []) with
              | VList l => l
              | _ => []
              end) as [Hlen Hall].
  unfold topic_ok. cbn [Topic.topic Topic.detail Topic.contributors].
  split; [by apply (slice_to_sized_Z _ 30)|].
  split; [by apply (slice_to_sized_Z _ 200)|].
  split; [|done].
  destruct (clean_contributors _); [done | simpl in *; lia].
Qed.

Lemma validate_topics_loop_cases (data : list value) :
  exists validated,
    validate_topics_loop data = Ok validated
    /\ Forall topic_ok validated
    /\ (length validated <= length data)%nat.
Proof.
  induction data as [|x data (v & Hv & Hall & Hlen)]; simpl.
  - exists []. split; [done|]. split; [constructor | done].
  - pose proof (validate_topic_item_cases x) as Hx.
    destruct (validate_topic_item x) as [[t|]|e]; [| |done]; simpl; rewrite Hv; simpl.
    + exists (t :: v). split; [done|]. split; [by constructor | simpl; lia].
    + exists v. split; [done|]. split; [done | lia].
Qed.

Lemma validate_topics_loop_app (data1 data2 : list value) :
  validate_topics_loop (data1 ++ data2)
  = (v1 ← validate_topics_loop data1;
     v2 ← validate_topics_loop data2;
     Ok (v1 ++ v2)).
Proof.
  induction data1 as [|x data1 IH]; simpl.
  - by destruct (validate_topics_loop data2).
  - destruct (validate_topic_item x) as [r|e]; simpl; [|done].
    rewrite IH.
    destruct (validate_topics_loop data1) as [v1|e]; simpl; [|done].
    destruct (validate_topics_loop data2) as [v2|e]; simpl; [|done].
    by destruct r.
Qed.

(** X1. [_validate_topics] never raises; it returns at most five topics, each
    with a title of 1 to 30 characters, a detail of 1 to 200 characters
    and 1 to 5 contributors of 1 to 20 characters. *)
Theorem validate_topics_bounds (data : list value) :
  exists out,
    _validate_topics data = Ok out
    /\ (length out <= 5)%nat
    /\ (length out <= length data)%nat
    /\ Forall topic_ok out.
Proof.
  destruct (validate_topics_loop_cases data) as (v & Hv & Hall & Hlen).
  exists (take 5 v). unfold _validate_topics. rewrite Hv. simpl.
  split; [done|]. split; [rewrite length_take; lia|].
  split; [rewrite length_take; lia | by apply Forall_take].
Qed.

(** X2. An element that yields no topic does not count towards the five, and
    once five topics are found the rest of the batch has no effect on the
    result. *)
Theorem validate_topics_cap (data1 data2 : list value) (x : value) (v1 : list Topic.t) :
  validate_topics_loop data1 = Ok v1 ->
  (validate_topic_item x = Ok None ->
   _validate_topics (data1 ++ x :: data2) = _validate_topics (data1 ++ data2))
  /\ ((5 <= length v1)%nat ->
      _validate_topics (data1 ++ data2) = Ok (take 5 v1)).
Proof.
  intros H1. unfold _validate_topics. split.
  - intros Hx. rewrite !validate_topics_loop_app. cbn [validate_topics_loop].
    rewrite Hx, H1. simpl. by destruct (validate_topics_loop data2).
  - intros Hlen. rewrite validate_topics_loop_app, H1. simpl.
    destruct (validate_topics_loop_cases data2) as (v2 & -> & _). simpl.
    by rewrite take_app_le.
Qed.

(** *** Quotes *)

Lemma MENTION_sub_empty_go_length s : forall skip,
  (length (MENTION_sub_empty_go s skip) <= length s)%nat.
Proof.
  induction s as [|c s IH]; intros skip; simpl; [lia|].
  destruct skip as [|k]; [|specialize (IH k); lia].
  destruct (c =? 0x40).
  - destruct (mention_length s) as [n|]; [specialize (IH n) | specialize (IH O)];
      simpl; lia.
  - specialize (IH O). simpl. lia.
Qed.

(** A text without [@] has no mention. *)
Lemma MENTION_sub_empty_no_at s : 0x40 ∉ s -> MENTION_sub_empty s = s.
Proof.
  unfold MENTION_sub_empty. induction s as [|c s IH]; simpl; [done|].
  intros [Hc Hs]%not_elem_of_cons.
  destruct (Z.eqb_spec c 0x40); [congruence|]. by rewrite IH.
Qed.

(** The run of a class in front of a text that cannot continue it. *)
Lemma plus_then_run (C : Z -> bool) (k : pystr -> option nat) (run t : pystr) :
  run ≠ [] -> Forall (fun c => C c = true) run ->
  (forall c t', C c = true -> k (c :: t') = None) ->
  plus_then C k t = None ->
  plus_then C k (run ++ t) = (fun n => length run + n)%nat <$> k t.
Proof.
  intros Hne Hrun Hk Ht. induction Hrun as [|c run Hc Hrun IH]; [done|].
  cbn [app plus_then]. rewrite Hc.
  destruct run as [|c' run'].
  - cbn [app]. rewrite Ht. by destruct (k t).
  - rewrite IH by done.
    destruct (k t) as [n|]; [done|]. cbn [fmap option_fmap option_map].
    inversion Hrun as [|? ? Hc' _]; subst. cbn [app]. by rewrite Hk.
Qed.

Lemma leading_blanks_app (blanks rest : pystr) :
  Forall (fun c => is_space c = true) blanks ->
  (forall c t, rest = c :: t -> is_space c = false) ->
  leading_blanks (blanks ++ rest) = length blanks.
Proof.
  intros Hb Hr. induction Hb as [|c blanks Hc _ IH]; cbn [app leading_blanks length].
  - destruct rest as [|c t]; [done|]. cbn [leading_blanks]. by rewrite (Hr c t).
  - by rewrite Hc, IH.
Qed.

Lemma MENTION_sub_empty_go_skip (l rest : pystr) :
  MENTION_sub_empty_go (l ++ rest) (length l) = MENTION_sub_empty_go rest O.
Proof. induction l as [|c l IH]; simpl; [by destruct rest | done]. Qed.

(** X3. [_validate_quotes] strips mentions: a mention [@name<id>] and the
    blanks after it are deleted, wherever the class [\d] does not hold
    the closing bracket; a text without [@] is left as it is. *)
Theorem mention_removed (name digits blanks rest : pystr) :
  name ≠ [] -> Forall (fun c => c ≠ 0x3C /\ is_space c = false) name ->
  digits ≠ [] -> Forall (fun c => re_digit c = true) digits ->
  re_digit 0x3E = false ->
  Forall (fun c => is_space c = true) blanks ->
  (forall c t, rest = c :: t -> is_space c = false) ->
  MENTION_sub_empty
    ([0x40] ++ name ++ [0x3C] ++ digits ++ [0x3E] ++ blanks ++ rest)
  = MENTION_sub_empty rest
  /\ (0x40 ∉ rest -> MENTION_sub_empty rest = rest).
Proof.
  intros Hname Hnc Hdig Hdc Hgt Hblank Hrest.
  split; [|apply MENTION_sub_empty_no_at].
  unfold MENTION_sub_empty. cbn [app MENTION_sub_empty_go].
  assert (mention_length (name ++ 0x3C :: digits ++ 0x3E :: blanks ++ rest)
          = Some (length (name ++ 0x3C :: digits ++ 0x3E :: blanks))) as ->.
  { assert (Forall (fun c => negb (c =? 0x3C) && negb (is_space c) = true) name) as Hnc'.
    { eapply Forall_impl; [exact Hnc|]. intros c [Hc1 Hc2]. cbn beta.
      rewrite Hc2. by destruct (Z.eqb_spec c 0x3C). }
    unfold mention_length.
    rewrite (plus_then_run _ _ name (0x3C :: digits ++ 0x3E :: blanks ++ rest) Hname Hnc');
      [|intros c t' Hc; apply andb_true_iff in Hc as [Hc _]; by destruct (c =? 0x3C)
       |done].
    cbn [Z.eqb Pos.eqb].
    rewrite (plus_then_run _ _ digits (0x3E :: blanks ++ rest) Hdig Hdc);
      [|intros c t' Hc; destruct (Z.eqb_spec c 0x3E) as [->|]; [congruence | done]
       |cbn [plus_then]; by rewrite Hgt].
    cbn [Z.eqb Pos.eqb]. rewrite leading_blanks_app by done.
    cbn [fmap option_fmap option_map]. f_equal.
    rewrite !length_app. cbn [length]. rewrite !length_app. cbn [length]. lia. }
  replace (name ++ 0x3C :: digits ++ 0x3E :: blanks ++ rest)
    with ((name ++ 0x3C :: digits ++ 0x3E :: blanks) ++ rest)
    by (rewrite <- !app_assoc; cbn [app]; rewrite <- !app_assoc; done).
  apply MENTION_sub_empty_go_skip.
Qed.

(** One element of the quotes: skipped, or a quote within bounds. *)
Lemma validate_quote_item_cases (x : value) :
  0 <= MAX_REASON_LENGTH ->
  match validate_quote_item x with
  | Ok None => True
  | Ok (Some q) => quote_ok q
  | Raise _ => False
  end.
Proof.
  intros Hmax. destruct x as [| | | | | |item]; try done.
  unfold validate_quote_item.
  destruct (has_keys item _) eqn:Hk; [|done]. cbn [negb].
  destruct (has_keys_lookup _ _ (lit "content") Hk) as (cv & _ & ->); [set_solver|].
  destruct (has_keys_lookup _ _ (lit "sender") Hk) as (sv & _ & ->); [set_solver|].
  destruct (has_keys_lookup _ _ (lit "reason") Hk) as (rv & _ & ->); [set_solver|].
  cbn [mbind result_bind].
  destruct (bool_decide (strip _ = [])) eqn:Hc; [done|].
  destruct (bool_decide (slice_to (py_str sv) 50 = [])) eqn:Hs; [done|].
  destruct (bool_decide (slice_to (py_str rv) MAX_REASON_LENGTH = [])) eqn:Hr; [done|].
  cbn [orb]. apply bool_decide_eq_false in Hc, Hs, Hr.
  unfold quote_ok. cbn [Quote.content Quote.sender Quote.reason].
  split; [|split; [apply strip_idemp | split]].
  - unfold sized. split.
    + destruct (strip _); [done | simpl; lia].
    + etrans; [apply strip_length|].
      etrans; [apply MENTION_sub_empty_go_length|].
      apply (slice_to_length _ 200). lia.
  - by apply (slice_to_sized_Z _ 50).
  - by apply slice_to_sized_Z.
Qed.

(** X4. [_validate_quotes] never raises; the reason bound being no negative
    number, every quote it returns has a content of 1 to 200 characters
    without blanks at either end, a sender of 1 to 50 characters and a
    reason of at least one character within the bound. *)
Theorem validate_quotes_bounds (data : list value) :
  0 <= MAX_REASON_LENGTH ->
  exists out,
    _validate_quotes data = Ok out
    /\ (length out <= length data)%nat
    /\ Forall quote_ok out.
Proof.
  intros Hmax. induction data as [|x data (v & Hv & Hlen & Hall)]; simpl.
  - exists []. split; [done|]. split; [done | constructor].
  - pose proof (validate_quote_item_cases x Hmax) as Hx.
    destruct (validate_quote_item x) as [[q|]|e]; [| |done]; simpl; rewrite Hv; simpl.
    + exists (q :: v). split; [done|]. split; [simpl; lia | by constructor].
    + exists v. split; [done|]. split; [lia | done].
Qed.

(** *** The single profile *)

Lemma profile_score_cases (data : pydict) key :
  match py_int (dict_get data key (VInt 50)) with
  | Ok n => profile_score data key = Ok (Z.max 0 (Z.min 100 n))
  | Raise OverflowError => profile_score data key = Raise OverflowError
  | Raise _ => profile_score data key = Ok 50
  end.
Proof.
  unfold profile_score.
  destruct (py_int _) as [n|e] eqn:Hint; simpl; [done|].
  destruct (py_int_raises _ _ Hint) as [->| [->| ->]]; done.
Qed.

Lemma profile_score_ok (data : pydict) key n :
  profile_score data key = Ok n -> 0 <= n <= 100.
Proof.
  pose proof (profile_score_cases data key) as H.
  destruct (py_int _) as [m|[]]; rewrite H; intros [= <-]; lia.
Qed.

Lemma profile_score_raise (data : pydict) key e :
  profile_score data key = Raise e -> e = OverflowError.
Proof.
  pose proof (profile_score_cases data key) as H.
  destruct (py_int _) as [m|[]]; rewrite H; try done. by intros [= <-].
Qed.

Lemma clean_tags_sized (tags : list value) :
  (length (clean_tags tags) <= 3)%nat /\ Forall (sized 3 18) (clean_tags tags).
Proof.
  unfold clean_tags. split.
  - rewrite length_map. etrans; [apply List.filter_length_le|].
    rewrite length_take. lia.
  - induction (take 3 tags) as [|tag l IH]; cbn [map List.filter]; [constructor|].
    destruct (3 <=? length (strip (py_str tag)))%nat eqn:Hlen; [|done].
    cbn [map]. constructor; [|done]. apply Nat.leb_le in Hlen.
    pose proof (strip_length (py_str tag)) as Hs. unfold sized, slice_to.
    cbn [Z.leb Z.compare]. rewrite length_take. lia.
Qed.

Lemma validate_user_profile_body_cases (data : value) :
  match validate_user_profile_body data with
  | Ok (Some p) => profile_ok p
  | Ok None => True
  | Raise e => e = OverflowError
  end.
Proof.
  destruct data as [| | | | | |data]; try done.
  unfold validate_user_profile_body.
  destruct (has_keys data _); [|done]. cbn [negb].
  pose proof (profile_score_ok data (lit "fun_score")) as Hf'.
  pose proof (profile_score_raise data (lit "fun_score")) as Hf.
  destruct (profile_score data (lit "fun_score")) as [fs|e]; [|by apply Hf].
  pose proof (profile_score_ok data (lit "topic_leadership")) as Ht'.
  pose proof (profile_score_raise data (lit "topic_leadership")) as Ht.
  cbn [mbind result_bind].
  destruct (profile_score data (lit "topic_leadership")) as [ts|e]; [|by apply Ht].
  pose proof (profile_score_ok data (lit "mood_score")) as Hm'.
  pose proof (profile_score_raise data (lit "mood_score")) as Hm.
  cbn [mbind result_bind].
  destruct (profile_score data (lit "mood_score")) as [ms|e]; [|by apply Hm].
  cbn [mbind result_bind].
  destruct (bool_decide (clean_tags _ = [])) eqn:H1; [done|].
  destruct (bool_decide (slice_to _ 30 = [])) eqn:H2; [done|].
  destruct (bool_decide (slice_to (py_str (dict_get data (lit "fun_comment") _)) 60 = []))
    eqn:H3; [done|].
  destruct (bool_decide (slice_to (py_str (dict_get data (lit "topic_comment") _)) 60 = []))
    eqn:H4; [done|].
  destruct (bool_decide (slice_to (py_str (dict_get data (lit "rank_title") _)) 30 = []))
    eqn:H5; [done|].
  destruct (bool_decide (slice_to _ 70 = [])) eqn:H6; [done|].
  destruct (bool_decide (slice_to _ 50 = [])) eqn:H7; [done|].
  cbn [orb]. apply bool_decide_eq_false in H1, H2, H3, H4, H5, H6, H7.
  destruct (clean_tags_sized
              match dict_get data (lit "tags") (VList []) with
              | VList l => l
              | _ => []
              end) as [Hlen Hall].
  unfold profile_ok.
  cbn [Profile.tags Profile.active_time Profile.fun_score Profile.fun_comment
       Profile.topic_leadership Profile.topic_comment Profile.rank_title
       Profile.rank_desc Profile.mood Profile.mood_score Profile.mood_reason].
  split; [destruct (clean_tags _); [done | simpl in *; lia]|].
  split; [done|].
  split; [by apply (slice_to_sized_Z _ 30)|].
  split; [by apply Hf'|].
  split; [by apply (slice_to_sized_Z _ 60)|].
  split; [by apply Ht'|].
  split; [by apply (slice_to_sized_Z _ 60)|].
  split; [by apply (slice_to_sized_Z _ 30)|].
  split; [by apply (slice_to_sized_Z _ 70)|].
  split; [|split; [by apply Hm' | by apply (slice_to_sized_Z _ 50)]].
  case_bool_decide as Hmood; cbn [negb]; [done|].
  apply list_elem_of_further, list_elem_of_here.
Qed.

(** X5. [_validate_user_profile] never raises, and a profile it returns is
    within bounds: 1 to 3 tags of 3 to 18 characters, the three scores in
    [0,100], the mood one of the three moods, and the six texts not empty
    and no longer than 30, 60, 60, 30, 70 and 50 characters. *)
Theorem validate_user_profile_bounds (data : value) :
  exists r,
    _validate_user_profile data = Ok r
    /\ forall p, r = Some p -> profile_ok p.
Proof.
  unfold _validate_user_profile.
  pose proof (validate_user_profile_body_cases data) as H.
  destruct (validate_user_profile_body data) as [[p|]|e]; simpl.
  - exists (Some p). split; [done|]. by intros ? [= <-].
  - exists None. by split.
  - exists None. by split.
Qed.

(** X6. A score of the profile on which [int] raises [OverflowError] (an
    infinite float) makes the whole profile be rejected, whereas one on
    which it raises [ValueError] or [TypeError] is replaced by 50. *)
Theorem profile_score_fallback (data : pydict) (key : pystr) (e : exn) :
  key ∈ [lit "fun_score"; lit "topic_leadership"; lit "mood_score"] ->
  py_int (dict_get data key (VInt 50)) = Raise e ->
  (e = OverflowError -> _validate_user_profile (VDict data) = Ok None)
  /\ (e = ValueError \/ e = TypeError -> profile_score data key = Ok 50).
Proof.
  intros Hkey Hint. pose proof (profile_score_cases data key) as Hc.
  rewrite Hint in Hc. split.
  - intros ->. unfold _validate_user_profile, validate_user_profile_body.
    destruct (has_keys data _); [|done]. cbn [negb].
    repeat (apply elem_of_cons in Hkey as [->|Hkey]);
      [| | |by apply not_elem_of_nil in Hkey].
    + by rewrite Hc.
    + destruct (profile_score data (lit "fun_score")); [|done].
      cbn [mbind result_bind]. by rewrite Hc.
    + destruct (profile_score data (lit "fun_score")); [|done].
      cbn [mbind result_bind].
      destruct (profile_score data (lit "topic_leadership")); [|done].
      cbn [mbind result_bind]. by rewrite Hc.
  - by intros [-> | ->].
Qed.

(** *** Titles and rank entries *)

Lemma nickname_is_true (st : UserStats.t) name :
  nickname_is st name = true <-> UserStats.nickname st = VStr name.
Proof.
  unfold nickname_is. destruct (UserStats.nickname st); try (split; done).
  rewrite bool_decide_eq_true. split; [by intros -> | by intros [= ->]].
Qed.

(** The search attaches the key of the first entry with the nickname, or
    nothing when there is none. *)
Lemma match_user_id_backfilled user_stats name :
  backfilled user_stats name (match_user_id user_stats name).
Proof.
  destruct user_stats as [items|]; [|done]. simpl.
  induction items as [|[uid st] items IH]; simpl.
  - right. split; [constructor | done].
  - destruct (nickname_is st name) eqn:Hn.
    + left. exists [], st, items. split; [done|].
      split; [by apply nickname_is_true | constructor].
    + assert (UserStats.nickname st ≠ VStr name) as Hne.
      { intros H%nickname_is_true. congruence. }
      destruct IH as [(before & st' & after & Heq & Hst & Hb) | [Hnone Hnil]].
      * left. exists ((uid, st) :: before), st', after.
        split; [by rewrite Heq at 1|]. split; [done | by constructor].
      * right. split; [by constructor | done].
Qed.

Lemma validate_title_item_cases user_stats (x : value) :
  0 <= MAX_TITLE_LENGTH -> 0 <= MAX_REASON_LENGTH ->
  match validate_title_item user_stats x with
  | Ok (Some p) =>
      title_ok p
      /\ backfilled user_stats (TitledProfile.name p) (TitledProfile.user_id p)
  | Ok None => True
  | Raise _ => False
  end.
Proof.
  intros Ht0 Hr0. destruct x as [| | | | | |item]; try done.
  destruct (has_keys item [lit "name"; lit "title"; lit "mbti"; lit "reason"]) eqn:Hk;
    [|unfold validate_title_item; by rewrite Hk].
  destruct (has_keys_lookup _ _ (lit "name") Hk) as (nv & Hn & _); [set_solver|].
  destruct (has_keys_lookup _ _ (lit "title") Hk) as (tv & Ht & _); [set_solver|].
  destruct (has_keys_lookup _ _ (lit "mbti") Hk) as (mv & Hm & _); [set_solver|].
  destruct (has_keys_lookup _ _ (lit "reason") Hk) as (rv & Hr & _); [set_solver|].
  rewrite (validate_title_item_dict user_stats item nv tv mv rv Hn Ht Hm Hr).
  destruct (bool_decide (slice_to (py_str nv) 50 = [])) eqn:H1; [done|].
  destruct (bool_decide (slice_to (py_str tv) MAX_TITLE_LENGTH = [])) eqn:H2; [done|].
  destruct (bool_decide (slice_to (py_str rv) MAX_REASON_LENGTH = [])) eqn:H3; [done|].
  cbn [orb]. apply bool_decide_eq_false in H1, H2, H3.
  split; [|apply match_user_id_backfilled].
  unfold title_ok.
  cbn [TitledProfile.name TitledProfile.title TitledProfile.mbti TitledProfile.reason].
  split; [by apply (slice_to_sized_Z _ 50)|].
  split; [by apply slice_to_sized_Z|].
  split; [|by apply slice_to_sized_Z].
  case_bool_decide as Hmbti; cbn [negb]; [done|].
  unfold valid_mbti_types. do 7 apply list_elem_of_further. apply list_elem_of_here.
Qed.

(** X7. [_validate_titles] never raises; the two configured bounds being no
    negative numbers, every profile it returns has a name of 1 to 50
    characters, a title and a reason that are not empty and within their
    bounds, a tag among the sixteen codes, and as user id the key of the
    first entry of the statistics whose nickname is the name, or the empty
    text when there is none. *)
Theorem validate_titles_bounds
    (data : list value) (user_stats : option (list (pystr * UserStats.t))) :
  0 <= MAX_TITLE_LENGTH -> 0 <= MAX_REASON_LENGTH ->
  exists out,
    _validate_titles data user_stats = Ok out
    /\ (length out <= length data)%nat
    /\ Forall (fun p =>
                 title_ok p
                 /\ backfilled user_stats (TitledProfile.name p) (TitledProfile.user_id p))
         out.
Proof.
  intros Ht0 Hr0. induction data as [|x data (v & Hv & Hlen & Hall)]; simpl.
  - exists []. split; [done|]. split; [done | constructor].
  - pose proof (validate_title_item_cases user_stats x Ht0 Hr0) as Hx.
    destruct (validate_title_item user_stats x) as [[p|]|e]; [| |done];
      simpl; rewrite Hv; simpl.
    + exists (p :: v). split; [done|]. split; [simpl; lia | by constructor].
    + exists v. split; [done|]. split; [lia | done].
Qed.

Lemma validate_depression_item_entry user_stats (x : value) entry :
  validate_depression_item user_stats x = Ok (Some entry) ->
  rank_entry_ok entry
  /\ backfilled user_stats (RankEntry.name entry) (RankEntry.user_id entry).
Proof.
  destruct x as [| | | | | |item]; try done.
  destruct (has_keys item [lit "name"; lit "rank"; lit "comment"]) eqn:Hk;
    [|unfold validate_depression_item; by rewrite Hk].
  destruct (validate_depression_item_keys user_stats item Hk) as (n & r & c & Hn & Hr & Hc).
  rewrite (validate_depression_item_dict user_stats item n r c Hn Hr Hc).
  case_bool_decide as Hrank; cbn [negb]; [|done].
  destruct (bool_decide (slice_to (py_str n) 50 = [])) eqn:H1; [done|].
  destruct (bool_decide (strip (py_upper (py_str r)) = [])) eqn:H2; [done|].
  destruct (bool_decide (slice_to (py_str c) 60 = [])) eqn:H3; [done|].
  cbn [orb]. apply bool_decide_eq_false in H1, H3.
  destruct (extract_score item _) as [score|e] eqn:Hs; [|done].
  cbn [mbind result_bind]. intros [= <-].
  split; [|apply match_user_id_backfilled].
  unfold rank_entry_ok.
  cbn [RankEntry.name RankEntry.rank RankEntry.score RankEntry.comment].
  split; [by apply (slice_to_sized_Z _ 50)|]. split; [done|].
  split; [by apply extract_score_ok in Hs | by apply (slice_to_sized_Z _ 60)].
Qed.

Lemma validate_depression_loop_entries user_stats data validated :
  validate_depression_loop user_stats data = Ok validated ->
  (length validated <= length data)%nat
  /\ Forall (fun entry =>
               rank_entry_ok entry
               /\ backfilled user_stats (RankEntry.name entry) (RankEntry.user_id entry))
       validated.
Proof.
  revert validated. induction data as [|x data IH]; simpl; intros validated.
  - intros [= <-]. split; [done | constructor].
  - destruct (validate_depression_item user_stats x) as [r|e] eqn:Hx; simpl; [|done].
    destruct (validate_depression_loop user_stats data) as [v|e]; simpl; [|done].
    destruct (IH v eq_refl) as [Hlen Hall]. intros [= <-].
    destruct r as [entry|]; [|split; [lia | done]].
    split; [simpl; lia|]. constructor; [|done].
    by apply (validate_depression_item_entry user_stats x).
Qed.

(** X8. Every entry returned by [_validate_depression_index] has a name of 1
    to 50 characters, a rank among S, A, B, C, D, a score in [0,150] and a
    comment of 1 to 60 characters, and as user id the key of the first
    entry of the statistics whose nickname is the name, or the empty text
    when there is none; there are no more entries than elements. *)
Theorem validate_depression_index_entries
    (data : list value) (user_stats : option (list (pystr * UserStats.t)))
    (out : list RankEntry.t) :
  _validate_depression_index data user_stats = Ok out ->
  (length out <= length data)%nat
  /\ Forall (fun entry =>
               rank_entry_ok entry
               /\ backfilled user_stats (RankEntry.name entry) (RankEntry.user_id entry))
       out.
Proof.
  unfold _validate_depression_index.
  destruct (validate_depression_loop user_stats data) as [v|e] eqn:Hv; simpl; [|done].
  intros [= <-]. destruct (validate_depression_loop_entries _ _ _ Hv) as [Hlen Hall].
  pose proof (sort_desc_perm RankEntry.score v) as Hperm.
  split; [by rewrite Hperm | by rewrite Hperm].
Qed.

End MoreValidatorFacts.

(** ** Per-user statistics *)

Section PerUserFacts.
Context {RT : PyRuntime} {CFG : AnalysisConfig}.

Lemma assoc_set_keys {V} (d : list (pystr * V)) k v :
  map fst (assoc_set k v d)
  = if decide (k ∈ map fst d) then map fst d else map fst d ++ [k].
Proof.
  induction d as [|[k' v'] d IH]; cbn [assoc_set map fst].
  - by rewrite decide_False by apply not_elem_of_nil.
  - destruct (decide (k' = k)) as [->|Hne]; cbn [map fst].
    + by rewrite decide_True by apply list_elem_of_here.
    + rewrite IH.
      assert (k ∈ map fst d \/ k ∉ map fst d) as [Hin|Hnin]
        by (destruct (decide (k ∈ map fst d)); tauto).
      * rewrite (decide_True (P := k ∈ map fst d)) by done.
        by rewrite decide_True by (by apply list_elem_of_further).
      * rewrite (decide_False (P := k ∈ map fst d)) by done.
        rewrite decide_False; [done|].
        intros [Heq|Hin]%elem_of_cons; [congruence | done].
Qed.

Lemma assoc_get_keys {V} (d : list (pystr * V)) k :
  k ∈ map fst d <-> is_Some (assoc_get k d).
Proof.
  induction d as [|[k' v'] d IH]; simpl.
  - split; [by intros ?%not_elem_of_nil | by intros [? ?]].
  - destruct (decide (k' = k)) as [->|Hne].
    + split; [by eexists | intros _; apply list_elem_of_here].
    + rewrite elem_of_cons, IH.
      split; [intros [Heq|H]; [congruence | done] | by right].
Qed.

Lemma first_seen_step (keys fs : list pystr) k :
  keys ++ filter (fun k' => k' ∉ keys) (k :: filter (fun k' => k' ≠ k) fs)
  = (if decide (k ∈ keys) then keys else keys ++ [k])
    ++ filter (fun k' => k' ∉ (if decide (k ∈ keys) then keys else keys ++ [k])) fs.
Proof.
  rewrite filter_cons.
  assert (k ∈ keys \/ k ∉ keys) as [Hin|Hnin] by (destruct (decide (k ∈ keys)); tauto).
  - rewrite (decide_False (P := k ∉ keys)) by tauto.
    rewrite !(decide_True (P := k ∈ keys)) by done. f_equal.
    rewrite list_filter_filter. apply list_filter_iff.
    intros k'. split; [tauto|]. intros Hk'. split; [done | congruence].
  - rewrite (decide_True (P := k ∉ keys)) by done.
    rewrite !(decide_False (P := k ∈ keys)) by done.
    rewrite <- app_assoc. cbn [app]. do 2 f_equal.
    rewrite list_filter_filter. apply list_filter_iff.
    intros k'. rewrite elem_of_app, list_elem_of_singleton. tauto.
Qed.

(** The keys grow by the ids not yet seen, in the order of the messages. *)
Lemma analyze_user_stats_loop_keys messages : forall acc out,
  analyze_user_stats_loop acc messages = Ok out ->
  [] ∉ map fst acc ->
  map fst out
  = map fst acc
    ++ filter (fun k => k ∉ map fst acc) (first_seen (counted_ids messages)).
Proof.
  induction messages as [|msg rest IH]; intros acc out; cbn [analyze_user_stats_loop].
  - intros [= <-] _. unfold counted_ids. simpl. by rewrite app_nil_r.
  - destruct (analyze_user_stats_step acc msg) as [acc'|e] eqn:Hstep;
      cbn [mbind result_bind]; [|done].
    intros Hloop Hacc.
    destruct (analyze_user_stats_step_ok _ _ _ Hstep)
      as [[Hskip ->]|(Hhas & hour & _ & ->)].
    + unfold has_user_id in Hskip. apply negb_false_iff, bool_decide_eq_true in Hskip.
      rewrite (IH _ _ Hloop Hacc). unfold counted_ids. cbn [map].
      rewrite filter_cons.
      by rewrite (decide_False (P := msg_user_id msg ≠ [])) by (rewrite Hskip; tauto).
    + unfold has_user_id in Hhas. apply negb_true_iff, bool_decide_eq_false in Hhas.
      rewrite (IH _ _ Hloop); rewrite assoc_set_keys.
      * unfold counted_ids. cbn [map]. rewrite filter_cons.
        rewrite (decide_True (P := msg_user_id msg ≠ [])) by done.
        cbn [first_seen]. by rewrite first_seen_step.
      * destruct (decide _); [done|]. rewrite not_elem_of_app, list_elem_of_singleton.
        split; [done | congruence].
Qed.

Lemma filter_all {A} (P : A -> Prop) `{forall x, Decision (P x)} (l : list A) :
  (forall x, P x) -> filter P l = l.
Proof.
  intros HP. induction l as [|x l IH]; [done|].
  by rewrite filter_cons_True, IH.
Qed.

Lemma first_seen_NoDup (ids : list pystr) : NoDup (first_seen ids).
Proof.
  induction ids as [|k ids IH]; simpl; constructor.
  - rewrite list_elem_of_filter. tauto.
  - by apply NoDup_filter.
Qed.

Lemma first_seen_elem (ids : list pystr) k : k ∈ first_seen ids <-> k ∈ ids.
Proof.
  induction ids as [|k' ids IH]; simpl; [done|].
  rewrite !elem_of_cons, list_elem_of_filter, IH.
  destruct (decide (k = k')) as [->|Hne]; [split; by left|].
  split; [intros [Heq|[_ H]]; [congruence | by right] | intros [Heq|H]; [congruence | by right]].
Qed.

Lemma analyze_user_stats_step_text acc msg acc' :
  analyze_user_stats_step acc msg = Ok acc' -> has_user_id msg = true ->
  as_text (or_empty (dict_get msg (lit "processed_plain_text") VNone))
  = Ok (msg_text msg).
Proof.
  unfold analyze_user_stats_step, has_user_id, msg_text.
  case_bool_decide; [done|]. intros Hok _.
  by destruct (or_empty _).
Qed.

Lemma entry_counters_set_eq acc uid st :
  entry_counters (assoc_set uid st acc) uid
  = (UserStats.message_count st, UserStats.char_count st,
     UserStats.emoji_count st, UserStats.hours st).
Proof. unfold entry_counters. by rewrite assoc_get_set_eq. Qed.

Lemma entry_counters_set_ne acc uid uid' st :
  uid ≠ uid' -> entry_counters (assoc_set uid st acc) uid' = entry_counters acc uid'.
Proof. intros H. unfold entry_counters. by rewrite assoc_get_set_ne. Qed.

(** The entry of a user evolves as the single-user loop does on the
    messages of that user. *)
Lemma analyze_user_stats_loop_single messages : forall acc out uid,
  analyze_user_stats_loop acc messages = Ok out -> uid ≠ [] ->
  analyze_single_user_stats_loop (entry_counters acc uid)
    (filter_user_messages messages uid)
  = Ok (entry_counters out uid).
Proof.
  induction messages as [|msg rest IH]; intros acc out uid;
    cbn [analyze_user_stats_loop].
  - by intros [= <-] _.
  - destruct (analyze_user_stats_step acc msg) as [acc'|e] eqn:Hstep;
      cbn [mbind result_bind]; [|done].
    intros Hloop Huid. specialize (IH _ _ _ Hloop Huid).
    unfold filter_user_messages in *. rewrite filter_cons.
    destruct (analyze_user_stats_step_ok _ _ _ Hstep)
      as [[Hskip ->]|(Hhas & hour & Hhour & ->)].
    + unfold has_user_id in Hskip. apply negb_false_iff, bool_decide_eq_true in Hskip.
      by rewrite decide_False by congruence.
    + pose proof (analyze_user_stats_step_text _ _ _ Hstep Hhas) as Htext.
      destruct (decide (msg_user_id msg = uid)) as [Heq|Hne].
      * rewrite Heq in *. rewrite entry_counters_set_eq in IH.
        cbn [analyze_single_user_stats_loop]. unfold analyze_single_user_stats_step.
        unfold entry_counters at 1.
        destruct (assoc_get uid acc) as [st|]; cbn [default] in IH;
          rewrite Htext, Hhour; cbn [mbind result_bind]; exact IH.
      * by rewrite entry_counters_set_ne in IH.
Qed.

(** What the single-user loop adds to its four counters. *)
Lemma analyze_single_user_stats_loop_counts messages : forall acc out,
  analyze_single_user_stats_loop acc messages = Ok out ->
  out.1.1.1 = (acc.1.1.1 + length messages)%nat
  /\ out.1.1.2 = (acc.1.1.2 + char_sum messages)%nat
  /\ sum_list (map (counter_get out.2) (seqZ 0 24))
     = (sum_list (map (counter_get acc.2) (seqZ 0 24)) + length messages)%nat.
Proof.
  induction messages as [|msg rest IH]; intros acc out;
    cbn [analyze_single_user_stats_loop].
  - intros [= <-]. unfold char_sum. cbn [map sum_list sum_list_with length]. lia.
  - destruct acc as [[[mc cc] ec] hours]. unfold analyze_single_user_stats_step.
    destruct (as_text _) as [text|e] eqn:Htext; cbn [mbind result_bind]; [|done].
    destruct (fromtimestamp_hour _) as [hour|e] eqn:Hhour; cbn [mbind result_bind];
      [|done].
    intros Hloop. destruct (IH _ _ Hloop) as (Hmc & Hcc & Hh).
    apply fromtimestamp_hour_range in Hhour.
    rewrite Hmc, Hcc, Hh. cbn [fst snd]. unfold char_sum.
    cbn [map sum_list sum_list_with length].
    rewrite (as_text_msg_text _ _ Htext).
    rewrite counter_incr_sum by apply NoDup_seqZ.
    rewrite decide_True by (apply elem_of_seqZ; lia). unfold id. lia.
Qed.

Lemma filter_user_messages_elem messages uid :
  uid ∈ map msg_user_id messages ->
  exists msg rest, filter_user_messages messages uid = msg :: rest.
Proof.
  intros (msg & Hid & Hin)%list_elem_of_fmap.
  assert (msg ∈ filter_user_messages messages uid) as Hm.
  { unfold filter_user_messages. rewrite list_elem_of_filter. by split. }
  destruct (filter_user_messages messages uid) as [|m r]; [by apply not_elem_of_nil in Hm|].
  by exists m, r.
Qed.

(** The nickname and the id of an entry are those set on its creation. *)
Lemma analyze_user_stats_loop_nickname messages : forall acc out uid st,
  analyze_user_stats_loop acc messages = Ok out -> uid ≠ [] ->
  assoc_get uid out = Some st ->
  match assoc_get uid acc with
  | Some st0 =>
      UserStats.nickname st = UserStats.nickname st0
      /\ UserStats.user_id st = UserStats.user_id st0
  | None =>
      exists msg rest,
        filter_user_messages messages uid = msg :: rest
        /\ UserStats.nickname st = msg_nickname msg
        /\ UserStats.user_id st = uid
  end.
Proof.
  induction messages as [|msg rest IH]; intros acc out uid st;
    cbn [analyze_user_stats_loop].
  - intros [= <-] _ ->. done.
  - destruct (analyze_user_stats_step acc msg) as [acc'|e] eqn:Hstep;
      cbn [mbind result_bind]; [|done].
    intros Hloop Huid Hget. specialize (IH _ _ _ _ Hloop Huid Hget).
    unfold filter_user_messages in *. rewrite filter_cons.
    destruct (analyze_user_stats_step_ok _ _ _ Hstep)
      as [[Hskip ->]|(Hhas & hour & Hhour & ->)].
    + unfold has_user_id in Hskip. apply negb_false_iff, bool_decide_eq_true in Hskip.
      by rewrite decide_False by congruence.
    + destruct (decide (msg_user_id msg = uid)) as [Heq|Hne].
      * rewrite Heq in *. rewrite assoc_get_set_eq in IH.
        destruct (assoc_get uid acc) as [st0|]; cbn [default] in IH; [done|].
        exists msg, (filter (fun m => msg_user_id m = uid) rest).
        split; [done|]. by destruct IH.
      * by rewrite assoc_get_set_ne in IH.
Qed.

(** X9. After [analyze_user_stats] the keys are the user ids of the counted
    messages in the order of their first message, without repetition, and
    the entry of each user carries that id, the nickname of the user's
    first message, the number of the user's messages and the total length
    of their texts. *)
Theorem analyze_user_stats_entries
    (messages : list pydict) (user_stats : list (pystr * UserStats.t)) :
  analyze_user_stats messages = Ok user_stats ->
  map fst user_stats = first_seen (counted_ids messages)
  /\ NoDup (map fst user_stats)
  /\ forall user_id stats,
       assoc_get user_id user_stats = Some stats ->
       user_id ≠ []
       /\ UserStats.user_id stats = user_id
       /\ exists first rest,
            filter_user_messages messages user_id = first :: rest
            /\ UserStats.nickname stats = msg_nickname first
            /\ UserStats.message_count stats = length (first :: rest)
            /\ UserStats.char_count stats = char_sum (first :: rest).
Proof.
  unfold analyze_user_stats. intros Hrun.
  pose proof (analyze_user_stats_loop_keys messages [] user_stats Hrun
                ltac:(apply not_elem_of_nil)) as Hkeys.
  cbn [map app] in Hkeys.
  rewrite filter_all in Hkeys by (intros k; apply not_elem_of_nil).
  split; [done|]. split; [rewrite Hkeys; apply first_seen_NoDup|].
  intros uid st Hget.
  assert (uid ∈ counted_ids messages) as Hin.
  { apply first_seen_elem. rewrite <- Hkeys. apply assoc_get_keys. by eexists. }
  unfold counted_ids in Hin. apply list_elem_of_filter in Hin as [Huid Hin].
  split; [done|].
  destruct (analyze_user_stats_loop_nickname messages [] user_stats uid st Hrun Huid Hget)
    as (first & rest & Hfilter & Hnick & Hid).
  split; [done|]. exists first, rest. split; [done|]. split; [done|].
  pose proof (analyze_user_stats_loop_single messages [] user_stats uid Hrun Huid) as Hs.
  apply analyze_single_user_stats_loop_counts in Hs as (Hmc & Hcc & _).
  unfold entry_counters in Hmc, Hcc. rewrite Hget in Hmc, Hcc.
  cbn [assoc_get fst snd] in Hmc, Hcc. rewrite Hfilter in Hmc, Hcc.
  split; [by rewrite Hmc | by rewrite Hcc].
Qed.

(** X10. For a user with an entry in the result of [analyze_user_stats],
    [analyze_single_user_stats] on the messages selected by
    [filter_user_messages] returns the same four counters, and a
    distribution that lists the counts of the hours 0 to 23. *)
Theorem single_user_stats_agree
    (messages : list pydict) (user_stats : list (pystr * UserStats.t))
    (user_id : pystr) (stats : UserStats.t) :
  analyze_user_stats messages = Ok user_stats ->
  assoc_get user_id user_stats = Some stats ->
  analyze_single_user_stats (filter_user_messages messages user_id)
  = Ok (SingleUserStats.make
          (UserStats.message_count stats) (UserStats.char_count stats)
          (UserStats.emoji_count stats) (UserStats.hours stats)
          (map (fun h => (h, counter_get (UserStats.hours stats) h)) (seqZ 0 24))).
Proof.
  intros Hrun Hget.
  destruct (analyze_user_stats_entries messages user_stats Hrun) as (_ & _ & Hent).
  destruct (Hent user_id stats Hget) as (Huid & _ & first & rest & Hfilter & _).
  pose proof (analyze_user_stats_loop_single messages [] user_stats user_id Hrun Huid)
    as Hs.
  unfold entry_counters in Hs. rewrite Hget in Hs. cbn [assoc_get] in Hs.
  unfold analyze_single_user_stats. rewrite Hfilter in *. by rewrite Hs.
Qed.

(** X11. [analyze_single_user_stats] on no message returns zero counts and an
    empty distribution; on at least one message, when it returns, the
    message count is the number of messages, the character count the total
    length of the texts, and the distribution has exactly the hours 0 to
    23, in order, with counts that add up to the number of messages. *)
Theorem single_user_stats_distribution :
  analyze_single_user_stats [] = Ok (SingleUserStats.make 0 0 0 ∅ [])
  /\ forall messages stats,
       messages ≠ [] ->
       analyze_single_user_stats messages = Ok stats ->
       SingleUserStats.message_count stats = length messages
       /\ SingleUserStats.char_count stats = char_sum messages
       /\ map fst (SingleUserStats.hourly_distribution stats) = seqZ 0 24
       /\ sum_list (map snd (SingleUserStats.hourly_distribution stats))
          = length messages.
Proof.
  split; [done|]. intros messages stats Hne. unfold analyze_single_user_stats.
  destruct messages as [|msg rest]; [done|].
  destruct (analyze_single_user_stats_loop _ _) as [[[[mc cc] ec] hours]|e] eqn:Hloop;
    cbn [mbind result_bind]; [|done].
  intros Heq.
  assert (stats = SingleUserStats.make mc cc ec hours
                    (map (fun h => (h, counter_get hours h)) (seqZ 0 24))) as ->
    by congruence.
  clear Heq.
  apply analyze_single_user_stats_loop_counts in Hloop as (Hmc & Hcc & Hh).
  cbn [fst snd] in Hmc, Hcc, Hh.
  cbn [SingleUserStats.message_count SingleUserStats.char_count
       SingleUserStats.hourly_distribution].
  split; [done|]. split; [done|].
  rewrite !map_map. cbn [fst snd]. split; [apply map_id|].
  transitivity (sum_list (map (counter_get hours) (seqZ 0 24))); [done|].
  rewrite Hh. change (counter_get ∅) with (fun _ : Z => 0%nat).
  assert (forall l : list Z, sum_list (map (fun _ => 0%nat) l) = 0%nat) as ->
    by (intros l; induction l; simpl; lia).
  done.
Qed.

End PerUserFacts.

(** ** Formatting a transcript *)

Section FormatFacts.
Context {RT : PyRuntime} {CFG : AnalysisConfig}.

Lemma truthy_or_empty (x : value) : truthy (or_empty x) = truthy x.
Proof. unfold or_empty. by destruct (truthy x) eqn:Hx. Qed.

Lemma format_messages_loop_app (l1 l2 : list pydict) :
  format_messages_loop (l1 ++ l2)
  = (a ← format_messages_loop l1; b ← format_messages_loop l2; Ok (a ++ b)).
Proof.
  induction l1 as [|msg l1 IH]; simpl.
  - by destruct (format_messages_loop l2).
  - destruct (format_message msg) as [r|e]; simpl; [|done].
    rewrite IH.
    destruct (format_messages_loop l1) as [a|e]; simpl; [|done].
    destruct (format_messages_loop l2) as [b|e]; simpl; [|done].
    by destruct r.
Qed.

(** Every line starts with the opening bracket of its time. *)
Lemma format_messages_loop_lines (messages : list pydict) lines :
  format_messages_loop messages = Ok lines -> Forall (fun line => line ≠ []) lines.
Proof.
  revert lines. induction messages as [|msg rest IH]; simpl; intros lines.
  - intros [= <-]. constructor.
  - destruct (format_message msg) as [r|e] eqn:Hmsg; simpl; [|done].
    destruct (format_messages_loop rest) as [l|e]; simpl; [|done].
    intros [= <-]. specialize (IH l eq_refl). destruct r as [line|]; [|done].
    constructor; [|done]. unfold format_message in Hmsg.
    destruct (fromtimestamp_hms _); simpl in Hmsg; [|done].
    destruct (truthy (or_empty _)); [|done]. by injection Hmsg as <-.
Qed.

Lemma join_cons sep line (lines : list pystr) :
  join sep (line :: lines)
  = if bool_decide (lines = []) then line else line ++ sep ++ join sep lines.
Proof. by destruct lines. Qed.

Lemma join_app sep (a b : list pystr) :
  join sep (a ++ b)
  = if bool_decide (a = []) then join sep b
    else if bool_decide (b = []) then join sep a
    else join sep a ++ sep ++ join sep b.
Proof.
  induction a as [|x a IH]; [done|].
  cbn [app]. rewrite !join_cons, IH.
  destruct a as [|y a], b as [|z b]; cbn [app];
    repeat (first [rewrite bool_decide_eq_true_2 by done
                  |rewrite bool_decide_eq_false_2 by done]);
    rewrite <- ?app_assoc; done.
Qed.

Lemma join_nonempty sep (lines : list pystr) :
  Forall (fun line => line ≠ []) lines -> join sep lines = [] -> lines = [].
Proof.
  intros Hall. destruct Hall as [|line lines Hline _]; [done|].
  rewrite join_cons. case_bool_decide; [done|]. by destruct line.
Qed.

(** X12. [format_messages] converts the time of every message before it looks
    at the text: a message without text (absent, [None] or empty) adds
    nothing to the result when its time converts, and makes the function
    raise when it does not. *)
Theorem format_messages_without_text (l1 l2 : list pydict) (msg : pydict) :
  truthy (dict_get msg (lit "processed_plain_text") VNone) = false ->
  match fromtimestamp_hms (dict_get msg (lit "time") (VInt 0)) with
  | Ok _ => format_messages (l1 ++ msg :: l2) = format_messages (l1 ++ l2)
  | Raise e =>
      forall lines, format_messages_loop l1 = Ok lines ->
      format_messages (l1 ++ msg :: l2) = Raise e
  end.
Proof.
  intros Htext.
  assert (forall hms, fromtimestamp_hms (dict_get msg (lit "time") (VInt 0)) = Ok hms ->
            format_message msg = Ok None) as Hok.
  { intros hms H. unfold format_message. rewrite H. cbn [mbind result_bind].
    by rewrite truthy_or_empty, Htext. }
  unfold format_messages.
  destruct (fromtimestamp_hms _) as [hms|e] eqn:Htime.
  - rewrite !format_messages_loop_app. cbn [format_messages_loop].
    rewrite (Hok hms eq_refl). cbn [mbind result_bind].
    destruct (format_messages_loop l1); [|done].
    by destruct (format_messages_loop l2).
  - intros lines Hl1. rewrite format_messages_loop_app, Hl1.
    cbn [format_messages_loop mbind result_bind].
    unfold format_message. by rewrite Htime.
Qed.

(** X13. The text for two transcripts one after the other is the two texts
    joined by a line break, or the one that is not empty. *)
Theorem format_messages_app (l1 l2 : list pydict) (a b : pystr) :
  format_messages l1 = Ok a -> format_messages l2 = Ok b ->
  format_messages (l1 ++ l2)
  = Ok (if bool_decide (a = []) then b
        else if bool_decide (b = []) then a
        else a ++ [0x0A] ++ b).
Proof.
  unfold format_messages. rewrite format_messages_loop_app.
  destruct (format_messages_loop l1) as [la|e] eqn:H1; simpl; [|done].
  destruct (format_messages_loop l2) as [lb|e] eqn:H2; simpl; [|done].
  intros [= <-] [= <-]. f_equal. rewrite join_app.
  pose proof (join_nonempty [0x0A] la (format_messages_loop_lines _ _ H1)) as Ha.
  pose proof (join_nonempty [0x0A] lb (format_messages_loop_lines _ _ H2)) as Hb.
  destruct (bool_decide (la = [])) eqn:Hla.
  - apply bool_decide_eq_true in Hla as ->. by rewrite bool_decide_eq_true_2.
  - apply bool_decide_eq_false in Hla.
    rewrite (bool_decide_eq_false_2 (join [0x0A] la = [])) by tauto.
    destruct (bool_decide (lb = [])) eqn:Hlb.
    + apply bool_decide_eq_true in Hlb as ->. by rewrite bool_decide_eq_true_2.
    + apply bool_decide_eq_false in Hlb.
      by rewrite (bool_decide_eq_false_2 (join [0x0A] lb = [])) by tauto.
Qed.

End FormatFacts.

(** ** Response recovery: fences and surrounding prose *)

Section FenceFacts.
Context {RT : PyRuntime}.
Implicit Types (s t : pystr).

Lemma find_from_app c pre rest i :
  c ∉ pre -> find_from c (pre ++ c :: rest) i = i + Z.of_nat (length pre).
Proof.
  revert i. induction pre as [|x pre IH]; intros i; cbn [app find_from length].
  - intros _. rewrite Z.eqb_refl. lia.
  - intros [Hx Hpre]%not_elem_of_cons.
    destruct (Z.eqb_spec x c); [congruence|]. rewrite IH by done. lia.
Qed.

Lemma rfind_from_absent c l i last : c ∉ l -> rfind_from c l i last = last.
Proof.
  revert i last. induction l as [|x l IH]; intros i last; cbn [rfind_from]; [done|].
  intros [Hx Hl]%not_elem_of_cons.
  destruct (Z.eqb_spec x c); [congruence|]. by apply IH.
Qed.

Lemma rfind_from_app c xs post i last :
  c ∉ post -> rfind_from c (xs ++ c :: post) i last = i + Z.of_nat (length xs).
Proof.
  intros Hpost. revert i last.
  induction xs as [|x xs IH]; intros i last; cbn [app rfind_from length].
  - rewrite Z.eqb_refl, rfind_from_absent by done. lia.
  - rewrite IH. lia.
Qed.

(** The span from the first opening bracket to the last closing one leaves
    out what comes before and after. *)
Lemma extract_span_body open close pre mid post :
  open ∉ pre -> close ∉ post ->
  extract_span open close (pre ++ ([open] ++ mid ++ [close]) ++ post)
  = [open] ++ mid ++ [close].
Proof.
  intros Hpre Hpost. unfold extract_span, find, rfind.
  cbn [app]. rewrite find_from_app by done.
  replace (pre ++ open :: (mid ++ [close]) ++ post)
    with ((pre ++ open :: mid) ++ close :: post)
    by (rewrite <- ?app_assoc; cbn [app]; by rewrite <- ?app_assoc).
  rewrite rfind_from_app by done. rewrite length_app. cbn [length].
  destruct (Z.eqb_spec (0 + Z.of_nat (length pre)) (-1)); [lia|].
  destruct (Z.eqb_spec (0 + Z.of_nat (length pre + S (length mid))) (-1)); [lia|].
  rewrite (proj2 (Z.ltb_lt _ _)) by lia. cbn [negb andb].
  unfold slice.
  replace (Z.to_nat (0 + Z.of_nat (length pre))) with (length pre) by lia.
  replace (Z.to_nat (0 + Z.of_nat (length pre + S (length mid)) + 1
                     - (0 + Z.of_nat (length pre))))
    with (length (open :: mid ++ [close]))
    by (cbn [length]; rewrite length_app; cbn [length]; lia).
  rewrite <- app_assoc. rewrite drop_app_length.
  replace ((open :: mid) ++ close :: post) with ((open :: mid ++ [close]) ++ post)
    by (cbn [app]; by rewrite <- ?app_assoc).
  apply (take_app_length (open :: mid ++ [close]) post).
Qed.

Lemma lstrip_app_keep pre c rest :
  is_space c = false -> exists pre', lstrip (pre ++ c :: rest) = pre' ++ c :: rest
                                     /\ forall x, x ∈ pre' -> x ∈ pre.
Proof.
  intros Hc. induction pre as [|x pre (pre' & Heq & Hsub)]; cbn [app lstrip].
  - exists []. rewrite Hc. split; [done | by intros x ?%not_elem_of_nil].
  - destruct (is_space x).
    + exists pre'. split; [done|]. intros y Hy. by apply list_elem_of_further, Hsub.
    + by exists (x :: pre).
Qed.

Lemma rstrip_app_keep xs c post :
  is_space c = false -> exists post', rstrip (xs ++ c :: post) = xs ++ c :: post'
                                      /\ forall x, x ∈ post' -> x ∈ post.
Proof.
  intros Hc. unfold rstrip. rewrite rev_app_distr. cbn [rev].
  rewrite <- app_assoc. cbn [app].
  destruct (lstrip_app_keep (rev post) c (rev xs) Hc) as (p' & Heq & Hsub).
  rewrite Heq. exists (rev p'). rewrite rev_app_distr. cbn [rev].
  rewrite rev_involutive, <- app_assoc. split; [done|].
  intros x Hx. apply list_elem_of_In, in_rev, list_elem_of_In, Hsub in Hx.
  by apply list_elem_of_In, in_rev, list_elem_of_In in Hx.
Qed.

Lemma startswith_head s (c : Z) p x :
  x ≠ c -> startswith (x :: s) (c :: p) = false.
Proof. intros H. cbn [startswith]. by destruct (Z.eqb_spec x c). Qed.

Lemma lstrip_blank_prefix ws s :
  Forall (fun c => is_space c = true) ws -> lstrip (ws ++ s) = lstrip s.
Proof.
  induction 1 as [|c ws Hc _ IH]; [done|]. cbn [app lstrip]. by rewrite Hc.
Qed.

Lemma lstrip_elem x s : x ∈ lstrip s -> x ∈ s.
Proof.
  induction s as [|c s IH]; cbn [lstrip]; [done|].
  destruct (is_space c); [|done]. intros H. by apply list_elem_of_further, IH.
Qed.

Lemma strip_elem x s : x ∈ strip s -> x ∈ s.
Proof.
  unfold strip, rstrip. intros H.
  apply list_elem_of_In, in_rev, list_elem_of_In, lstrip_elem in H.
  by apply list_elem_of_In, in_rev, list_elem_of_In, lstrip_elem in H.
Qed.

Lemma startswith_absent s (c : Z) p : c ∉ s -> startswith s (c :: p) = false.
Proof.
  destruct s as [|x s]; [done|]. intros [Hx _]%not_elem_of_cons.
  apply startswith_head. congruence.
Qed.

Lemma lit_FENCE : lit "```" = FENCE.
Proof. reflexivity. Qed.

Lemma startswith_app p t : startswith (p ++ t) p = true.
Proof.
  induction p as [|c p IH]; cbn [app startswith]; [by destruct t|].
  by rewrite Z.eqb_refl, IH.
Qed.

Lemma split_go_cons sep c s cur :
  split_go sep (c :: s) O cur
  = if startswith (c :: s) sep
    then rev cur :: split_go sep s (Nat.pred (length sep)) []
    else split_go sep s O (c :: cur).
Proof. reflexivity. Qed.

Lemma split_go_part X cur rest :
  96 ∉ X ->
  split_go FENCE (X ++ FENCE ++ rest) O cur
  = (rev cur ++ X) :: split_go FENCE rest O [].
Proof.
  revert cur. induction X as [|x X IH]; intros cur.
  - intros _. rewrite app_nil_r. cbn [app].
    change (FENCE ++ rest) with (96 :: [96; 96] ++ rest) at 1.
    rewrite split_go_cons.
    change (96 :: [96; 96] ++ rest) with (FENCE ++ rest).
    by rewrite startswith_app.
  - intros [Hx HX]%not_elem_of_cons.
    cbn [app]. rewrite split_go_cons.
    change (startswith ?a FENCE) with (startswith a (96 :: [96; 96])).
    rewrite startswith_head by congruence.
    rewrite IH by done. cbn [rev]. by rewrite <- app_assoc.
Qed.

(** A reply without a backtick has no fence to remove. *)
Lemma strip_fence_plain s : 96 ∉ s -> strip_fence s = strip s.
Proof.
  intros Hs. unfold strip_fence. rewrite lit_FENCE. unfold FENCE.
  rewrite startswith_absent by (intros H; by apply Hs, strip_elem).
  apply strip_idemp.
Qed.

(** The text between the opening fence, with its optional [json] tag, and
    the next fence is what remains of a fenced reply. *)
Lemma strip_fence_fenced (tagged : bool) ws inner prose :
  Forall (fun c => is_space c = true) ws ->
  96 ∉ inner ->
  (tagged = false -> startswith inner (lit "json") = false) ->
  strip_fence (ws ++ FENCE ++ (if tagged then lit "json" else []) ++ inner
                  ++ FENCE ++ prose)
  = strip inner.
Proof.
  intros Hws Hinner Htag. unfold strip_fence.
  set (body := (if tagged then lit "json" else []) ++ inner).
  assert (Hbody : 96 ∉ body).
  { unfold body. intros [H|H]%elem_of_app; [|done].
    destruct tagged; [|by apply not_elem_of_nil in H].
    vm_compute in H. repeat (apply elem_of_cons in H as [H|H]; [discriminate|]).
    by apply not_elem_of_nil in H. }
  assert (exists prose',
    strip (ws ++ FENCE ++ (if tagged then lit "json" else []) ++ inner
              ++ FENCE ++ prose)
    = FENCE ++ body ++ FENCE ++ prose') as [prose' ->].
  { assert (Htext :
      FENCE ++ (if tagged then lit "json" else []) ++ inner ++ FENCE ++ prose
      = (FENCE ++ body ++ [96; 96]) ++ 96 :: prose).
    { unfold body, FENCE. rewrite <- ?app_assoc. cbn [app].
      by rewrite <- ?app_assoc. }
    destruct (rstrip_app_keep (FENCE ++ body ++ [96; 96]) 96 prose eq_refl)
      as (prose' & Heq & _).
    exists prose'. unfold strip. rewrite lstrip_blank_prefix by done.
    rewrite Htext.
    change (lstrip ((FENCE ++ body ++ [96; 96]) ++ 96 :: prose))
      with ((FENCE ++ body ++ [96; 96]) ++ 96 :: prose).
    rewrite Heq. unfold FENCE. rewrite <- ?app_assoc. cbn [app].
    by rewrite <- ?app_assoc. }
  rewrite lit_FENCE.
  rewrite startswith_app.
  assert (split (FENCE ++ body ++ FENCE ++ prose') FENCE
          = [] :: body :: split_go FENCE prose' O []) as ->.
  { unfold split.
    pose proof (split_go_part [] [] (body ++ FENCE ++ prose')) as Hfirst.
    cbn [app rev] in Hfirst. rewrite Hfirst by apply not_elem_of_nil.
    by rewrite split_go_part. }
  cbn [length Nat.leb nth].
  f_equal. unfold body. destruct tagged.
  - by rewrite startswith_app.
  - cbn [app]. by rewrite Htag.
Qed.

End FenceFacts.

Section RecoveryTolerance.
Context {RT : PyRuntime}.

Lemma sliced_text_surrounded open close pre mid post :
  is_space open = false -> is_space close = false -> open ≠ 96 ->
  96 ∉ pre -> open ∉ pre -> close ∉ post ->
  sliced_text open close (pre ++ ([open] ++ mid ++ [close]) ++ post)
  = [open] ++ mid ++ [close].
Proof.
  intros Hopen Hclose Hne Htick Hpre Hpost. unfold sliced_text.
  assert (exists pre' post',
    strip (pre ++ ([open] ++ mid ++ [close]) ++ post)
    = pre' ++ ([open] ++ mid ++ [close]) ++ post'
    /\ (forall x, x ∈ pre' -> x ∈ pre) /\ (forall x, x ∈ post' -> x ∈ post))
    as (pre' & post' & Heq & Hsub & Hsub').
  { unfold strip.
    destruct (lstrip_app_keep pre open ((mid ++ [close]) ++ post) Hopen)
      as (pre' & Heq & Hsub).
    destruct (rstrip_app_keep (pre' ++ open :: mid) close post Hclose)
      as (post' & Heq' & Hsub').
    exists pre', post'. split; [|done].
    cbn [app]. rewrite Heq.
    replace (pre' ++ open :: (mid ++ [close]) ++ post)
      with ((pre' ++ open :: mid) ++ close :: post)
      by (rewrite <- ?app_assoc; cbn [app]; by rewrite <- ?app_assoc).
    rewrite Heq'. rewrite <- ?app_assoc; cbn [app]; by rewrite <- ?app_assoc. }
  assert (strip_fence (pre ++ ([open] ++ mid ++ [close]) ++ post)
          = pre' ++ ([open] ++ mid ++ [close]) ++ post') as ->.
  { unfold strip_fence. rewrite Heq, lit_FENCE.
    assert (startswith (pre' ++ ([open] ++ mid ++ [close]) ++ post') FENCE = false)
      as ->.
    { unfold FENCE. destruct pre' as [|x pre'']; cbn [app].
      - by apply startswith_head.
      - apply startswith_head. intros ->. apply Htick, Hsub. left. }
    by rewrite <- Heq, strip_idemp. }
  apply extract_span_body.
  - intros H. by apply Hpre, Hsub.
  - intros H. by apply Hpost, Hsub'.
Qed.

(** X14. Prose around the outermost brackets is ignored. A reply made of
    an introduction without backtick or opening bracket, a bracketed body,
    and a tail without closing bracket is parsed as the body alone is, by
    the array parser (square brackets) and by the object parser (braces),
    whatever the JSON decoder does. *)
Theorem surrounding_prose_ignored (pre mid post : pystr) :
  96 ∉ pre ->
  (LBRACKET ∉ pre -> RBRACKET ∉ post ->
   _parse_llm_json (pre ++ ([LBRACKET] ++ mid ++ [RBRACKET]) ++ post)
   = _parse_llm_json ([LBRACKET] ++ mid ++ [RBRACKET]))
  /\ (LBRACE ∉ pre -> RBRACE ∉ post ->
      _parse_llm_json_object (pre ++ ([LBRACE] ++ mid ++ [RBRACE]) ++ post)
      = _parse_llm_json_object ([LBRACE] ++ mid ++ [RBRACE])).
Proof.
  intros Htick. split; intros Hpre Hpost.
  - rewrite !parse_llm_json_unfold.
    rewrite sliced_text_surrounded by done.
    pose proof (sliced_text_surrounded LBRACKET RBRACKET [] mid [] eq_refl eq_refl)
      as Hbare.
    rewrite app_nil_r in Hbare. cbn [app] in Hbare. cbn [app].
    rewrite Hbare; [done|done|apply not_elem_of_nil..].
  - rewrite !parse_llm_json_object_unfold.
    rewrite sliced_text_surrounded by done.
    pose proof (sliced_text_surrounded LBRACE RBRACE [] mid [] eq_refl eq_refl)
      as Hbare.
    rewrite app_nil_r in Hbare. cbn [app] in Hbare. cbn [app].
    rewrite Hbare; [done|done|apply not_elem_of_nil..].
Qed.

(** X15. A Markdown fence is transparent. A reply that consists of
    optional leading whitespace, an opening fence with or without the
    [json] tag, an inner text without backtick, a closing fence and
    anything after it is parsed as the inner text alone is, by both
    parsers, whatever the JSON decoder does. *)
Theorem fenced_reply_transparent (tagged : bool) (ws inner prose : pystr) :
  Forall (fun c => is_space c = true) ws ->
  96 ∉ inner ->
  (tagged = false -> startswith inner (lit "json") = false) ->
  let reply := ws ++ FENCE ++ (if tagged then lit "json" else []) ++ inner
                  ++ FENCE ++ prose in
  _parse_llm_json reply = _parse_llm_json inner
  /\ _parse_llm_json_object reply = _parse_llm_json_object inner.
Proof.
  intros Hws Hinner Htag reply.
  assert (Hfence : strip_fence reply = strip_fence inner).
  { unfold reply. rewrite strip_fence_fenced by done.
    by rewrite strip_fence_plain. }
  split.
  - rewrite !parse_llm_json_unfold. unfold sliced_text. by rewrite Hfence.
  - rewrite !parse_llm_json_object_unfold. unfold sliced_text. by rewrite Hfence.
Qed.

End RecoveryTolerance.

(** ** The scheduler: configuration errors, completion record, restart *)

Section SchedulerRunFacts.
Context {RT : PyRuntime}.
Import SummaryScheduler.

Lemma next_fire_out_of_range now time_str :
  ~ time_in_range time_str -> next_fire now time_str = Raise ValueError.
Proof.
  unfold time_in_range, next_fire, next_fire_at, replace_time, in_range.
  destruct (parse_summary_time time_str) as [h m]. cbn [fst snd]. intros Hout.
  destruct (_ && _) eqn:Hin; [|done]. exfalso. apply Hout.
  apply andb_prop in Hin as [[? ?]%andb_prop [? ?]%andb_prop]. lia.
Qed.

Lemma cycle_out_of_range s env :
  ~ time_in_range (summary_time_str env) ->
  cycle s env = (s, [Backoff], negb (backoff_cancelled env)).
Proof. intros H. unfold cycle. by rewrite next_fire_out_of_range. Qed.

(** X16. A configured time that reads as two integers but names no time
    of the day (such as 24:00 or 12:60) is not replaced by 23:00: each
    pass ends in the error branch, so the loop only backs off for a
    minute at a time, never sleeps until an instant, never invokes the
    job, and leaves the scheduler as it was. *)
Theorem out_of_range_time_never_fires (s : scheduler) (envs : list cycle_env) :
  Forall (fun env => ~ time_in_range (summary_time_str env)) envs ->
  (_schedule_loop s envs).1 = s
  /\ Forall (fun ev => ev = Backoff) (_schedule_loop s envs).2.
Proof.
  induction 1 as [|env rest Henv _ IH].
  - by split.
  - rewrite schedule_loop_cons, cycle_out_of_range by done. cbn [fst snd].
    destruct (is_running s); [|by split].
    destruct (negb (backoff_cancelled env)); cbn [fst snd].
    + destruct IH as [IH1 IH2]. split; [done|]. by constructor.
    + split; [done|]. by repeat constructor.
Qed.

Lemma last_completed_app last evs1 evs2 :
  last_completed last (evs1 ++ evs2)
  = last_completed (last_completed last evs1) evs2.
Proof.
  revert last. induction evs1 as [|ev evs1 IH]; intros last; [done|].
  destruct ev; cbn [app last_completed]; apply IH.
Qed.

Lemma cycle_last_completed s env :
  last_execution_date (cycle s env).1.1
  = last_completed (last_execution_date s) (cycle s env).1.2.
Proof.
  unfold cycle.
  destruct (next_fire _ _) as [[fire wait]|e]; [|done].
  destruct (sleep_cancelled env); [done|].
  destruct (running_after_sleep env); cbn [negb is_running last_execution_date];
    [|done].
  case_bool_decide; [done|]. by destruct (job env).
Qed.

(** X17. The last-fired date is written only when the job returns. After
    any run of the loop it is the date of the last completion of that
    run, and the date held before when the run has none; in particular a
    job that raises or is cancelled leaves it alone. *)
Theorem last_execution_date_is_last_completion (s : scheduler) (envs : list cycle_env) :
  last_execution_date (_schedule_loop s envs).1
  = last_completed (last_execution_date s) (_schedule_loop s envs).2.
Proof.
  revert s. induction envs as [|env rest IH]; intros s; [done|].
  rewrite schedule_loop_cons. destruct (is_running s); [|done].
  pose proof (cycle_last_completed s env) as Hc.
  destruct (cycle s env).2; [|done]. cbn [fst snd].
  by rewrite last_completed_app, IH, Hc.
Qed.

Lemma stop_not_running s : is_running (stop s) = false.
Proof. unfold stop. by destruct (is_running s) eqn:H. Qed.

Lemma stop_keeps_date s : last_execution_date (stop s) = last_execution_date s.
Proof. unfold stop. by destruct (is_running s). Qed.

(** X18. Stopping and starting again. [start] after [stop] creates a task
    exactly when both switches of the configuration are on; the restarted
    scheduler runs, a further [start] does nothing to it, and it still
    holds the last-fired date: passes of the new task that wake on that
    date do not invoke the job. *)
Theorem restart_keeps_guard (s : scheduler) (enabled auto_summary_enabled : value) :
  let restarted := start (stop s) enabled auto_summary_enabled in
  restarted.2 = truthy enabled && truthy auto_summary_enabled
  /\ is_running restarted.1 = restarted.2
  /\ last_execution_date restarted.1 = last_execution_date s
  /\ (restarted.2 = true ->
      forall e a, start restarted.1 e a = (restarted.1, false))
  /\ forall d envs,
       last_execution_date s = Some d ->
       Forall (fun env => wake_date env = d) envs ->
       forall d', Invoke d' ∉ (_schedule_loop restarted.1 envs).2.
Proof.
  intros restarted.
  assert (Hr : restarted
               = if truthy enabled && truthy auto_summary_enabled
                 then (mk_scheduler true (last_execution_date s), true)
                 else (stop s, false)).
  { unfold restarted, start. rewrite stop_not_running, stop_keeps_date.
    by destruct (truthy enabled), (truthy auto_summary_enabled). }
  clearbody restarted. subst restarted.
  assert (Hdate :
    last_execution_date
      (if truthy enabled && truthy auto_summary_enabled
       then (mk_scheduler true (last_execution_date s), true)
       else (stop s, false)).1 = last_execution_date s).
  { destruct (_ && _); cbn [fst last_execution_date]; [done|apply stop_keeps_date]. }
  split; [|split; [|split; [done|split]]].
  - by destruct (_ && _).
  - destruct (_ && _); cbn [fst snd is_running]; [done | apply stop_not_running].
  - destruct (_ && _); cbn [fst snd]; [|done]. intros _ e a. reflexivity.
  - intros d envs Hlast Hall.
    apply schedule_loop_skips with (d := d); [congruence | done].
Qed.

End SchedulerRunFacts.

(** ** The ranking module of the summary image *)

Section DisplayFacts.
Context {RT : PyRuntime}.
Import SummaryImageGenerator.

Ltac arg_eq :=
  match goal with |- ?f ?a = ?f ?b => cut (a = b); [by intros -> |] end.

Lemma enumerate_imap {A B} (f : Z * A -> B) (l : list A) (i : Z) :
  map f (enumerate l i) = imap (fun k e => f (i + Z.of_nat k, e)) l.
Proof.
  revert i. induction l as [|x l IH]; intros i; [done|].
  cbn [enumerate map imap]. f_equal.
  - by rewrite Z.add_0_r.
  - rewrite IH. apply imap_ext. intros k e _. cbn. arg_eq. f_equal. lia.
Qed.

Lemma enumerate_length {A} (l : list A) i : length (enumerate l i) = length l.
Proof. revert i. induction l as [|x l IH]; intros i; cbn; [done|by rewrite IH]. Qed.

Lemma depression_rankings_bottom di M :
  M < Z.of_nat (length di) ->
  depression_rankings di M true
  = imap (fun k e => ranking_of e (Place (Z.of_nat k + 1)))
         (list_to di ((M + 1) / 2))
    ++ imap (fun k e => ranking_of e (Fall (M - (M + 1) / 2 - Z.of_nat k)))
            (list_from di (- (M - (M + 1) / 2))).
Proof.
  intros Hlt. unfold depression_rankings.
  destruct (decide (di = [])) as [-> | Hne].
  { unfold list_to, list_from.
    by destruct (0 <=? _), (0 <=? _); rewrite ?take_nil, ?drop_nil. }
  rewrite bool_decide_eq_false_2 by (by destruct di).
  rewrite (proj2 (Z.leb_gt _ _)) by lia.
  rewrite !enumerate_imap. f_equal.
  - apply imap_ext. intros k e _. cbn. do 2 arg_eq. lia.
  - apply imap_ext. intros k e _. cbn. do 2 arg_eq. lia.
Qed.

Lemma half_sub M : M - (M + 1) / 2 = M / 2.
Proof.
  pose proof (Z.div_mod M 2 ltac:(lia)). pose proof (Z.mod_pos_bound M 2 ltac:(lia)).
  pose proof (Z.div_mod (M + 1) 2 ltac:(lia)).
  pose proof (Z.mod_pos_bound (M + 1) 2 ltac:(lia)). lia.
Qed.

Lemma depression_rankings_halves_eq di M :
  2 <= M < Z.of_nat (length di) ->
  depression_rankings di M true
  = imap (fun k e => ranking_of e (Place (Z.of_nat k + 1)))
         (take (Z.to_nat ((M + 1) / 2)) di)
    ++ imap (fun k e => ranking_of e (Fall (Z.of_nat (Z.to_nat (M / 2) - k))))
            (drop (length di - Z.to_nat (M / 2)) di).
Proof.
  intros [HM Hlt].
  assert (Hpos : 1 <= M / 2) by (apply Z.div_le_lower_bound; lia).
  assert (Htop : 1 <= (M + 1) / 2) by (apply Z.div_le_lower_bound; lia).
  rewrite depression_rankings_bottom by done. rewrite half_sub.
  unfold list_to, list_from.
  rewrite (proj2 (Z.leb_le 0 ((M + 1) / 2))) by lia.
  rewrite (proj2 (Z.leb_gt 0 (- (M / 2)))) by lia.
  replace (Z.to_nat (Z.of_nat (length di) + - (M / 2)))
    with (length di - Z.to_nat (M / 2))%nat by lia.
  f_equal. apply imap_ext. intros k e Hk.
  apply lookup_lt_Some in Hk. rewrite length_drop in Hk.
  do 2 arg_eq. lia.
Qed.

Lemma depression_rankings_halves_length di M :
  2 <= M < Z.of_nat (length di) ->
  length (depression_rankings di M true) = Z.to_nat M.
Proof.
  intros HM. rewrite depression_rankings_halves_eq by done.
  pose proof (half_sub M).
  assert (1 <= M / 2) by (apply Z.div_le_lower_bound; lia).
  assert (1 <= (M + 1) / 2) by (apply Z.div_le_lower_bound; lia).
  rewrite length_app, !length_imap, length_take, length_drop. lia.
Qed.

(** X19. More entries than the maximum, both ends shown. For a maximum
    [M] of at least 2 and more than [M] entries, exactly [M] are shown:
    the first [(M + 1) / 2] entries of the ranking at positions 1, 2, ...
    and then the last [M / 2] entries labelled [fall M/2] down to
    [fall 1]; the two parts do not overlap. *)
Theorem depression_rankings_halves (di : list pydict) (M : Z) :
  2 <= M < Z.of_nat (length di) ->
  let top := Z.to_nat ((M + 1) / 2) in
  let bottom := Z.to_nat (M / 2) in
  depression_rankings di M true
  = imap (fun k e => ranking_of e (Place (Z.of_nat k + 1))) (take top di)
    ++ imap (fun k e => ranking_of e (Fall (Z.of_nat (bottom - k))))
            (drop (length di - bottom) di)
  /\ length (depression_rankings di M true) = Z.to_nat M
  /\ (top + bottom = Z.to_nat M)%nat
  /\ (top <= length di - bottom)%nat.
Proof.
  intros HM top bottom.
  pose proof (half_sub M).
  assert (1 <= M / 2) by (apply Z.div_le_lower_bound; lia).
  assert (1 <= (M + 1) / 2) by (apply Z.div_le_lower_bound; lia).
  split; [by apply depression_rankings_halves_eq|].
  split; [by apply depression_rankings_halves_length|].
  unfold top, bottom. lia.
Qed.

(** X20. A maximum of 0 or 1 with both ends shown. The bottom half then
    has no entry to show, and the slice that takes it from the end of the
    ranking takes the whole ranking instead: all entries are shown after
    the top part, labelled [fall 0], [fall -1], ..., so that more than
    the maximum is displayed. *)
Theorem depression_rankings_small_maximum (di : list pydict) (M : Z) :
  0 <= M <= 1 -> M < Z.of_nat (length di) ->
  depression_rankings di M true
  = imap (fun k e => ranking_of e (Place (Z.of_nat k + 1))) (take (Z.to_nat M) di)
    ++ imap (fun k e => ranking_of e (Fall (- Z.of_nat k))) di
  /\ length (depression_rankings di M true) = (length di + Z.to_nat M)%nat.
Proof.
  intros HM Hlt.
  assert (Hhalf : (M + 1) / 2 = M).
  { assert (M = 0 \/ M = 1) as [-> | ->] by lia; reflexivity. }
  assert (Heq : depression_rankings di M true
    = imap (fun k e => ranking_of e (Place (Z.of_nat k + 1))) (take (Z.to_nat M) di)
      ++ imap (fun k e => ranking_of e (Fall (- Z.of_nat k))) di).
  { rewrite depression_rankings_bottom by done. rewrite Hhalf, Z.sub_diag.
    unfold list_to, list_from. rewrite (proj2 (Z.leb_le 0 M)) by lia.
    cbn [Z.opp Z.leb Z.compare Z.to_nat drop]. f_equal. }
  split; [done|].
  rewrite Heq, length_app, !length_imap, length_take. lia.
Qed.

(** X21. The cap. For a maximum [M] of at least 2 the number of entries
    shown is the smaller of [M] and the number of ranked entries, with or
    without the bottom half; without it, or when all entries fit, the
    entries shown are the first ones, at positions 1, 2, ... *)
Theorem depression_rankings_cap (di : list pydict) (M : Z) (show_bottom : bool) :
  2 <= M ->
  length (depression_rankings di M show_bottom)
  = Nat.min (length di) (Z.to_nat M)
  /\ (show_bottom = false \/ Z.of_nat (length di) <= M ->
      depression_rankings di M show_bottom
      = imap (fun k e => ranking_of e (Place (Z.of_nat k + 1)))
             (take (Z.to_nat M) di)).
Proof.
  intros HM.
  assert (Htop : show_bottom = false \/ Z.of_nat (length di) <= M ->
    depression_rankings di M show_bottom
    = imap (fun k e => ranking_of e (Place (Z.of_nat k + 1)))
           (take (Z.to_nat M) di)).
  { intros Hcase. unfold depression_rankings.
    case_bool_decide as Hlen.
    { apply nil_length_inv in Hlen as ->. by rewrite take_nil. }
    destruct (Z.leb_spec (Z.of_nat (length di)) M) as [Hle|Hgt].
    - rewrite take_ge by lia. rewrite enumerate_imap.
      apply imap_ext. intros k e _. cbn. do 2 arg_eq. lia.
    - destruct Hcase as [-> | ?]; [|lia].
      rewrite enumerate_imap. unfold list_to.
      rewrite (proj2 (Z.leb_le 0 M)) by lia.
      apply imap_ext. intros k e _. cbn. do 2 arg_eq. lia. }
  split; [|done].
  destruct (Z.leb_spec (Z.of_nat (length di)) M) as [Hle|Hgt].
  - rewrite Htop by (by right). rewrite length_imap, length_take. lia.
  - destruct show_bottom.
    + rewrite depression_rankings_halves_length by lia. lia.
    + rewrite Htop by (by left). rewrite length_imap, length_take. lia.
Qed.

End DisplayFacts.

(** ** The properties at concrete inputs *)

Section Witnesses.
Import Reference Examples SummaryScheduler.

Ltac by_compute := vm_compute; first [reflexivity | done].

Ltac not_in_list :=
  let H := fresh in
  intros H; vm_compute in H;
  repeat (apply elem_of_cons in H as [H|H]; [discriminate H|]);
  by apply not_elem_of_nil in H.

Lemma absent_score_yields_zero_witness :
  _validate_depression_index [VDict ann_item] None
  = Ok [RankEntry.make (lit "Ann") (lit "S") 0 (lit "fine") []]
  /\ _validate_depression_index [VDict bea_item] None
     = Ok [RankEntry.make (lit "Bea") (lit "S") 135 (lit "fine") []].
Proof.
  split.
  - refine (proj1 (absent_score_yields_zero None ann_item
                     (text "Ann") (text "S") (text "fine")
                     eq_refl eq_refl eq_refl _ _ _) eq_refl);
      [apply list_elem_of_here | done | done].
  - refine (proj2 (absent_score_yields_zero None bea_item
                     (text "Bea") (text " s ") (text "fine")
                     eq_refl eq_refl eq_refl _ _ _) ValueError eq_refl (or_introl eq_refl));
      [apply list_elem_of_here | done | done].
Defined.


Lemma validate_depression_index_sorted_witness :
  _validate_depression_index batch None
  = Ok [ RankEntry.make (lit "Flo") (lit "A") 150 (lit "fine") [];
         RankEntry.make (lit "Di") (lit "A") 120 (lit "fine") [];
         RankEntry.make (lit "Cy") (lit "B") 80 (lit "fine") [];
         RankEntry.make (lit "Ed") (lit "C") 80 (lit "fine") [] ]
  /\ match _validate_depression_index batch None with
     | Ok out =>
         Forall (fun entry => 0 <= RankEntry.score entry <= 150) out
         /\ StronglySorted (desc RankEntry.score) out
     | Raise _ => False
     end.
Proof.
  split; [reflexivity|].
  pose proof (validate_depression_index_sorted batch None) as H.
  change (_validate_depression_index batch None)
    with (Ok [ RankEntry.make (lit "Flo") (lit "A") 150 (lit "fine") [];
               RankEntry.make (lit "Di") (lit "A") 120 (lit "fine") [];
               RankEntry.make (lit "Cy") (lit "B") 80 (lit "fine") [];
               RankEntry.make (lit "Ed") (lit "C") 80 (lit "fine") [] ]) in *.
  exact (conj (proj1 H) (proj1 (proj2 H))).
Defined.

Lemma invalid_rank_dropped_witness :
  _validate_depression_index (batch ++ VDict xav_item :: [VDict ann_item]) None
  = _validate_depression_index (batch ++ [VDict ann_item]) None.
Proof.
  refine (proj2 (invalid_rank_dropped None batch [VDict ann_item] xav_item (text "X")
                   eq_refl _)).
  not_in_list.
Defined.

Lemma duplicate_fire_guard_witness :
  cycle (mk_scheduler true (Some 738000)) (pass_on 738000)
  = (mk_scheduler true (Some 738000), [Sleep 3600000000], true)
  /\ (_schedule_loop started [pass_on 738000; pass_on 738000]).2
     = [Sleep 3600000000; Invoke 738000; Completed 738000; Sleep 3600000000]
  /\ (Invoke 738000 ∉ [Sleep 3600000000])
  /\ forall d, Invoke d ∉ (_schedule_loop (mk_scheduler true (Some 738000))
                             [pass_on 738000; pass_on 738000]).2.
Proof.
  split; [|split; [|split]].
  - exact (proj2 (proj2 (proj1 duplicate_fire_guard
                           (mk_scheduler true (Some 738000)) (pass_on 738000) 738000
                           eq_refl eq_refl))
             (at_time 738000 23 0) 3600000000 eq_refl eq_refl eq_refl).
  - reflexivity.
  - refine (proj2 (proj2 duplicate_fire_guard)
              [pass_on 738000; pass_on 738000]
              [Sleep 3600000000; Invoke 738000] 738000 [Sleep 3600000000] _ eq_refl).
    unfold chronological. cbn. repeat constructor. lia.
  - refine (proj1 (proj1 (proj2 duplicate_fire_guard)
                     (mk_scheduler true (Some 738000))
                     [pass_on 738000; pass_on 738000] 738000 eq_refl _)).
    by repeat constructor.
Defined.

Lemma next_fire_instant_witness :
  next_fire (at_time 738000 22 0) (lit "23:00")
  = Ok (at_time 738000 23 0, 3600 * 1000000)
  /\ next_fire (at_time 738000 23 30) (lit "23:00")
     = Ok (at_time 738001 23 0, 84600 * 1000000)
  /\ next_fire (mk_datetime 738000 8 15 30 250000) (lit "08:15")
     = Ok (at_time 738001 8 15, 86400000000 - 30250000).
Proof.
  split; [|split].
  - refine (proj1 (proj2 next_fire_instant 738000 (lit "23:00") eq_refl _)). lia.
  - refine (proj2 (proj2 next_fire_instant 738000 (lit "23:00") eq_refl _)). lia.
  - refine (proj1 (proj1 next_fire_instant (mk_datetime 738000 8 15 30 250000)
                     (lit "08:15") 8 15 eq_refl _ _ _ _)); cbn; try lia.
    unfold valid_datetime; cbn; lia.
Defined.

Lemma analyze_user_stats_conservation_witness :
  exists user_stats,
    analyze_user_stats transcript = Ok user_stats
    /\ total_message_count user_stats = 2%nat
    /\ length (filter (fun msg => has_user_id msg = true) transcript) = 2%nat
    /\ forall user_id stats,
         assoc_get user_id user_stats = Some stats ->
         hourly_total stats = UserStats.message_count stats.
Proof.
  pose proof (analyze_user_stats_conservation transcript) as H.
  destruct (analyze_user_stats transcript) as [user_stats|e] eqn:Hrun;
    [|by vm_compute in Hrun].
  exists user_stats. destruct H as [Htotal Hhours].
  split; [done|]. split; [by rewrite Htotal|]. split; [by_compute|].
  intros user_id stats Hget. exact (proj1 (Hhours user_id stats Hget)).
Defined.

Lemma invalid_mbti_defaults_to_ENFP_witness :
  _validate_titles [good_profile; VDict odd_profile; good_profile] None
  = Ok [ TitledProfile.make (lit "Bea") (lit "Punster") (lit "INTJ") (lit "puns") [];
         TitledProfile.make (lit "Ann") (lit "Night owl") (lit "ENFP")
           (lit "posts after midnight") [];
         TitledProfile.make (lit "Bea") (lit "Punster") (lit "INTJ") (lit "puns") [] ].
Proof.
  destruct (invalid_mbti_defaults_to_ENFP (RT := runtime) (CFG := config)
              None [good_profile] [good_profile] odd_profile
              (text "Ann") (text "Night owl") (text "xyz1") (text "posts after midnight")
              ltac:(by_compute) ltac:(by_compute) eq_refl eq_refl eq_refl eq_refl
              ltac:(done) ltac:(done) ltac:(done) ltac:(not_in_list))
    as (out1 & out2 & H1 & H2 & H).
  vm_compute in H1, H2. injection H1 as <-. injection H2 as <-. exact H.
Defined.

Lemma count_emojis_counts_runs_witness :
  count_emojis [0x1F600; 0x1F601] = 1%nat
  /\ count_emojis [0x1F600; 0x41; 0x1F601] = 2%nat
  /\ exists user_stats stats,
       analyze_user_stats transcript = Ok user_stats
       /\ assoc_get (lit "7") user_stats = Some stats
       /\ UserStats.emoji_count stats = 2%nat
       /\ exists single,
            analyze_single_user_stats (filter_user_messages transcript (lit "7"))
            = Ok single
            /\ SingleUserStats.emoji_count single = 2%nat.
Proof.
  destruct count_emojis_counts_runs as (Hadjacent & Hapart & _ & Hfeeds & Hsingle).
  split; [exact (Hadjacent 0x1F600 0x1F601 eq_refl eq_refl)|].
  split; [exact (Hapart 0x1F600 0x41 0x1F601 eq_refl eq_refl eq_refl)|].
  destruct (analyze_user_stats transcript) as [user_stats|e] eqn:Hrun;
    [|by vm_compute in Hrun].
  destruct (assoc_get (lit "7") user_stats) as [stats|] eqn:Hget;
    [|vm_compute in Hrun; injection Hrun as <-; by vm_compute in Hget].
  exists user_stats, stats. split; [done|]. split; [done|].
  split; [rewrite (Hfeeds transcript user_stats (lit "7") stats Hrun Hget); by_compute|].
  destruct (analyze_single_user_stats (filter_user_messages transcript (lit "7")))
    as [single|e] eqn:Hone; [|by vm_compute in Hone].
  exists single. split; [done|].
  rewrite (Hsingle _ single Hone). by_compute.
Defined.

Lemma parse_llm_json_never_raises_witness :
  _parse_llm_json (lit "[]") = Ok []
  /\ _parse_llm_json (lit "no json here") = Ok []
  /\ _parse_llm_json_object (lit "{}") = Ok (Some [])
  /\ _parse_llm_json_object (lit "no json here") = Ok None.
Proof.
  destruct parse_llm_json_never_raises as (_ & Hempty & Hfail & _ & Hempty' & Hfail').
  split; [exact (Hempty (lit "[]") eq_refl)|].
  split; [exact (Hfail (lit "no json here") JSONDecodeError JSONDecodeError eq_refl eq_refl)|].
  split; [exact (Hempty' (lit "{}") eq_refl)|].
  exact (Hfail' (lit "no json here") JSONDecodeError JSONDecodeError eq_refl eq_refl).
Defined.

End Witnesses.

(** ** The further properties at concrete inputs *)

Section MoreWitnesses.
Import Reference Examples MoreExamples SummaryScheduler SummaryImageGenerator.

Ltac by_compute := vm_compute; first [reflexivity | done].

Ltac not_in_list :=
  let H := fresh in
  intros H; vm_compute in H;
  repeat (apply elem_of_cons in H as [H|H]; [discriminate H|]);
  by apply not_elem_of_nil in H.

Ltac all_of tac :=
  vm_compute; repeat (apply Forall_cons; split; [tac|]); apply Forall_nil_2.

Lemma validate_topics_bounds_witness :
  exists out,
    _validate_topics [lunch_item; VInt 3] = Ok out
    /\ (length out <= 5)%nat
    /\ (length out <= 2)%nat
    /\ Forall topic_ok out.
Proof. exact (validate_topics_bounds [lunch_item; VInt 3]). Defined.

Lemma validate_topics_cap_witness :
  _validate_topics (replicate 6 lunch_item ++ VInt 3 :: [lunch_item])
  = _validate_topics (replicate 6 lunch_item ++ [lunch_item])
  /\ _validate_topics (replicate 6 lunch_item ++ [lunch_item])
     = Ok (replicate 5 lunch_topic).
Proof.
  destruct (validate_topics_cap (replicate 6 lunch_item) [lunch_item] (VInt 3)
              (replicate 6 lunch_topic) eq_refl) as [Hskip Hcap].
  split; [exact (Hskip eq_refl)|].
  apply Hcap. cbn. lia.
Defined.

Lemma mention_removed_witness :
  MENTION_sub_empty (lit "@bob<42> hi") = lit "hi".
Proof.
  assert (H1 : Forall (fun c => c ≠ 0x3C /\ is_space c = false) (lit "bob"))
    by (all_of ltac:(split; [discriminate | reflexivity])).
  assert (H2 : Forall (fun c => re_digit c = true) (lit "42"))
    by (all_of ltac:(reflexivity)).
  assert (H3 : Forall (fun c => is_space c = true) (lit " "))
    by (all_of ltac:(reflexivity)).
  assert (H4 : forall c t, lit "hi" = c :: t -> is_space c = false).
  { intros c t H. vm_compute in H. by injection H as <- _. }
  destruct (mention_removed (lit "bob") (lit "42") (lit " ") (lit "hi")
              ltac:(discriminate) H1 ltac:(discriminate) H2 eq_refl H3 H4)
    as [Hdel Hkeep].
  etrans; [exact Hdel|]. apply Hkeep. not_in_list.
Defined.

Lemma validate_quotes_bounds_witness :
  exists out,
    _validate_quotes [quote_item; VNone] = Ok out
    /\ (length out <= 2)%nat
    /\ Forall quote_ok out.
Proof.
  exact (validate_quotes_bounds (RT := runtime) (CFG := config)
           [quote_item; VNone] ltac:(by_compute)).
Defined.

Lemma validate_user_profile_bounds_witness :
  exists p,
    _validate_user_profile (VDict (profile_with (VInt 80))) = Ok (Some p)
    /\ profile_ok p.
Proof.
  destruct (validate_user_profile_bounds (VDict (profile_with (VInt 80))))
    as (r & Hrun & Hok).
  destruct r as [p|]; [|by vm_compute in Hrun].
  exists p. split; [done|]. by apply Hok.
Defined.

Lemma profile_score_fallback_witness :
  _validate_user_profile (VDict (profile_with (VFloat (FInf false)))) = Ok None
  /\ profile_score (profile_with (text "high")) (lit "fun_score") = Ok 50.
Proof.
  split.
  - refine (proj1 (profile_score_fallback (profile_with (VFloat (FInf false)))
                     (lit "fun_score") OverflowError _ eq_refl) eq_refl).
    apply list_elem_of_here.
  - refine (proj2 (profile_score_fallback (profile_with (text "high"))
                     (lit "fun_score") ValueError _ eq_refl) (or_introl eq_refl)).
    apply list_elem_of_here.
Defined.

Lemma validate_titles_bounds_witness :
  exists out,
    _validate_titles [good_profile; VDict odd_profile; VNone] None = Ok out
    /\ (length out <= 3)%nat
    /\ Forall (fun p => title_ok p
                        /\ backfilled None (TitledProfile.name p)
                             (TitledProfile.user_id p)) out.
Proof.
  exact (validate_titles_bounds (RT := runtime) (CFG := config)
           [good_profile; VDict odd_profile; VNone] None
           ltac:(by_compute) ltac:(by_compute)).
Defined.

Lemma validate_depression_index_entries_witness :
  exists out,
    _validate_depression_index batch None = Ok out
    /\ (length out <= 4)%nat
    /\ Forall (fun entry => rank_entry_ok entry
                            /\ backfilled None (RankEntry.name entry)
                                 (RankEntry.user_id entry)) out.
Proof.
  destruct (_validate_depression_index batch None) as [out|e] eqn:Hrun;
    [|by vm_compute in Hrun].
  exists out. split; [done|].
  exact (validate_depression_index_entries batch None out Hrun).
Defined.

Lemma analyze_user_stats_entries_witness :
  exists user_stats,
    analyze_user_stats transcript = Ok user_stats
    /\ map fst user_stats = [lit "7"]
    /\ NoDup (map fst user_stats).
Proof.
  destruct (analyze_user_stats transcript) as [user_stats|e] eqn:Hrun;
    [|by vm_compute in Hrun].
  destruct (analyze_user_stats_entries transcript user_stats Hrun)
    as (Hkeys & Hnodup & _).
  exists user_stats. split; [done|]. split; [|done].
  rewrite Hkeys. by_compute.
Defined.

Lemma single_user_stats_agree_witness :
  exists user_stats stats single,
    analyze_user_stats transcript = Ok user_stats
    /\ assoc_get (lit "7") user_stats = Some stats
    /\ analyze_single_user_stats (filter_user_messages transcript (lit "7"))
       = Ok single
    /\ SingleUserStats.message_count single = UserStats.message_count stats
    /\ SingleUserStats.hours single = UserStats.hours stats.
Proof.
  destruct (analyze_user_stats transcript) as [user_stats|e] eqn:Hrun;
    [|by vm_compute in Hrun].
  destruct (assoc_get (lit "7") user_stats) as [stats|] eqn:Hget;
    [|vm_compute in Hrun; injection Hrun as <-; by vm_compute in Hget].
  exists user_stats, stats. eexists.
  split; [done|]. split; [done|].
  split; [exact (single_user_stats_agree transcript user_stats (lit "7") stats Hrun Hget)|].
  by split.
Defined.

Lemma single_user_stats_distribution_witness :
  exists stats,
    analyze_single_user_stats transcript = Ok stats
    /\ SingleUserStats.message_count stats = 3%nat
    /\ map fst (SingleUserStats.hourly_distribution stats) = seqZ 0 24
    /\ sum_list (map snd (SingleUserStats.hourly_distribution stats)) = 3%nat.
Proof.
  destruct (analyze_single_user_stats transcript) as [stats|e] eqn:Hrun;
    [|by vm_compute in Hrun].
  destruct (proj2 single_user_stats_distribution transcript stats
              ltac:(discriminate) Hrun) as (Hcount & _ & Hhours & Hsum).
  exists stats. by repeat split.
Defined.

Lemma format_messages_without_text_witness :
  format_messages ([hello] ++ silent :: [bye]) = format_messages ([hello] ++ [bye]).
Proof. exact (format_messages_without_text [hello] [bye] silent eq_refl). Defined.

Lemma format_messages_app_witness :
  exists a b,
    format_messages [hello] = Ok a
    /\ format_messages [bye] = Ok b
    /\ format_messages ([hello] ++ [bye]) = Ok (a ++ [0x0A] ++ b).
Proof.
  destruct (format_messages [hello]) as [a|e] eqn:Ha; [|by vm_compute in Ha].
  destruct (format_messages [bye]) as [b|e] eqn:Hb; [|by vm_compute in Hb].
  pose proof (format_messages_app [hello] [bye] a b Ha Hb) as H.
  exists a, b. split; [done|]. split; [done|].
  vm_compute in Ha, Hb. injection Ha as <-. injection Hb as <-. exact H.
Defined.

Lemma surrounding_prose_ignored_witness :
  _parse_llm_json (lit "Sure: [{}] done") = _parse_llm_json (lit "[{}]")
  /\ _parse_llm_json_object (lit "Sure: {} done") = _parse_llm_json_object (lit "{}").
Proof.
  split.
  - refine (proj1 (surrounding_prose_ignored (lit "Sure: ") (lit "{}") (lit " done") _)
              _ _); not_in_list.
  - refine (proj2 (surrounding_prose_ignored (lit "Sure: ") [] (lit " done") _)
              _ _); not_in_list.
Defined.

Lemma fenced_reply_transparent_witness :
  _parse_llm_json fenced_reply = _parse_llm_json fenced_inner
  /\ _parse_llm_json_object fenced_reply = _parse_llm_json_object fenced_inner.
Proof.
  refine (fenced_reply_transparent true (lit " ") fenced_inner (lit " hope it helps")
            _ _ _).
  - all_of ltac:(reflexivity).
  - not_in_list.
  - discriminate.
Defined.

Lemma out_of_range_time_never_fires_witness :
  (_schedule_loop started [pass_at_24 738000; pass_at_24 738001]).1 = started
  /\ Forall (fun ev => ev = Backoff)
       (_schedule_loop started [pass_at_24 738000; pass_at_24 738001]).2.
Proof.
  apply out_of_range_time_never_fires.
  repeat (apply Forall_cons; split;
          [intros [[_ H] _]; vm_compute in H; by apply H|]).
  apply Forall_nil_2.
Defined.

Lemma last_execution_date_is_last_completion_witness :
  last_execution_date (_schedule_loop started [pass_on 738000; pass_on 738001]).1
  = Some 738001.
Proof.
  exact (last_execution_date_is_last_completion started
           [pass_on 738000; pass_on 738001]).
Defined.

Lemma restart_keeps_guard_witness :
  (start (stop (mk_scheduler true (Some 738000))) (VBool true) (VBool true)).2 = true
  /\ Invoke 738000
     ∉ (_schedule_loop
          (start (stop (mk_scheduler true (Some 738000))) (VBool true) (VBool true)).1
          [pass_on 738000; pass_on 738000]).2.
Proof.
  pose proof (restart_keeps_guard (mk_scheduler true (Some 738000))
                (VBool true) (VBool true)) as (Hspawn & _ & _ & _ & Hguard).
  split; [exact Hspawn|].
  refine (Hguard 738000 [pass_on 738000; pass_on 738000] eq_refl _ 738000).
  by repeat constructor.
Defined.

Lemma depression_rankings_halves_witness :
  map pos (depression_rankings four_rows 3 true) = [Place 1; Place 2; Fall 1]
  /\ length (depression_rankings four_rows 3 true) = 3%nat.
Proof.
  destruct (depression_rankings_halves four_rows 3 ltac:(cbn; lia))
    as (Heq & Hlen & _).
  split; [|exact Hlen]. rewrite Heq. reflexivity.
Defined.

Lemma depression_rankings_small_maximum_witness :
  map pos (depression_rankings four_rows 1 true)
  = [Place 1; Fall 0; Fall (-1); Fall (-2); Fall (-3)]
  /\ length (depression_rankings four_rows 1 true) = 5%nat.
Proof.
  destruct (depression_rankings_small_maximum four_rows 1 ltac:(lia) ltac:(cbn; lia))
    as (Heq & Hlen).
  split; [|exact Hlen]. rewrite Heq. reflexivity.
Defined.

Lemma depression_rankings_cap_witness :
  length (depression_rankings four_rows 3 false) = 3%nat
  /\ map pos (depression_rankings four_rows 3 false) = [Place 1; Place 2; Place 3].
Proof.
  destruct (depression_rankings_cap four_rows 3 false ltac:(lia)) as (Hlen & Heq).
  split; [exact Hlen|]. rewrite (Heq (or_introl eq_refl)). reflexivity.
Defined.

End MoreWitnesses.
